(** * Image classification service: preprocessing, inference adapter and
      upload endpoints

    A shallow embedding of the Python sources

    - [backend/utils/image_processor.py]  (class [ImageProcessor]),
    - [backend/models/model_loader.py]    (class [ModelLoader]),
    - [backend/model.py]                  (class [ImageClassifier], [get_classifier]),
    - [backend/app/main.py]               (endpoint [POST /classify]),
    - [backend/main.py]                   (endpoint [POST /predict]),

    together with the properties the specification states about them.

    Conventions.  Python exceptions are values of [exn] carried by
    [result]; objects with mutable attributes become records threaded
    through the calls; [str] is [string] (case folding is the ASCII part of
    [str.lower]); unsigned 8-bit samples are [byte]; float32 values are
    [spec_float] at precision 24 and maximal exponent 128; raw scores and
    probabilities of the classifier are real numbers.

    The modules [ModelLoader], [Classifier] and [ImageProcessor] describe
    a process in which the network can be instantiated and in which
    [Image.open] delivers the decoded image.  Three modules look closer
    at one aspect each: [Loading] at an instantiation that can raise,
    [ImageFile] at pixel data that is decoded when first used, and
    [Compose] at the list of transforms run against torch's random
    generator. *)

From Stdlib Require Import List ZArith Lia Bool Arith.
From Stdlib.Strings Require Import Ascii String Byte.
From Stdlib Require Import Permutation Sorted.
From Stdlib Require Import SpecFloat.
From Stdlib Require Import Reals Lra.

Import ListNotations.
Local Open Scope string_scope.
Local Open Scope Z_scope.

(* ================================================================== *)
(** * Python exceptions and fallible results *)

Module Py.

(** The exception classes the modelled code and its libraries raise. *)
Inductive exn : Type :=
| RuntimeError (msg : string)
| TypeError (msg : string)
| ValueError (msg : string)
| IndexError (msg : string)
| AttributeError (msg : string)
| OSError (msg : string)
| ZeroDivisionError
| UnidentifiedImageError
| FileNotFoundError.

Inductive result (A : Type) : Type :=
| Ok (a : A)
| Raise (e : exn).
Arguments Ok {A} a.
Arguments Raise {A} e.

Definition bind {A B : Type} (r : result A) (k : A -> result B) : result B :=
  match r with
  | Ok a => k a
  | Raise e => Raise e
  end.

Definition is_ok {A : Type} (r : result A) : bool :=
  match r with Ok _ => true | Raise _ => false end.

(** [str(e)]. *)
Definition str (e : exn) : string :=
  match e with
  | RuntimeError msg | TypeError msg | ValueError msg | IndexError msg
  | AttributeError msg | OSError msg => msg
  | ZeroDivisionError => "division by zero"
  | UnidentifiedImageError => "cannot identify image file"
  | FileNotFoundError => "No such file or directory"
  end.

(** [l[i]] on a list. *)
Definition getitem {A : Type} (l : list A) (i : nat) : result A :=
  match nth_error l i with
  | Some a => Ok a
  | None => Raise (IndexError "list index out of range")
  end.

End Py.
Import Py.

Notation "x <- c ;; k" := (Py.bind c (fun x => k))
  (at level 61, c at next level, right associativity).

(* ================================================================== *)
(** * Strings: the [str] and [os.path] operations used on filenames *)

Module Str.

(** [c.lower()] on one character: [A]..[Z] move to [a]..[z].  (Outside
    ASCII [str.lower] may change a character, but never into one of the
    letters of the six extensions, so the upload checks are not
    affected.) *)
Definition lower_char (c : ascii) : ascii :=
  let n := nat_of_ascii c in
  if andb (Nat.leb 65 n) (Nat.leb n 90) then ascii_of_nat (n + 32) else c.

Fixpoint lower (s : string) : string :=
  match s with
  | EmptyString => EmptyString
  | String c s' => String (lower_char c) (lower s')
  end.

(** [s.endswith(suffix)]. *)
Definition endswith (s suffix : string) : bool :=
  let n := String.length s in
  let m := String.length suffix in
  andb (Nat.leb m n) (String.eqb (substring (n - m) m s) suffix).

(** [sub in s]: substring test. *)
Fixpoint contains (s sub : string) : bool :=
  orb (String.prefix sub s)
      (match s with
       | EmptyString => false
       | String _ s' => contains s' sub
       end).

(** [p.rfind(c)] for a one-character [c]: the highest index holding [c],
    or [-1]. *)
Fixpoint rfind_from (c : ascii) (s : string) (i last : Z) : Z :=
  match s with
  | EmptyString => last
  | String a s' => rfind_from c s' (i + 1) (if Ascii.eqb a c then i else last)
  end.

Definition rfind (c : ascii) (s : string) : Z := rfind_from c s 0 (-1).

(** Slices [p[:i]], [p[i:]] and [p[i:i+1]] for [0 <= i]. *)
Definition slice_to (p : string) (i : Z) : string :=
  substring 0 (Z.to_nat i) p.
Definition slice_from (p : string) (i : Z) : string :=
  substring (Z.to_nat i) (String.length p - Z.to_nat i) p.
Definition slice1 (p : string) (i : Z) : string :=
  substring (Z.to_nat i) 1 p.

(** [sep.join(l)]. *)
Fixpoint join (sep : string) (l : list string) : string :=
  match l with
  | [] => ""
  | [x] => x
  | x :: rest => x ++ sep ++ join sep rest
  end.

(** [x in l] for a collection of strings. *)
Definition mem (x : string) (l : list string) : bool :=
  existsb (String.eqb x) l.

(** The [while filenameIndex < dotIndex] loop of [genericpath._splitext];
    [n] is the number of iterations left, [dotIndex - filenameIndex]. *)
Fixpoint splitext_loop (p : string) (filenameIndex dotIndex : Z) (n : nat)
  : string * string :=
  match n with
  | O => (p, "")
  | S n' =>
      if negb (String.eqb (slice1 p filenameIndex) ".")
      then (slice_to p dotIndex, slice_from p dotIndex)
      else splitext_loop p (filenameIndex + 1) dotIndex n'
  end.

(** [os.path.splitext] ([posixpath]: [sep = "/"], no [altsep],
    [extsep = "."]). *)
Definition splitext (p : string) : string * string :=
  let sepIndex := rfind "/"%char p in
  let dotIndex := rfind "."%char p in
  if Z.ltb sepIndex dotIndex
  then splitext_loop p (sepIndex + 1) dotIndex
         (Z.to_nat (dotIndex - (sepIndex + 1)))
  else (p, "").

End Str.

(* ================================================================== *)
(** * Upload validation of the two endpoints *)

Module Upload.

(** The literal [{".jpg", ".jpeg", ".png", ".bmp", ".gif", ".webp"}] of
    both endpoints. *)
Definition allowed_extensions : list string :=
  [".jpg"; ".jpeg"; ".png"; ".bmp"; ".gif"; ".webp"].

(** [backend/app/main.py], [classify_image]:
    [file_ext = os.path.splitext(file.filename)[1].lower()]. *)
Definition file_ext (filename : string) : string :=
  Str.lower (snd (Str.splitext filename)).

(** [file_ext in allowed_extensions]: the test guarding the body of
    [classify_image]. *)
Definition classify_accepts (filename : string) : bool :=
  Str.mem (file_ext filename) allowed_extensions.

(** [backend/main.py], [predict_image.validate_file_type]:
    [any(filename.lower().endswith(ext) for ext in allowed_extensions)]. *)
Definition validate_file_type (filename : string) : bool :=
  existsb (fun ext => Str.endswith (Str.lower filename) ext)
          allowed_extensions.

(** The [detail] of the 400 raised by [classify_image].  A Python [set]
    is iterated in an order fixed per process only; [order] is that
    order. *)
Definition classify_detail (order : list string) (ext : string) : string :=
  "不支持的文件格式: " ++ ext ++ "。支持的格式: " ++ Str.join ", " order.

(** The [detail] of the 400 raised by [predict_image]. *)
Definition predict_detail : string :=
  "不支持的文件类型。请上传图片文件（jpg, jpeg, png, bmp, gif, webp）".

End Upload.

(* ================================================================== *)
(** * IEEE 754 binary32 and binary64 arithmetic *)

Module F32.

Definition prec : Z := 24.
Definition emax : Z := 128.

Definition of_Z (z : Z) : spec_float := binary_normalize prec emax z 0 false.
Definition sub : spec_float -> spec_float -> spec_float := SFsub prec emax.
Definition div : spec_float -> spec_float -> spec_float := SFdiv prec emax.
Definition valid : spec_float -> bool := valid_binary prec emax.

Definition is_finite (x : spec_float) : bool :=
  match x with
  | S754_zero _ | S754_finite _ _ _ => true
  | S754_infinity _ | S754_nan => false
  end.

(** The comparisons [x <= y], [x < y] and [x == y] of binary32 values. *)
Definition leb : spec_float -> spec_float -> bool := SFleb.
Definition ltb : spec_float -> spec_float -> bool := SFltb.
Definition eqb : spec_float -> spec_float -> bool := SFeqb.

(** Rounding of a binary64 value to binary32, as in
    [torch.as_tensor(python_floats, dtype=torch.float32)]. *)
Definition of_double (x : spec_float) : spec_float :=
  match x with
  | S754_finite s m e => binary_round prec emax s m e
  | _ => x
  end.

End F32.

Module F64.

Definition prec : Z := 53.
Definition emax : Z := 1024.

Definition of_Z (z : Z) : spec_float := binary_normalize prec emax z 0 false.

(** The Python float denoted by a decimal literal [n / d] with [n] and
    [d] below [2^53]: the correctly rounded quotient. *)
Definition of_ratio (n d : Z) : spec_float :=
  SFdiv prec emax (of_Z n) (of_Z d).

End F64.

(* ================================================================== *)
(** * PIL images *)

Module PIL.

(** Image modes a PIL decoder can deliver. *)
Inductive mode : Type :=
| M_1 | M_L | M_LA | M_P | M_PA
| M_RGB | M_RGBA | M_RGBX | M_CMYK | M_YCbCr | M_LAB | M_HSV
| M_I | M_I16 | M_F.

Definition mode_eqb (a b : mode) : bool :=
  match a, b with
  | M_1, M_1 | M_L, M_L | M_LA, M_LA | M_P, M_P | M_PA, M_PA
  | M_RGB, M_RGB | M_RGBA, M_RGBA | M_RGBX, M_RGBX | M_CMYK, M_CMYK
  | M_YCbCr, M_YCbCr | M_LAB, M_LAB | M_HSV, M_HSV
  | M_I, M_I | M_I16, M_I16 | M_F, M_F => true
  | _, _ => false
  end.

(** One pixel of an image of the given mode: 8-bit bands, except the
    32-bit integer, 16-bit integer and float32 single-band modes. *)
Definition pixel (m : mode) : Type :=
  match m with
  | M_1 => bool
  | M_L | M_P => byte
  | M_LA | M_PA => (byte * byte)%type
  | M_RGB | M_YCbCr | M_LAB | M_HSV => (byte * byte * byte)%type
  | M_RGBA | M_RGBX | M_CMYK => (byte * byte * byte * byte)%type
  | M_I | M_I16 => Z
  | M_F => spec_float
  end.

Definition rgb : Type := (byte * byte * byte)%type.

(** [len(im.getbands())]. *)
Definition bands (m : mode) : Z :=
  match m with
  | M_1 | M_L | M_P | M_I | M_I16 | M_F => 1
  | M_LA | M_PA => 2
  | M_RGB | M_YCbCr | M_LAB | M_HSV => 3
  | M_RGBA | M_RGBX | M_CMYK => 4
  end.

(** The pixel [Image.new] and padding fill with. *)
Definition zero_pixel (m : mode) : pixel m :=
  match m with
  | M_1 => false
  | M_L | M_P => x00
  | M_LA | M_PA => (x00, x00)
  | M_RGB | M_YCbCr | M_LAB | M_HSV => (x00, x00, x00)
  | M_RGBA | M_RGBX | M_CMYK => (x00, x00, x00, x00)
  | M_I | M_I16 => 0
  | M_F => S754_zero false
  end.

(** A decoded image: [im.mode], [im.size = (width, height)], the palette
    of the [P] modes, and the pixel at column [x], row [y]. *)
Record image : Type := Image {
  im_mode : mode;
  width : Z;
  height : Z;
  palette : list rgb;
  getpixel : Z -> Z -> pixel im_mode
}.

(** Resampling filters of [Image.resize]. *)
Inductive filter : Type := BILINEAR | BICUBIC.

(** What the model takes from the PIL binary: the file decoders behind
    [Image.open] (the image is taken as fully decoded, PIL's deferred
    [load] included), the colour arithmetic of [Image.convert] for the
    modes that need one, and the filter arithmetic of [Image.resize]. *)
Class Lib : Type := {
  Image_open : list byte -> result image;
  Image_open_path : string -> result image;
  colour_to_rgb : forall m : mode, pixel m -> rgb;
  resample : filter -> forall im : image, Z -> Z -> Z -> Z -> pixel (im_mode im)
}.

Section Operations.
Context {lib : Lib}.

(** Palette lookup of [P] to [RGB]; PIL palettes are padded to 256
    entries with black. *)
Definition palette_lookup (pal : list rgb) (i : byte) : rgb :=
  nth (N.to_nat (Byte.to_N i)) pal (x00, x00, x00).

(** One pixel of [im.convert("RGB")]. *)
Definition to_rgb (m : mode) (pal : list rgb) : pixel m -> rgb :=
  match m return pixel m -> rgb with
  | M_1 => fun b => if b then (xff, xff, xff) else (x00, x00, x00)
  | M_L => fun l => (l, l, l)
  | M_LA => fun la => (fst la, fst la, fst la)
  | M_P => fun i => palette_lookup pal i
  | M_PA => fun ia => palette_lookup pal (fst ia)
  | M_RGB => fun p => p
  | M_RGBA => fun p => fst p
  | M_RGBX => fun p => fst p
  | M_CMYK => colour_to_rgb M_CMYK
  | M_YCbCr => colour_to_rgb M_YCbCr
  | M_LAB => colour_to_rgb M_LAB
  | M_HSV => colour_to_rgb M_HSV
  | M_I => colour_to_rgb M_I
  | M_I16 => colour_to_rgb M_I16
  | M_F => colour_to_rgb M_F
  end.

(** [im.convert("RGB")]: a new image of the same size. *)
Definition convert_RGB (im : image) : image :=
  {| im_mode := M_RGB;
     width := width im;
     height := height im;
     palette := [];
     getpixel := fun x y => to_rgb (im_mode im) (palette im) (getpixel im x y) |}.

(** [im.resize((w, h), resample=f)]. *)
Definition resize (f : filter) (im : image) (w h : Z) : image :=
  {| im_mode := im_mode im;
     width := w;
     height := h;
     palette := palette im;
     getpixel := resample f im w h |}.

(** [im.crop((left, top, left + w, top + h))]: the part of the box
    outside the image is filled with zero. *)
Definition crop (im : image) (left top w h : Z) : image :=
  {| im_mode := im_mode im;
     width := w;
     height := h;
     palette := palette im;
     getpixel := fun x y =>
       let sx := x + left in
       let sy := y + top in
       if andb (andb (0 <=? sx) (sx <? width im))
               (andb (0 <=? sy) (sy <? height im))
       then getpixel im sx sy
       else zero_pixel (im_mode im) |}.

(** [ImageOps.expand(im, border=(l, t, r, b), fill=0)]. *)
Definition expand (im : image) (l t r b : Z) : image :=
  crop im (- l) (- t) (l + width im + r) (t + height im + b).

End Operations.

End PIL.

(* ================================================================== *)
(** * Tensors and the torchvision transforms *)

Module Torch.
Import PIL.

Inductive dtype : Type := float32 | int32 | int16.

Inductive scalar : Type :=
| FloatV (x : spec_float)
| IntV (z : Z).

(** A tensor: [t.dtype], [t.shape] and the element at a multi-index. *)
Record tensor : Type := Tensor {
  t_dtype : dtype;
  shape : list Z;
  item : list Z -> scalar
}.

Definition byte_Z (b : byte) : Z := Z.of_N (Byte.to_N b).

(** Band [c] of a pixel as [np.array(pic, dtype)] stores it. *)
Definition sample (m : mode) : pixel m -> Z -> scalar :=
  match m return pixel m -> Z -> scalar with
  | M_1 => fun b _ => IntV (if b then 1 else 0)
  | M_L => fun v _ => IntV (byte_Z v)
  | M_P => fun v _ => IntV (byte_Z v)
  | M_LA => fun p c => IntV (byte_Z (if c =? 0 then fst p else snd p))
  | M_PA => fun p c => IntV (byte_Z (if c =? 0 then fst p else snd p))
  | M_RGB | M_YCbCr | M_LAB | M_HSV => fun p c =>
      let '(r, g, b) := p in
      IntV (byte_Z (if c =? 0 then r else if c =? 1 then g else b))
  | M_RGBA | M_RGBX | M_CMYK => fun p c =>
      let '(r, g, b, a) := p in
      IntV (byte_Z (if c =? 0 then r else if c =? 1 then g
                    else if c =? 2 then b else a))
  | M_I => fun z _ => IntV z
  | M_I16 => fun z _ => IntV z
  | M_F => fun x _ => FloatV x
  end.

(** The 256 values of a uint8 sample, in ascending order. *)
Definition all_bytes : list byte :=
  map (fun n => match Byte.of_N (N.of_nat n) with
                | Some b => b
                | None => x00
                end)
      (seq 0 256).

(** [img.to(torch.float32).div(255)] on one uint8 element. *)
Definition byte_to_float (v : Z) : spec_float :=
  F32.div (F32.of_Z v) (F32.of_Z 255).

(** [torchvision.transforms.functional.to_tensor] on a PIL image: the
    array is laid out as channel, row, column; uint8 data is scaled by
    [1/255], mode [1] after multiplication by 255. *)
Definition to_tensor (pic : image) : tensor :=
  let m := im_mode pic in
  let raw (idx : list Z) : scalar :=
    match idx with
    | [c; y; x] => sample m (getpixel pic x y) c
    | _ => IntV 0
    end in
  let shp := [bands m; height pic; width pic] in
  match m with
  | M_I => Tensor int32 shp raw
  | M_I16 => Tensor int16 shp raw
  | M_F => Tensor float32 shp raw
  | _ =>
      let scale v := match m with M_1 => 255 * v | _ => v end in
      Tensor float32 shp
        (fun idx => match raw idx with
                    | IntV v => FloatV (byte_to_float (scale v))
                    | FloatV x => FloatV x
                    end)
  end.

Definition is_zero (x : spec_float) : bool :=
  match x with S754_zero _ => true | _ => false end.

(** [torchvision.transforms.functional.normalize(tensor, mean, std)] for
    three-element [mean] and [std] given as Python floats:
    [tensor.sub_(mean.view(-1,1,1)).div_(std.view(-1,1,1))] after the
    checks of the function; the in-place subtraction needs the
    broadcast shape to be the shape of [tensor]. *)
Definition normalize (t : tensor) (mean std : list spec_float)
  : result tensor :=
  match t_dtype t with
  | float32 =>
      let ndim := List.length (shape t) in
      if (ndim <? 3)%nat
      then Raise (ValueError "Expected tensor to be a tensor image of size (..., C, H, W)")
      else
        let mean32 := map F32.of_double mean in
        let std32 := map F32.of_double std in
        if existsb is_zero std32
        then Raise (ValueError "std evaluated to zero, leading to division by zero")
        else if nth (ndim - 3) (shape t) 0 =? Z.of_nat (List.length mean32)
        then Ok (Tensor float32 (shape t)
                   (fun idx =>
                      let c := Z.to_nat (nth (ndim - 3) idx 0) in
                      match item t idx with
                      | FloatV x =>
                          FloatV (F32.div (F32.sub x (nth c mean32 S754_nan))
                                          (nth c std32 S754_nan))
                      | IntV z => IntV z
                      end))
        else Raise (RuntimeError "output shape does not match the broadcast shape")
  | _ => Raise (TypeError "Input tensor should be a float tensor")
  end.

(** [t.unsqueeze(0)]. *)
Definition unsqueeze0 (t : tensor) : tensor :=
  Tensor (t_dtype t) (1 :: shape t) (fun idx => item t (tl idx)).

(** [round(d / 2.0)] for an integer [d]: Python rounds halves to even. *)
Definition round_half (d : Z) : Z :=
  let q := d / 2 in
  if d mod 2 =? 0 then q else if Z.even q then q else q + 1.

Section Transforms.
Context {lib : PIL.Lib}.

(** [_compute_resized_output_size((h, w), [size])]: the shorter edge
    becomes [size], the longer one [int(size * long / short)].  Python
    takes the quotient in binary64 and truncates; for edges below [2^44]
    this is the integer quotient. *)
Definition compute_resized_output_size (h w size : Z) : result (Z * Z) :=
  let '(short, long) := if w <=? h then (w, h) else (h, w) in
  if short =? 0 then Raise ZeroDivisionError
  else
    let new_short := size in
    let new_long := size * long / short in
    let '(new_w, new_h) :=
      if w <=? h then (new_short, new_long) else (new_long, new_short) in
    Ok (new_h, new_w).

(** [transforms.Resize(size)] on a PIL image. *)
Definition Resize (size : Z) (img : image) : result image :=
  out <- compute_resized_output_size (height img) (width img) size ;;
  let '(new_h, new_w) := out in
  if andb (height img =? new_h) (width img =? new_w)
  then Ok img
  else Ok (PIL.resize BILINEAR img new_w new_h).

(** [transforms.CenterCrop(size)] on a PIL image. *)
Definition CenterCrop (size : Z) (img : image) : image :=
  let crop_height := size in
  let crop_width := size in
  let padded :=
    if orb (width img <? crop_width) (height img <? crop_height)
    then
      PIL.expand img
        (if width img <? crop_width then (crop_width - width img) / 2 else 0)
        (if height img <? crop_height then (crop_height - height img) / 2 else 0)
        (if width img <? crop_width then (crop_width - width img + 1) / 2 else 0)
        (if height img <? crop_height then (crop_height - height img + 1) / 2 else 0)
    else img in
  if andb (orb (width img <? crop_width) (height img <? crop_height))
          (andb (crop_width =? width padded) (crop_height =? height padded))
  then padded
  else
    let crop_top := round_half (height padded - crop_height) in
    let crop_left := round_half (width padded - crop_width) in
    PIL.crop padded crop_left crop_top crop_width crop_height.

End Transforms.

End Torch.

(* ================================================================== *)
(** * The image processor ([backend/utils/image_processor.py]) *)

Module ImageProcessor.
Import PIL Torch.

(** [self.transform]: the parameters of the [Compose] built by
    [__init__]. *)
Record t : Type := Make {
  resize_size : Z;
  crop_size : Z;
  mean : list spec_float;
  std : list spec_float
}.

(** [ImageProcessor()]; the module-level [image_processor]. *)
Definition image_processor : t :=
  {| resize_size := 256;
     crop_size := 224;
     mean := [F64.of_ratio 485 1000; F64.of_ratio 456 1000; F64.of_ratio 406 1000];
     std := [F64.of_ratio 229 1000; F64.of_ratio 224 1000; F64.of_ratio 225 1000] |}.

Section Methods.
Context {lib : PIL.Lib}.

(** [self.transform(image)]: [Resize], [CenterCrop], [ToTensor],
    [Normalize], in this order. *)
Definition transform (self : t) (img : image) : result tensor :=
  resized <- Resize (resize_size self) img ;;
  let cropped := CenterCrop (crop_size self) resized in
  normalize (to_tensor cropped) (mean self) (std self).

(** The statement [if image.mode != "RGB": image = image.convert("RGB")]
    of both loaders. *)
Definition to_RGB (img : image) : image :=
  if negb (mode_eqb (im_mode img) M_RGB)
  then convert_RGB img
  else img.

Definition load_image_from_bytes (self : t) (image_bytes : list byte)
  : result image :=
  img <- Image_open image_bytes ;;
  Ok (to_RGB img).

Definition load_image_from_path (self : t) (image_path : string)
  : result image :=
  img <- Image_open_path image_path ;;
  Ok (to_RGB img).

Definition preprocess_image (self : t) (img : image) : result tensor :=
  image_tensor <- transform self img ;;
  Ok (unsqueeze0 image_tensor).

Definition process_from_bytes (self : t) (image_bytes : list byte)
  : result tensor :=
  img <- load_image_from_bytes self image_bytes ;;
  preprocess_image self img.

Definition process_from_path (self : t) (image_path : string)
  : result tensor :=
  img <- load_image_from_path self image_path ;;
  preprocess_image self img.

(** [image.resize(size)]: the default filter of [Image.resize]. *)
Definition resize_image (self : t) (img : image) (size : Z * Z) : image :=
  PIL.resize BICUBIC img (fst size) (snd size).

(** [image.astype(np.float32) / 255.0] on a uint8 array, given by its
    shape and its elements in storage order: each element is converted
    to float32 and divided by the float32 255. *)
Definition normalize_image (self : t) (image : list Z * list byte)
  : list Z * list spec_float :=
  (fst image, map (fun b => byte_to_float (byte_Z b)) (snd image)).

(** The value [transform] gives to channel [c] of a pixel whose sample in
    that channel is the byte [b]. *)
Definition norm_value (self : t) (c : nat) (b : byte) : spec_float :=
  F32.div (F32.sub (byte_to_float (byte_Z b))
                   (nth c (map F32.of_double (mean self)) S754_nan))
          (nth c (map F32.of_double (std self)) S754_nan).

(** The invariant of a normalized tensor: float32, shape (1, 3, 224, 224),
    every element a finite binary32 number. *)
Definition normalized (x : tensor) : Prop :=
  t_dtype x = float32 /\
  shape x = [1; 3; 224; 224] /\
  forall c y x', 0 <= c < 3 -> 0 <= y < 224 -> 0 <= x' < 224 ->
    exists v, item x [0; c; y; x'] = FloatV v /\
              F32.is_finite v = true /\ F32.valid v = true.

(** A method call on the processor, and what it returns. *)
Inductive call : Type :=
| Call_load_image_from_bytes (image_bytes : list byte)
| Call_load_image_from_path (image_path : string)
| Call_preprocess_image (img : image)
| Call_process_from_bytes (image_bytes : list byte)
| Call_process_from_path (image_path : string)
| Call_resize_image (img : image) (size : Z * Z).

Inductive outcome : Type :=
| Out_image (r : result image)
| Out_tensor (r : result tensor).

(** One call: the object after it and its outcome.  No method assigns
    an attribute of [self]. *)
Definition step (self : t) (c : call) : t * outcome :=
  match c with
  | Call_load_image_from_bytes b => (self, Out_image (load_image_from_bytes self b))
  | Call_load_image_from_path p => (self, Out_image (load_image_from_path self p))
  | Call_preprocess_image im => (self, Out_tensor (preprocess_image self im))
  | Call_process_from_bytes b => (self, Out_tensor (process_from_bytes self b))
  | Call_process_from_path p => (self, Out_tensor (process_from_path self p))
  | Call_resize_image im size => (self, Out_image (Ok (resize_image self im size)))
  end.

(** A sequence of calls on one processor object. *)
Fixpoint run (self : t) (history : list call) : t :=
  match history with
  | [] => self
  | c :: rest => run (fst (step self c)) rest
  end.

End Methods.

End ImageProcessor.

(* ================================================================== *)
(** * Softmax, top-k and rounding on real numbers *)

Module Prob.
Local Open Scope R_scope.

Definition sum (xs : list R) : R := fold_right Rplus 0 xs.

(** [max(xs)] of a non-empty list. *)
Definition maximum (xs : list R) : R :=
  match xs with
  | [] => 0
  | x :: rest => fold_left Rmax rest x
  end.

(** [torch.nn.functional.softmax(xs, dim=0)] as the kernel computes it:
    the maximum is subtracted before exponentiating. *)
Definition softmax (xs : list R) : list R :=
  let m := maximum xs in
  let es := map (fun x => exp (x - m)) xs in
  let s := sum es in
  map (fun e => e / s) es.

(** The defining formula [exp(x_i) / sum_j exp(x_j)] of the
    specification. *)
Definition softmax_formula (xs : list R) (i : nat) : R :=
  exp (nth i xs 0) / sum (map exp xs).

(** What [torch.topk(xs, k)] promises about its pair of [values] and
    [indices]: [k] distinct positions of [xs] with their values, in
    non-increasing order of value, no left-out value above a chosen
    one.  The order among equal values is not fixed. *)
Record topk_spec (xs : list R) (k : nat) (values : list R)
       (indices : list nat) : Prop := {
  topk_values_length : List.length values = k;
  topk_indices_length : List.length indices = k;
  topk_indices_nodup : NoDup indices;
  topk_indices_range : forall i, In i indices -> (i < List.length xs)%nat;
  topk_values_at : forall n, (n < k)%nat ->
                   nth n values 0 = nth (nth n indices O) xs 0;
  topk_sorted : forall n m, (n <= m < k)%nat ->
                   nth m values 0 <= nth n values 0;
  topk_largest : forall j, (j < List.length xs)%nat -> ~ In j indices ->
                   forall v, In v values -> nth j xs 0 <= v
}.

(** The integer nearest to [x], halves going to the even neighbour. *)
Definition round_half_even (x : R) : Z :=
  let f := Int_part x in
  let d := x - IZR f in
  if Rlt_dec d (1 / 2) then f
  else if Rlt_dec (1 / 2) d then (f + 1)%Z
  else if Z.even f then f else (f + 1)%Z.

(** [round(x, 4)]. *)
Definition round4 (x : R) : R :=
  IZR (round_half_even (x * 10000)) / 10000.

End Prob.

(* ================================================================== *)
(** * The model loader ([backend/models/model_loader.py]) *)

Module ModelLoader.
Import Torch Prob.

(** What the model takes from torch and torchvision: the forward pass of
    the network ([forward n x] is the value of the [n]-th evaluation
    [self.model(x)] of the process, a batch of score rows), [torch.topk]
    the category list [MobileNet_V2_Weights.DEFAULT.meta["categories"]],
    and the stripped lines of the file [imagenet_classes.txt] (or the
    exception [open] raises). *)
Class Net : Type := {
  forward : nat -> tensor -> result (list (list R));
  topk : list R -> Z -> result (list R * list nat);
  categories : list string;
  imagenet_classes_txt : result (list string)
}.

(** The contract of these: a float32 batch of one 3x224x224 image yields
    one row of 1000 scores, [topk] meets [topk_spec] for [0 <= k <= n],
    and there are 1000 categories. *)
Record NetOK (net : Net) : Prop := {
  forward_row : forall n x,
    t_dtype x = float32 -> shape x = [1; 3; 224; 224]%Z ->
    exists row, forward n x = Ok [row] /\ List.length row = 1000%nat;
  topk_ok : forall xs k,
    (0 <= k <= Z.of_nat (List.length xs))%Z ->
    exists values indices,
      topk xs k = Ok (values, indices) /\
      topk_spec xs (Z.to_nat k) values indices;
  categories_length : List.length categories = 1000%nat
}.

(** The [ModelLoader] object with the part of the process it acts on:
    [model] is [self.model] ([None], or the handle of the network, here
    the ordinal of the instantiation that made it), [instantiated]
    counts the calls of [models.mobilenet_v2], [invoked] lists the
    tensors passed to [self.model(...)], latest first. *)
Record state : Type := State {
  model : option nat;
  instantiated : nat;
  invoked : list tensor
}.

(** The module-level [model_loader = ModelLoader()] of a fresh process. *)
Definition model_loader : state :=
  {| model := None; instantiated := 0; invoked := [] |}.

(** The loader holds the network made by the first instantiation, and
    there was no other. *)
Definition loaded (s : state) : Prop :=
  model s = Some 0%nat /\ instantiated s = 1%nat.

(** One entry of the list [predict_top_k] returns. *)
Record prediction : Type := Prediction {
  class_name : string;
  confidence : R
}.

(** [t.item()] on a one-element tensor. *)
Definition item1 {A : Type} (l : list A) : result A :=
  match l with
  | [a] => Ok a
  | _ => Raise (RuntimeError "a Tensor with several or no elements cannot be converted to Scalar")
  end.

Section Methods.
Context {net : Net}.

Definition load_model (self : state) : state :=
  match model self with
  | None =>
      {| model := Some (instantiated self);
         instantiated := S (instantiated self);
         invoked := invoked self |}
  | Some _ => self
  end.

(** The common head of [predict] and [predict_top_k]: load if needed,
    evaluate the network on the tensor, take [outputs[0]] and apply
    softmax.  ([eval()] and [to(device)] change no value.) *)
Definition probabilities (self : state) (image_tensor : tensor)
  : state * result (list R) :=
  let self1 := match model self with
               | None => load_model self
               | Some _ => self
               end in
  let self2 := {| model := model self1;
                  instantiated := instantiated self1;
                  invoked := image_tensor :: invoked self1 |} in
  (self2,
   outputs <- forward (List.length (invoked self)) image_tensor ;;
   row <- getitem outputs 0 ;;
   Ok (softmax row)).

Definition predict (self : state) (image_tensor : tensor)
  : state * result (string * R) :=
  let '(self', probs) := probabilities self image_tensor in
  (self',
   probs <- probs ;;
   top <- topk probs 1 ;;
   let '(top_prob, top_class) := top in
   i <- item1 top_class ;;
   class_name <- getitem categories i ;;
   confidence <- item1 top_prob ;;
   Ok (class_name, confidence)).

(** The loop [for i in range(k)] of [predict_top_k]. *)
Fixpoint results_loop (top_probs : list R) (top_classes : list nat)
         (i n : nat) : result (list prediction) :=
  match n with
  | O => Ok []
  | S n' =>
      c <- getitem top_classes i ;;
      class_name <- getitem categories c ;;
      confidence <- getitem top_probs i ;;
      rest <- results_loop top_probs top_classes (S i) n' ;;
      Ok ({| class_name := class_name; confidence := confidence |} :: rest)
  end.

(** The entries the loop of [predict_top_k] builds from the pair
    [torch.topk] returned, when no lookup fails. *)
Definition entries (values : list R) (indices : list nat) (i n : nat)
  : list prediction :=
  map (fun j => {| class_name := nth (nth j indices 0%nat) categories "";
                   confidence := nth j values 0%R |})
      (seq i n).

(** [torch.topk(probabilities, k)] inside [predict_top_k]. *)
Definition top_k_raw (self : state) (image_tensor : tensor) (k : Z)
  : state * result (list R * list nat) :=
  let '(self', probs) := probabilities self image_tensor in
  (self', probs <- probs ;; topk probs k).

Definition predict_top_k (self : state) (image_tensor : tensor) (k : Z)
  : state * result (list prediction) :=
  let '(self', top) := top_k_raw self image_tensor k in
  (self',
   top <- top ;;
   let '(top_probs, top_classes) := top in
   results_loop top_probs top_classes 0 (Z.to_nat k)).

(** A call on the loader. *)
Inductive call : Type :=
| Call_load_model
| Call_predict (image_tensor : tensor)
| Call_predict_top_k (image_tensor : tensor) (k : Z).

Definition step (self : state) (c : call) : state :=
  match c with
  | Call_load_model => load_model self
  | Call_predict x => fst (predict self x)
  | Call_predict_top_k x k => fst (predict_top_k self x k)
  end.

Definition run (self : state) (history : list call) : state :=
  fold_left step history self.

End Methods.

End ModelLoader.

(* ================================================================== *)
(** * The second pipeline ([backend/model.py]) *)

Module Classifier.
Import PIL Torch Prob ModelLoader.

(** The module global [_classifier_instance] with the part of the
    process it acts on: [hub_loaded] counts the calls of
    [torch.hub.load], [evaluated] lists the batches passed to the
    network, latest first. *)
Record state : Type := State {
  _classifier_instance : option nat;
  hub_loaded : nat;
  evaluated : list tensor
}.

Definition init : state :=
  {| _classifier_instance := None; hub_loaded := 0; evaluated := [] |}.

(** The global holds the classifier made by the first construction, and
    there was no other. *)
Definition constructed (g : state) : Prop :=
  _classifier_instance g = Some 0%nat /\ hub_loaded g = 1%nat.

(** The dictionary [ImageClassifier.predict] returns. *)
Record predictions : Type := Predictions {
  predictions_list : list (string * R);
  top_prediction : string * R
}.

Section Methods.
Context {lib : PIL.Lib} {net : Net}.

(** [get_classifier()]: [ImageClassifier()] runs [_load_model], which
    calls [torch.hub.load] once. *)
Definition get_classifier (g : state) : state * nat :=
  match _classifier_instance g with
  | None =>
      ({| _classifier_instance := Some (hub_loaded g);
          hub_loaded := S (hub_loaded g);
          evaluated := evaluated g |}, hub_loaded g)
  | Some h => (g, h)
  end.

(** [process_image] of [ImageClassifier.predict]. *)
Definition process_image (img_bytes : list byte) : result tensor :=
  img <- Image_open img_bytes ;;
  let img := convert_RGB img in
  input_tensor <- ImageProcessor.transform ImageProcessor.image_processor img ;;
  Ok (unsqueeze0 input_tensor).

(** The loop [for i in range(top5_prob.size(0))]. *)
Fixpoint results_loop (categories : list string) (top5_prob : list R)
         (top5_catid : list nat) (i n : nat) : result (list (string * R)) :=
  match n with
  | O => Ok []
  | S n' =>
      c <- getitem top5_catid i ;;
      name <- getitem categories c ;;
      p <- getitem top5_prob i ;;
      rest <- results_loop categories top5_prob top5_catid (S i) n' ;;
      Ok ((name, p) :: rest)
  end.

(** [ImageClassifier.predict(image_bytes)] on the instance held by
    the global. *)
Definition predict (g : state) (image_bytes : list byte)
  : state * result predictions :=
  match process_image image_bytes with
  | Raise e => (g, Raise e)
  | Ok input_batch =>
      ({| _classifier_instance := _classifier_instance g;
          hub_loaded := hub_loaded g;
          evaluated := input_batch :: evaluated g |},
       output <- forward (List.length (evaluated g)) input_batch ;;
       row <- getitem output 0 ;;
       let probabilities := softmax row in
       categories <- imagenet_classes_txt ;;
       top <- topk probabilities 5 ;;
       let '(top5_prob, top5_catid) := top in
       results <- results_loop categories top5_prob top5_catid 0
                    (List.length top5_prob) ;;
       c0 <- getitem top5_catid 0 ;;
       name0 <- getitem categories c0 ;;
       p0 <- getitem top5_prob 0 ;;
       Ok {| predictions_list := results; top_prediction := (name0, p0) |})
  end.

End Methods.

End Classifier.

(* ================================================================== *)
(** * The endpoints *)

Module Http.

(** What a handler produces: a raised [HTTPException] or a JSON body
    sent with status 200. *)
Inductive response (B : Type) : Type :=
| HTTPException (status_code : Z) (detail : string)
| Json (content : B).
Arguments HTTPException {B} status_code detail.
Arguments Json {B} content.

Definition status {B : Type} (r : response B) : Z :=
  match r with
  | HTTPException code _ => code
  | Json _ => 200
  end.

End Http.

(** [POST /classify] of [backend/app/main.py]. *)
Module App.
Import PIL Torch Prob Http.

Record entry : Type := Entry {
  entry_class_name : string;
  entry_confidence : R
}.

Record body : Type := Body {
  success : bool;
  filename : string;
  prediction : entry;
  top_k : list entry
}.

Section Handler.
Context {lib : PIL.Lib} {net : ModelLoader.Net}.
(** The order in which this process iterates the set
    [allowed_extensions]. *)
Variable order : list string.

Definition classify_image (loader : ModelLoader.state)
           (file_filename : string) (file_contents : list byte)
  : ModelLoader.state * response body :=
  let file_ext := Upload.file_ext file_filename in
  if negb (Str.mem file_ext Upload.allowed_extensions)
  then (loader, HTTPException 400 (Upload.classify_detail order file_ext))
  else
    let failed (e : exn) : response body :=
      HTTPException 500 ("图像处理失败: " ++ Py.str e) in
    match ImageProcessor.process_from_bytes
            ImageProcessor.image_processor file_contents with
    | Raise e => (loader, failed e)
    | Ok image_tensor =>
        let '(loader1, r1) := ModelLoader.predict loader image_tensor in
        match r1 with
        | Raise e => (loader1, failed e)
        | Ok (class_name, confidence) =>
            let '(loader2, r2) :=
              ModelLoader.predict_top_k loader1 image_tensor 5 in
            match r2 with
            | Raise e => (loader2, failed e)
            | Ok top_k_results =>
                (loader2,
                 Json {| success := true;
                         filename := file_filename;
                         prediction :=
                           {| entry_class_name := class_name;
                              entry_confidence := round4 confidence |};
                         top_k :=
                           map (fun result =>
                                  {| entry_class_name := ModelLoader.class_name result;
                                     entry_confidence :=
                                       round4 (ModelLoader.confidence result) |})
                               top_k_results |})
            end
        end
    end.

End Handler.

End App.

(** [POST /predict] of [backend/main.py]. *)
Module Api.
Import Http.

Section Handler.
Context {lib : PIL.Lib} {net : ModelLoader.Net}.

Definition predict_image (g : Classifier.state)
           (file_filename : string) (file_contents : list byte)
  : Classifier.state * response Classifier.predictions :=
  if negb (Upload.validate_file_type file_filename)
  then (g, HTTPException 400 Upload.predict_detail)
  else
    let '(g1, _) := Classifier.get_classifier g in
    let '(g2, result) := Classifier.predict g1 file_contents in
    match result with
    | Ok content => (g2, Json content)
    | Raise e => (g2, HTTPException 500 ("图像分类失败: " ++ Py.str e))
    end.

(** What a process does with the global: a bare [get_classifier()],
    or a request to [POST /predict]. *)
Inductive request : Type :=
| Get_classifier
| Post_predict (file_filename : string) (file_contents : list byte).

Definition step (g : Classifier.state) (r : request) : Classifier.state :=
  match r with
  | Get_classifier => fst (Classifier.get_classifier g)
  | Post_predict name contents => fst (predict_image g name contents)
  end.

Definition run (g : Classifier.state) (history : list request)
  : Classifier.state :=
  fold_left step history g.

End Handler.

End Api.

(* ================================================================== *)
(** * Loading when the instantiation can fail *)

Module Loading.
Import Torch Prob ModelLoader Http.

(** The library calls that make a network.  [mobilenet_v2 n] is the
    outcome of the [n]-th call [models.mobilenet_v2(weights=weights)] of
    the process, [hub_load n] that of the [n]-th call
    [torch.hub.load(...)]: each returns a network or raises (the weights
    are fetched on first use). *)
Class Hub : Type := {
  mobilenet_v2 : nat -> result unit;
  hub_load : nat -> result unit
}.

Section Methods.
Context {lib : PIL.Lib} {net : Net} {hub : Hub}.

(** [ModelLoader.load_model]: [self.model] is assigned only when
    [models.mobilenet_v2] has returned; when it raises, the exception
    leaves the method and [self.model] is still [None]. *)
Definition load_model (self : state) : state * result unit :=
  match model self with
  | None =>
      match mobilenet_v2 (instantiated self) with
      | Ok _ =>
          ({| model := Some (instantiated self);
              instantiated := S (instantiated self);
              invoked := invoked self |}, Ok tt)
      | Raise e =>
          ({| model := None;
              instantiated := S (instantiated self);
              invoked := invoked self |}, Raise e)
      end
  | Some _ => (self, Ok tt)
  end.

(** [ModelLoader.predict]: the statement
    [if self.model is None: self.load_model()], then the rest of the
    method, which runs on a loaded model. *)
Definition predict (self : state) (image_tensor : tensor)
  : state * result (string * R) :=
  let '(self1, loading) := load_model self in
  match loading with
  | Raise e => (self1, Raise e)
  | Ok _ => ModelLoader.predict self1 image_tensor
  end.

Definition predict_top_k (self : state) (image_tensor : tensor) (k : Z)
  : state * result (list prediction) :=
  let '(self1, loading) := load_model self in
  match loading with
  | Raise e => (self1, Raise e)
  | Ok _ => ModelLoader.predict_top_k self1 image_tensor k
  end.

Definition step (self : state) (c : call) : state :=
  match c with
  | Call_load_model => fst (load_model self)
  | Call_predict x => fst (predict self x)
  | Call_predict_top_k x k => fst (predict_top_k self x k)
  end.

Definition run (self : state) (history : list call) : state :=
  fold_left step history self.

(** [get_classifier()]: the global is assigned only when
    [ImageClassifier()] has returned, that is when the [torch.hub.load]
    of [_load_model] has. *)
Definition get_classifier (g : Classifier.state)
  : Classifier.state * result nat :=
  match Classifier._classifier_instance g with
  | None =>
      match hub_load (Classifier.hub_loaded g) with
      | Ok _ =>
          ({| Classifier._classifier_instance := Some (Classifier.hub_loaded g);
              Classifier.hub_loaded := S (Classifier.hub_loaded g);
              Classifier.evaluated := Classifier.evaluated g |},
           Ok (Classifier.hub_loaded g))
      | Raise e =>
          ({| Classifier._classifier_instance := None;
              Classifier.hub_loaded := S (Classifier.hub_loaded g);
              Classifier.evaluated := Classifier.evaluated g |},
           Raise e)
      end
  | Some h => (g, Ok h)
  end.

(** [POST /predict]: [get_classifier()] is called inside the [try]. *)
Definition predict_image (g : Classifier.state)
           (file_filename : string) (file_contents : list byte)
  : Classifier.state * response Classifier.predictions :=
  if negb (Upload.validate_file_type file_filename)
  then (g, HTTPException 400 Upload.predict_detail)
  else
    let failed (e : exn) : response Classifier.predictions :=
      HTTPException 500 ("图像分类失败: " ++ Py.str e) in
    let '(g1, classifier) := get_classifier g in
    match classifier with
    | Raise e => (g1, failed e)
    | Ok _ =>
        let '(g2, result) := Classifier.predict g1 file_contents in
        match result with
        | Ok content => (g2, Json content)
        | Raise e => (g2, failed e)
        end
    end.

Definition api_step (g : Classifier.state) (r : Api.request)
  : Classifier.state :=
  match r with
  | Api.Get_classifier => fst (get_classifier g)
  | Api.Post_predict name contents => fst (predict_image g name contents)
  end.

Definition api_run (g : Classifier.state) (history : list Api.request)
  : Classifier.state :=
  fold_left api_step history g.

End Methods.

End Loading.

(* ================================================================== *)
(** * Image files whose data is decoded on demand *)

Module ImageFile.
Import PIL Torch.

(** What [Image.open] returns: the mode and the size read from the
    header, the pixel data still in the file.  [load] is what decoding
    the data gives when it is first needed: the image, or the exception
    of the decoder ([OSError] on truncated data). *)
Record file : Type := File {
  file_mode : mode;
  file_width : Z;
  file_height : Z;
  load : result image
}.

(** A decoder delivers the image its header announced. *)
Definition consistent (f : file) : Prop :=
  forall im, load f = Ok im ->
    im_mode im = file_mode f /\ width im = file_width f /\
    height im = file_height f.

(** The file decoders behind [Image.open]. *)
Class Decoder : Type := {
  Image_open : list byte -> result file;
  Image_open_path : string -> result file
}.

(** An [Image.Image] object: an opened file or an image in memory. *)
Inductive object : Type :=
| Opened (f : file)
| InMemory (im : image).

(** [image.mode] and [image.size]. *)
Definition mode_of (o : object) : mode :=
  match o with
  | Opened f => file_mode f
  | InMemory im => im_mode im
  end.

Definition size_of (o : object) : Z * Z :=
  match o with
  | Opened f => (file_width f, file_height f)
  | InMemory im => (width im, height im)
  end.

(** [image.load()], which every operation on the pixels starts with. *)
Definition pixels (o : object) : result image :=
  match o with
  | Opened f => load f
  | InMemory im => Ok im
  end.

Section Methods.
Context {lib : PIL.Lib} {dec : Decoder}.

(** [image.convert("RGB")]. *)
Definition convert_RGB (o : object) : result object :=
  im <- pixels o ;;
  Ok (InMemory (PIL.convert_RGB im)).

(** The statement [if image.mode != "RGB": image = image.convert("RGB")]. *)
Definition to_RGB (o : object) : result object :=
  if negb (mode_eqb (mode_of o) M_RGB)
  then convert_RGB o
  else Ok o.

Definition load_image_from_bytes (self : ImageProcessor.t)
           (image_bytes : list byte) : result object :=
  f <- Image_open image_bytes ;;
  to_RGB (Opened f).

Definition load_image_from_path (self : ImageProcessor.t)
           (image_path : string) : result object :=
  f <- Image_open_path image_path ;;
  to_RGB (Opened f).

(** [preprocess_image]: [Resize], the first transform, loads the
    pixels. *)
Definition preprocess_image (self : ImageProcessor.t) (o : object)
  : result tensor :=
  im <- pixels o ;;
  ImageProcessor.preprocess_image self im.

Definition process_from_bytes (self : ImageProcessor.t)
           (image_bytes : list byte) : result tensor :=
  o <- load_image_from_bytes self image_bytes ;;
  preprocess_image self o.

(** [process_image] of [ImageClassifier.predict]: the conversion is
    unconditional. *)
Definition process_image (img_bytes : list byte) : result tensor :=
  f <- Image_open img_bytes ;;
  o <- convert_RGB (Opened f) ;;
  im <- pixels o ;;
  input_tensor <- ImageProcessor.transform ImageProcessor.image_processor im ;;
  Ok (unsqueeze0 input_tensor).

(** [Image.open] followed at once by [load]: the complete decode. *)
Definition decode (image_bytes : list byte) : result image :=
  f <- Image_open image_bytes ;;
  load f.

End Methods.

End ImageFile.

(* ================================================================== *)
(** * The transform pipeline and torch's random generator *)

Module Compose.
Import PIL Torch.

(** The transforms of [torchvision.transforms] the pipelines are built
    from, and [RandomHorizontalFlip], one of those that draw from torch's
    global random generator. *)
Inductive Transform : Type :=
| T_Resize (size : Z)
| T_CenterCrop (size : Z)
| T_ToTensor
| T_Normalize (mean std : list spec_float)
| T_RandomHorizontalFlip (p : spec_float).
(** ([p] is a Python float, compared with the float32 number drawn.) *)

(** What flows through a pipeline. *)
Inductive value : Type :=
| PILImage (img : image)
| TensorValue (x : tensor).

(** What the pipeline takes from torch: the state of the default random
    generator with [torch.rand(1)] (the number drawn and the state
    after), and the tensor variants of [Resize] and [CenterCrop]. *)
Class Env : Type := {
  generator : Type;
  rand : generator -> spec_float * generator;
  on_tensor : Transform -> tensor -> result tensor
}.

(** [self.transform]. *)
Record processor : Type := Processor {
  transform : list Transform
}.

(** [ImageProcessor()]. *)
Definition image_processor : processor :=
  {| transform :=
       [T_Resize 256;
        T_CenterCrop 224;
        T_ToTensor;
        T_Normalize
          [F64.of_ratio 485 1000; F64.of_ratio 456 1000; F64.of_ratio 406 1000]
          [F64.of_ratio 229 1000; F64.of_ratio 224 1000; F64.of_ratio 225 1000]] |}.

(** [F.hflip] on a PIL image. *)
Definition hflip (img : image) : image :=
  {| im_mode := im_mode img;
     width := width img;
     height := height img;
     palette := palette img;
     getpixel := fun x y => getpixel img (width img - 1 - x) y |}.

Section Methods.
Context {lib : PIL.Lib} {env : Env}.

(** One transform applied to a value, with the generator state before
    and after. *)
Definition apply (t : Transform) (g : generator) (v : value)
  : generator * result value :=
  match t with
  | T_Resize size =>
      match v with
      | PILImage img => (g, r <- Resize size img ;; Ok (PILImage r))
      | TensorValue x => (g, r <- on_tensor t x ;; Ok (TensorValue r))
      end
  | T_CenterCrop size =>
      match v with
      | PILImage img => (g, Ok (PILImage (CenterCrop size img)))
      | TensorValue x => (g, r <- on_tensor t x ;; Ok (TensorValue r))
      end
  | T_ToTensor =>
      match v with
      | PILImage img => (g, Ok (TensorValue (to_tensor img)))
      | TensorValue _ =>
          (g, Raise (TypeError "pic should be PIL Image or ndarray. Got <class 'torch.Tensor'>"))
      end
  | T_Normalize mean std =>
      match v with
      | TensorValue x => (g, r <- normalize x mean std ;; Ok (TensorValue r))
      | PILImage _ =>
          (g, Raise (TypeError "img should be Tensor Image. Got <class 'PIL.Image.Image'>"))
      end
  | T_RandomHorizontalFlip p =>
      let '(r, g') := rand g in
      if F32.ltb r (F32.of_double p)
      then match v with
           | PILImage img => (g', Ok (PILImage (hflip img)))
           | TensorValue x => (g', r <- on_tensor t x ;; Ok (TensorValue r))
           end
      else (g', Ok v)
  end.

(** [Compose.__call__]: the transforms in order. *)
Fixpoint call (ts : list Transform) (g : generator) (v : value)
  : generator * result value :=
  match ts with
  | [] => (g, Ok v)
  | t :: rest =>
      let '(g1, r) := apply t g v in
      match r with
      | Raise e => (g1, Raise e)
      | Ok v1 => call rest g1 v1
      end
  end.

Definition preprocess_image (self : processor) (g : generator) (img : image)
  : generator * result tensor :=
  let '(g1, r) := call (transform self) g (PILImage img) in
  (g1,
   image_tensor <- r ;;
   match image_tensor with
   | TensorValue x => Ok (unsqueeze0 x)
   | PILImage _ =>
       Raise (AttributeError "'Image' object has no attribute 'unsqueeze'")
   end).

Definition load_image_from_bytes (self : processor) (image_bytes : list byte)
  : result image :=
  img <- Image_open image_bytes ;;
  Ok (ImageProcessor.to_RGB img).

Definition process_from_bytes (self : processor) (g : generator)
           (image_bytes : list byte) : generator * result tensor :=
  match load_image_from_bytes self image_bytes with
  | Raise e => (g, Raise e)
  | Ok img => preprocess_image self g img
  end.

(** What happens in the process between two calls of interest: a method
    of the processor is called, or other code draws a random number. *)
Inductive event : Type :=
| Ev_preprocess_image (img : image)
| Ev_process_from_bytes (image_bytes : list byte)
| Ev_load_image_from_bytes (image_bytes : list byte)
| Ev_rand.

(** No method assigns an attribute of [self]. *)
Definition step (s : processor * generator) (ev : event)
  : processor * generator :=
  let '(self, g) := s in
  match ev with
  | Ev_preprocess_image img => (self, fst (preprocess_image self g img))
  | Ev_process_from_bytes b => (self, fst (process_from_bytes self g b))
  | Ev_load_image_from_bytes _ => (self, g)
  | Ev_rand => (self, snd (rand g))
  end.

Definition run (s : processor * generator) (history : list event)
  : processor * generator :=
  fold_left step history s.

End Methods.

End Compose.

(* ================================================================== *)
(** * Concrete libraries and inputs

    Small executable stand-ins for the PIL binary and for the network,
    on which the statements below are instantiated: a decoder that knows
    three byte strings, nearest-neighbour resampling, a network that
    scores every class alike, and a [topk] by stable insertion sort. *)

Module Demo.
Import PIL Torch Prob ModelLoader.
Local Open Scope R_scope.

(** [Image.new(m, (w, h), color=p)]. *)
Definition solid (m : mode) (w h : Z) (p : pixel m) : image :=
  {| im_mode := m; width := w; height := h; palette := [];
     getpixel := fun _ _ => p |}.

(** A solid red 224x224 RGB image, a half-transparent red 100x50 RGBA
    image and a mid-grey 300x300 grayscale image. *)
Definition red_224 : image := solid M_RGB 224 224 (xff, x00, x00).
Definition rgba_100x50 : image := solid M_RGBA 100 50 (xff, x00, x00, x80).
Definition gray_300 : image := solid M_L 300 300 x80.

Definition red_bytes : list byte := [x01].
Definition rgba_bytes : list byte := [x02].
Definition gray_bytes : list byte := [x03].

Definition lib : PIL.Lib :=
  {| Image_open := fun b =>
       match b with
       | [x01] => Ok red_224
       | [x02] => Ok rgba_100x50
       | [x03] => Ok gray_300
       | _ => Raise UnidentifiedImageError
       end;
     Image_open_path := fun _ => Raise FileNotFoundError;
     colour_to_rgb := fun _ _ => (x00, x00, x00);
     resample := fun _ im w h x y =>
       getpixel im (x * width im / w)%Z (y * height im / h)%Z |}.

(** Insertion of a (value, index) pair in front of the first pair whose
    value is not larger. *)
Fixpoint insert (p : R * nat) (l : list (R * nat)) : list (R * nat) :=
  match l with
  | [] => [p]
  | q :: l' =>
      if Rle_dec (fst q) (fst p) then p :: q :: l' else q :: insert p l'
  end.

(** Pairs in non-increasing order of value. *)
Definition ge_value (a b : R * nat) : Prop := fst b <= fst a.

(** Stable sort by non-increasing value. *)
Definition sort_desc (l : list (R * nat)) : list (R * nat) :=
  fold_right insert [] l.

Definition enumerate (xs : list R) : list (R * nat) :=
  combine xs (seq 0 (List.length xs)).

(** A [topk]: the pairs are first arranged by [pre], then sorted stably;
    [pre] decides the order among equal values. *)
Definition topk_by (pre : list (R * nat) -> list (R * nat))
           (xs : list R) (k : Z) : result (list R * list nat) :=
  if orb (k <? 0)%Z (Z.of_nat (List.length xs) <? k)%Z
  then Raise (RuntimeError "selected index k out of range")
  else
    let chosen := firstn (Z.to_nat k) (sort_desc (pre (enumerate xs))) in
    Ok (map fst chosen, map snd chosen).

Definition zero_scores : list R := repeat 0 1000.
Definition labels : list string := repeat "label" 1000.

Definition net_by (pre : list (R * nat) -> list (R * nat)) : Net :=
  {| forward := fun _ _ => Ok [zero_scores];
     topk := topk_by pre;
     categories := labels;
     imagenet_classes_txt := Ok labels |}.

(** Equal values in ascending order of index ... *)
Definition net : Net := net_by (fun l => l).
(** ... and in descending order of index. *)
Definition net_rev : Net := net_by (@rev (R * nat)).

(** A float32 batch of two images. *)
Definition batch_of_two : tensor :=
  {| t_dtype := float32; shape := [2; 3; 224; 224]%Z;
     item := fun _ => FloatV (S754_zero false) |}.

(** A well-shaped input batch. *)
Definition zero_batch : tensor :=
  {| t_dtype := float32; shape := [1; 3; 224; 224]%Z;
     item := fun _ => FloatV (S754_zero false) |}.

(** Scores that differ from class to class: class [i] has score [i]. *)
Definition ramp_scores : list R := map INR (seq 0 1000).

(** A network that returns them for every input. *)
Definition net_ramp : Net :=
  {| forward := fun _ _ => Ok [ramp_scores];
     topk := topk_by (fun l => l);
     categories := labels;
     imagenet_classes_txt := Ok labels |}.

(** A process in which every instantiation succeeds, and one in which
    the first fails (the download of the weights, say) and the later
    ones succeed. *)
Definition hub : Loading.Hub :=
  {| Loading.mobilenet_v2 := fun _ => Ok tt;
     Loading.hub_load := fun _ => Ok tt |}.

Definition first_attempt_fails (n : nat) : result unit :=
  match n with
  | O => Raise (OSError "<urlopen error [Errno 111] Connection refused>")
  | S _ => Ok tt
  end.

Definition flaky_hub : Loading.Hub :=
  {| Loading.mobilenet_v2 := first_attempt_fails;
     Loading.hub_load := first_attempt_fails |}.

(** Image files: the three images above, and a grayscale and an RGB
    file whose header is readable and whose data is cut short. *)
Definition whole (im : image) : ImageFile.file :=
  {| ImageFile.file_mode := im_mode im;
     ImageFile.file_width := width im;
     ImageFile.file_height := height im;
     ImageFile.load := Ok im |}.

Definition truncated (m : mode) (w h : Z) : ImageFile.file :=
  {| ImageFile.file_mode := m;
     ImageFile.file_width := w;
     ImageFile.file_height := h;
     ImageFile.load :=
       Raise (OSError "image file is truncated (0 bytes not processed)") |}.

Definition truncated_gray_bytes : list byte := [x04].
Definition truncated_rgb_bytes : list byte := [x05].

Definition decoder : ImageFile.Decoder :=
  {| ImageFile.Image_open := fun b =>
       match b with
       | [x01] => Ok (whole red_224)
       | [x02] => Ok (whole rgba_100x50)
       | [x03] => Ok (whole gray_300)
       | [x04] => Ok (truncated M_L 300 300)
       | [x05] => Ok (truncated M_RGB 300 300)
       | _ => Raise UnidentifiedImageError
       end;
     ImageFile.Image_open_path := fun _ => Raise FileNotFoundError |}.

(** A generator whose state is the number of draws made and whose draws
    alternate between 0.25 and 0.75. *)
Definition env : Compose.Env :=
  {| Compose.generator := nat;
     Compose.rand := fun n =>
       (if Nat.even n then F32.div (F32.of_Z 1) (F32.of_Z 4)
        else F32.div (F32.of_Z 3) (F32.of_Z 4), S n);
     Compose.on_tensor := fun _ x => Ok x |}.

(** A 2x1 RGB image, white on the left and black on the right. *)
Definition two_tone : image :=
  {| im_mode := M_RGB; width := 2; height := 1; palette := [];
     getpixel := fun x _ =>
       if (x =? 0)%Z then (xff, xff, xff) else (x00, x00, x00) |}.

End Demo.

(* ================================================================== *)
(** * The definitions on concrete inputs *)

Example splitext_plain : Str.splitext "cat.JPG" = ("cat", ".JPG").
Proof. reflexivity. Qed.

Example splitext_dotfile : Str.splitext ".jpg" = (".jpg", "").
Proof. reflexivity. Qed.

Example splitext_directory : Str.splitext "a/b.c/d.e.PNG" = ("a/b.c/d.e", ".PNG").
Proof. reflexivity. Qed.

Example splitext_dotted_directory : Str.splitext "dir.jpg/readme" = ("dir.jpg/readme", "").
Proof. reflexivity. Qed.

Example classify_accepts_upper : Upload.classify_accepts "photo.JPG" = true.
Proof. reflexivity. Qed.

Example classify_rejects_txt : Upload.classify_accepts "notes.txt" = false.
Proof. reflexivity. Qed.

Example validate_accepts_webp : Upload.validate_file_type "x.WebP" = true.
Proof. reflexivity. Qed.

Example validate_rejects_txt : Upload.validate_file_type "notes.txt" = false.
Proof. reflexivity. Qed.

Example classify_detail_txt :
  Upload.classify_detail Upload.allowed_extensions ".txt"
  = "不支持的文件格式: .txt。支持的格式: .jpg, .jpeg, .png, .bmp, .gif, .webp".
Proof. reflexivity. Qed.

Example resized_landscape :
  Torch.compute_resized_output_size 100 300 256 = Ok (256, 768).
Proof. reflexivity. Qed.

Example resized_portrait :
  Torch.compute_resized_output_size 300 100 256 = Ok (768, 256).
Proof. reflexivity. Qed.

Example resized_empty :
  Torch.compute_resized_output_size 0 100 256 = Raise ZeroDivisionError.
Proof. reflexivity. Qed.

Example round_half_values :
  map Torch.round_half [0; 1; 2; 3; 5; 33; 35] = [0; 0; 1; 2; 2; 16; 18].
Proof. reflexivity. Qed.

(** The float32 constants of [Normalize]: 0.485 is 16273900 * 2^-25. *)
Example mean_float32 :
  map F32.of_double (ImageProcessor.mean ImageProcessor.image_processor)
  = [S754_finite false 16273900 (-25); S754_finite false 15300821 (-25);
     S754_finite false 13623099 (-25)].
Proof. vm_compute. reflexivity. Qed.

(** A red sample 255 becomes (1 - 0.485) / 0.229 = 2.2489083, a red
    sample 0 becomes -2.117904. *)
Example norm_value_red_max :
  ImageProcessor.norm_value ImageProcessor.image_processor 0 xff
  = S754_finite false 9432605 (-22).
Proof. vm_compute. reflexivity. Qed.

Example norm_value_red_min :
  ImageProcessor.norm_value ImageProcessor.image_processor 0 x00
  = S754_finite true 8883133 (-22).
Proof. vm_compute. reflexivity. Qed.

(** The solid red image: shape and the red and green values of a pixel. *)
Example preprocess_red :
  match ImageProcessor.preprocess_image (lib := Demo.lib)
          ImageProcessor.image_processor Demo.red_224 with
  | Ok x => Some (Torch.shape x, Torch.item x [0; 0; 10; 10],
                  Torch.item x [0; 1; 10; 10])
  | Raise _ => None
  end
  = Some ([1; 3; 224; 224],
          Torch.FloatV (S754_finite false 9432605 (-22)),
          Torch.FloatV (S754_finite true 8538404 (-22))).
Proof. vm_compute. reflexivity. Qed.

(** The half-transparent RGBA image, 100x50, goes through the whole
    pipeline. *)
Example process_rgba :
  match ImageProcessor.process_from_bytes (lib := Demo.lib)
          ImageProcessor.image_processor Demo.rgba_bytes with
  | Ok x => Some (Torch.shape x, Torch.item x [0; 0; 10; 10])
  | Raise _ => None
  end
  = Some ([1; 3; 224; 224], Torch.FloatV (S754_finite false 9432605 (-22))).
Proof. vm_compute. reflexivity. Qed.

Example corrupt_bytes_500 :
  Http.status (snd (App.classify_image (lib := Demo.lib) (net := Demo.net)
                      Upload.allowed_extensions ModelLoader.model_loader
                      "broken.jpg" [x00; x00])) = 500.
Proof. reflexivity. Qed.

(* ================================================================== *)
(** * Facts about strings and filenames *)

Section StrFacts.

Lemma lower_app (a b : string) :
  Str.lower (a ++ b) = Str.lower a ++ Str.lower b.
Proof.
  induction a as [|c a IH]; simpl; [reflexivity | now rewrite IH].
Qed.

Lemma length_app (a b : string) :
  String.length (a ++ b) = (String.length a + String.length b)%nat.
Proof.
  induction a as [|c a IH]; simpl; [reflexivity | now rewrite IH].
Qed.

Lemma substring_all (s : string) :
  substring 0 (String.length s) s = s.
Proof.
  induction s as [|c s IH]; simpl; [reflexivity | now rewrite IH].
Qed.

Lemma substring_skip (a b : string) (n : nat) :
  substring (String.length a) n (a ++ b) = substring 0 n b.
Proof.
  induction a as [|c a IH]; simpl; [reflexivity | exact IH].
Qed.

Lemma endswith_app (a b : string) : Str.endswith (a ++ b) b = true.
Proof.
  unfold Str.endswith. rewrite length_app.
  replace (String.length a + String.length b - String.length b)%nat
    with (String.length a) by lia.
  rewrite substring_skip, substring_all, String.eqb_refl.
  rewrite andb_true_r. apply Nat.leb_le. lia.
Qed.

(** Cutting a string at any index and gluing the parts gives it back. *)
Lemma slice_glue (p : string) (i : Z) :
  Str.slice_to p i ++ Str.slice_from p i = p.
Proof.
  unfold Str.slice_to, Str.slice_from.
  generalize (Z.to_nat i) as k. clear i.
  induction p as [|c p IH]; intros [|k]; simpl; try reflexivity.
  - now rewrite substring_all.
  - now rewrite IH.
Qed.

Lemma splitext_loop_glue (n : nat) (p : string) (i d : Z) :
  fst (Str.splitext_loop p i d n) ++ snd (Str.splitext_loop p i d n) = p.
Proof.
  revert i. induction n as [|n IH]; intros i; simpl.
  - induction p as [|c p IHp]; simpl; [reflexivity | now rewrite IHp].
  - destruct (negb _); simpl; [apply slice_glue | apply IH].
Qed.

(** [os.path.splitext] splits: root and extension concatenate to the
    path. *)
Lemma splitext_glue (p : string) :
  fst (Str.splitext p) ++ snd (Str.splitext p) = p.
Proof.
  unfold Str.splitext. destruct (Z.ltb _ _); [apply splitext_loop_glue|].
  simpl. induction p as [|c p IHp]; simpl; [reflexivity | now rewrite IHp].
Qed.

Lemma mem_In (x : string) (l : list string) :
  Str.mem x l = true <-> In x l.
Proof.
  unfold Str.mem. rewrite existsb_exists. split.
  - intros (y & Hy & E). apply String.eqb_eq in E. now subst.
  - intros H. exists x. split; [exact H | apply String.eqb_refl].
Qed.

Lemma prefix_nil (s : string) : String.prefix "" s = true.
Proof. destruct s; reflexivity. Qed.

Lemma prefix_app (sub a b : string) :
  String.prefix sub a = true -> String.prefix sub (a ++ b) = true.
Proof.
  revert a. induction sub as [|c sub IH]; intros a H; [apply prefix_nil|].
  destruct a as [|c' a]; simpl in *; [discriminate|].
  destruct (ascii_dec c c'); [now apply IH | discriminate].
Qed.

Lemma prefix_self_app (sub b : string) : String.prefix sub (sub ++ b) = true.
Proof.
  induction sub as [|c sub IH]; simpl; [apply prefix_nil|].
  destruct (ascii_dec c c); [exact IH | congruence].
Qed.

Lemma contains_app_l (a b sub : string) :
  Str.contains a sub = true -> Str.contains (a ++ b) sub = true.
Proof.
  induction a as [|c a IH]; simpl; intros H.
  - rewrite orb_false_r in H. destruct sub; [|discriminate].
    destruct b; reflexivity.
  - apply orb_true_iff in H. apply orb_true_iff. destruct H as [H|H].
    + left. now apply (prefix_app sub (String c a) b).
    + right. now apply IH.
Qed.

Lemma contains_app_r (a b sub : string) :
  Str.contains b sub = true -> Str.contains (a ++ b) sub = true.
Proof.
  induction a as [|c a IH]; simpl; intros H; [exact H|].
  apply orb_true_iff. right. now apply IH.
Qed.

Lemma contains_self (s : string) : Str.contains s s = true.
Proof.
  destruct s; simpl; [reflexivity|].
  apply orb_true_iff. left.
  destruct (ascii_dec a a); [|congruence].
  rewrite <- (prefix_self_app s "") at 1.
  f_equal. induction s as [|c s IH]; simpl; [reflexivity | now rewrite <- IH].
Qed.

(** Every joined item occurs in the joined string. *)
Lemma contains_join (sep e : string) (l : list string) :
  In e l -> Str.contains (Str.join sep l) e = true.
Proof.
  induction l as [|x l IH]; intros H; [destruct H|].
  destruct H as [->|H].
  - destruct l; simpl Str.join; [apply contains_self|].
    apply contains_app_l, contains_self.
  - destruct l as [|y l]; [destruct H|].
    change (Str.join sep (x :: y :: l))
      with (x ++ sep ++ Str.join sep (y :: l)).
    apply contains_app_r, contains_app_r, IH, H.
Qed.

(** A filename the splitext test accepts ends with the accepted
    extension, so the suffix test accepts it as well. *)
Lemma classify_accepts_validate (filename : string) :
  Upload.classify_accepts filename = true ->
  Upload.validate_file_type filename = true.
Proof.
  unfold Upload.classify_accepts, Upload.validate_file_type, Upload.file_ext.
  intros H. apply mem_In in H. apply existsb_exists.
  exists (Str.lower (snd (Str.splitext filename))). split; [exact H|].
  rewrite <- (splitext_glue filename) at 1.
  rewrite lower_app. apply endswith_app.
Qed.

End StrFacts.

(* ================================================================== *)
(** * The two upload checks *)

Section UploadChecks.
Import Http.
Context {lib : PIL.Lib} {net : ModelLoader.Net}.

Lemma classify_rejects order loader filename contents :
  Upload.classify_accepts filename = false ->
  App.classify_image order loader filename contents =
    (loader, HTTPException 400
               (Upload.classify_detail order (Upload.file_ext filename))).
Proof.
  unfold App.classify_image, Upload.classify_accepts. now intros ->.
Qed.

Lemma classify_status_400 order loader filename contents :
  status (snd (App.classify_image order loader filename contents)) = 400
  <-> Upload.classify_accepts filename = false.
Proof.
  split; [|intros H; now rewrite classify_rejects].
  unfold App.classify_image, Upload.classify_accepts.
  destruct (Str.mem _ _); [|reflexivity]. cbv [negb].
  destruct (ImageProcessor.process_from_bytes _ _) as [x|e]; [|discriminate].
  destruct (ModelLoader.predict loader x) as [l1 [[c p]|e]]; [|discriminate].
  destruct (ModelLoader.predict_top_k l1 x 5) as [l2 [r|e]]; discriminate.
Qed.

Lemma predict_rejects g filename contents :
  Upload.validate_file_type filename = false ->
  Api.predict_image g filename contents =
    (g, HTTPException 400 Upload.predict_detail).
Proof. unfold Api.predict_image. now intros ->. Qed.

Lemma predict_status_400 g filename contents :
  status (snd (Api.predict_image g filename contents)) = 400
  <-> Upload.validate_file_type filename = false.
Proof.
  split; [|intros H; now rewrite predict_rejects].
  unfold Api.predict_image.
  destruct (Upload.validate_file_type _); [|reflexivity]. cbv [negb].
  destruct (Classifier.get_classifier g) as [g1 h].
  destruct (Classifier.predict g1 contents) as [g2 [c|e]]; discriminate.
Qed.

End UploadChecks.

(** C10.  The two endpoints do not apply the same test to a filename:
    for a name that is nothing but an allowed extension (such as ".jpg"),
    the suffix test of [POST /predict] accepts it, so the request is not
    answered with 400, while [os.path.splitext] gives it the empty
    extension and [POST /classify] answers 400. *)
Theorem extension_checks_differ :
  forall (lib : PIL.Lib) (net : ModelLoader.Net) (order : list string)
         (loader : ModelLoader.state) (g : Classifier.state)
         (contents : list byte) (name : string),
    In name Upload.allowed_extensions ->
    Upload.validate_file_type name = true /\
    Upload.classify_accepts name = false /\
    Http.status (snd (Api.predict_image g name contents)) <> 400 /\
    Http.status (snd (App.classify_image order loader name contents)) = 400.
Proof.
  intros lib net order loader g contents name H.
  assert (Hv : Upload.validate_file_type name = true /\
               Upload.classify_accepts name = false).
  { simpl in H.
    repeat (destruct H as [<-|H]; [split; reflexivity|]). destruct H. }
  destruct Hv as [Hv Hc]. repeat split; try assumption.
  - rewrite predict_status_400. congruence.
  - now apply classify_status_400.
Qed.

Lemma extension_checks_differ_witness :
  Upload.validate_file_type ".jpg" = true /\
  Upload.classify_accepts ".jpg" = false /\
  Http.status (snd (Api.predict_image (lib := Demo.lib) (net := Demo.net)
                      Classifier.init ".jpg" Demo.red_bytes)) <> 400 /\
  Http.status (snd (App.classify_image (lib := Demo.lib) (net := Demo.net)
                      Upload.allowed_extensions ModelLoader.model_loader
                      ".jpg" Demo.red_bytes)) = 400.
Proof.
  apply (extension_checks_differ Demo.lib Demo.net).
  simpl. left. reflexivity.
Defined.

(** The claim of C7 read on [POST /predict] fails at the filename ".jpg":
    its extension is empty, hence not one of the six, and yet the request
    is not answered with 400; and the message of the 400 for "notes.txt"
    does not contain ".jpg". *)
Lemma predict_accepts_bare_extension :
  Str.mem (Str.lower (snd (Str.splitext ".jpg"))) Upload.allowed_extensions
    = false /\
  Http.status (snd (Api.predict_image (lib := Demo.lib) (net := Demo.net)
                      Classifier.init ".jpg" Demo.red_bytes)) <> 400 /\
  snd (Api.predict_image (lib := Demo.lib) (net := Demo.net)
         Classifier.init "notes.txt" Demo.red_bytes)
    = Http.HTTPException 400 Upload.predict_detail /\
  Str.contains Upload.predict_detail ".jpg" = false.
Proof.
  split; [reflexivity|]. split.
  - rewrite predict_status_400. discriminate.
  - split; reflexivity.
Qed.

(** C7 (amended).  [POST /classify] answers 400 exactly when the
    lower-cased extension [os.path.splitext] gives is none of the six, and
    its message then lists each of the six with its dot; [POST /predict]
    answers 400 exactly when the lower-cased filename ends with none of
    the six, with a message listing them without dot; every filename
    [POST /classify] accepts is accepted by [POST /predict]. *)
Theorem upload_validation :
  forall (lib : PIL.Lib) (net : ModelLoader.Net) (order : list string)
         (loader : ModelLoader.state) (g : Classifier.state)
         (name : string) (contents : list byte),
    Permutation order Upload.allowed_extensions ->
    (Http.status (snd (App.classify_image order loader name contents)) = 400
     <-> Str.mem (Str.lower (snd (Str.splitext name)))
                 Upload.allowed_extensions = false) /\
    (Upload.classify_accepts name = false ->
     exists detail,
       snd (App.classify_image order loader name contents)
         = Http.HTTPException 400 detail /\
       forall ext, In ext Upload.allowed_extensions ->
                   Str.contains detail ext = true) /\
    (Http.status (snd (Api.predict_image g name contents)) = 400
     <-> forall ext, In ext Upload.allowed_extensions ->
                     Str.endswith (Str.lower name) ext = false) /\
    (Upload.validate_file_type name = false ->
     snd (Api.predict_image g name contents)
       = Http.HTTPException 400 Upload.predict_detail /\
     Str.contains Upload.predict_detail "jpg, jpeg, png, bmp, gif, webp" = true) /\
    (Upload.classify_accepts name = true ->
     Upload.validate_file_type name = true).
Proof.
  intros lib net order loader g name contents Hperm.
  split; [apply classify_status_400|].
  split.
  { intros Hrej. rewrite (classify_rejects order loader name contents Hrej).
    eexists. split; [reflexivity|].
    intros ext Hext. unfold Upload.classify_detail.
    do 3 apply contains_app_r. apply contains_join.
    apply Permutation_sym in Hperm.
    exact (Permutation_in ext Hperm Hext). }
  split.
  { rewrite predict_status_400. unfold Upload.validate_file_type. split.
    - intros H ext Hext.
      destruct (Str.endswith (Str.lower name) ext) eqn:E; [|reflexivity].
      assert (existsb (fun e => Str.endswith (Str.lower name) e)
                      Upload.allowed_extensions = true)
        by (apply existsb_exists; now exists ext).
      congruence.
    - intros H.
      destruct (existsb _ _) eqn:E; [|reflexivity].
      apply existsb_exists in E. destruct E as (ext & Hext & E).
      rewrite (H ext Hext) in E. discriminate. }
  split.
  { intros Hrej. rewrite (predict_rejects g name contents Hrej).
    split; reflexivity. }
  apply classify_accepts_validate.
Qed.

Lemma upload_validation_witness :
  (Http.status (snd (App.classify_image (lib := Demo.lib) (net := Demo.net)
                       Upload.allowed_extensions ModelLoader.model_loader
                       "notes.txt" Demo.red_bytes)) = 400
   <-> Str.mem (Str.lower (snd (Str.splitext "notes.txt")))
               Upload.allowed_extensions = false) /\
  (Upload.classify_accepts "notes.txt" = false ->
   exists detail,
     snd (App.classify_image (lib := Demo.lib) (net := Demo.net)
            Upload.allowed_extensions ModelLoader.model_loader
            "notes.txt" Demo.red_bytes)
       = Http.HTTPException 400 detail /\
     forall ext, In ext Upload.allowed_extensions ->
                 Str.contains detail ext = true) /\
  (Http.status (snd (Api.predict_image (lib := Demo.lib) (net := Demo.net)
                       Classifier.init "notes.txt" Demo.red_bytes)) = 400
   <-> forall ext, In ext Upload.allowed_extensions ->
                   Str.endswith (Str.lower "notes.txt") ext = false) /\
  (Upload.validate_file_type "notes.txt" = false ->
   snd (Api.predict_image (lib := Demo.lib) (net := Demo.net)
          Classifier.init "notes.txt" Demo.red_bytes)
     = Http.HTTPException 400 Upload.predict_detail /\
   Str.contains Upload.predict_detail "jpg, jpeg, png, bmp, gif, webp" = true) /\
  (Upload.classify_accepts "notes.txt" = true ->
   Upload.validate_file_type "notes.txt" = true).
Proof.
  apply (upload_validation Demo.lib Demo.net Upload.allowed_extensions).
  apply Permutation_refl.
Defined.

(* ================================================================== *)
(** * The processor keeps no state and draws no random number *)

Section ProcessorPurity.
Import ImageProcessor.
Context {lib : PIL.Lib}.

Lemma step_keeps_self (self : ImageProcessor.t) (c : call) :
  fst (step self c) = self.
Proof. destruct c; reflexivity. Qed.

Lemma run_keeps_self (history : list call) (self : ImageProcessor.t) :
  run self history = self.
Proof.
  induction history as [|c history IH]; simpl; [reflexivity|].
  now rewrite step_keeps_self.
Qed.

End ProcessorPurity.

Section PipelineGenerator.
Import PIL Torch Compose.
Context {lib : PIL.Lib} {env : Env}.

(** The four transforms of the processor, run in order from any
    generator state, leave the state as it was and compute
    [ImageProcessor.transform]. *)
Lemma call_image_processor (g : generator) (img : image) :
  call (transform image_processor) g (PILImage img)
  = (g, x <- ImageProcessor.transform ImageProcessor.image_processor img ;;
        Ok (TensorValue x)).
Proof.
  unfold ImageProcessor.transform.
  cbn [transform image_processor call apply ImageProcessor.resize_size
       ImageProcessor.crop_size ImageProcessor.mean ImageProcessor.std
       ImageProcessor.image_processor].
  destruct (Resize 256 img) as [r|e]; cbn [bind]; [|reflexivity].
  destruct (normalize _ _ _) as [x|e]; reflexivity.
Qed.

Lemma preprocess_image_draws_nothing (g : generator) (img : image) :
  preprocess_image image_processor g img
  = (g, ImageProcessor.preprocess_image ImageProcessor.image_processor img).
Proof.
  unfold preprocess_image, ImageProcessor.preprocess_image.
  rewrite call_image_processor.
  destruct (ImageProcessor.transform _ img); reflexivity.
Qed.

Lemma process_from_bytes_draws_nothing (g : generator) (b : list byte) :
  process_from_bytes image_processor g b
  = (g, ImageProcessor.process_from_bytes ImageProcessor.image_processor b).
Proof.
  unfold process_from_bytes, ImageProcessor.process_from_bytes,
    load_image_from_bytes, ImageProcessor.load_image_from_bytes.
  destruct (Image_open b) as [img|e]; cbn [bind]; [|reflexivity].
  apply preprocess_image_draws_nothing.
Qed.

Lemma step_keeps_processor (s : processor * generator) (ev : event) :
  fst (step s ev) = fst s.
Proof. destruct s as [self g]; destruct ev; reflexivity. Qed.

Lemma run_keeps_processor (history : list event) (s : processor * generator) :
  fst (run s history) = fst s.
Proof.
  revert s. induction history as [|ev history IH]; intros s; [reflexivity|].
  cbn [run fold_left]. fold (run (step s ev) history).
  now rewrite IH, step_keeps_processor.
Qed.

End PipelineGenerator.

(** A pipeline is not deterministic by the mere form of the model: with
    [RandomHorizontalFlip] in front of [ToTensor], the tensor computed
    for one and the same image depends on the state of the generator. *)
Example random_flip_depends_on_generator :
  let flip :=
    {| Compose.transform :=
         [Compose.T_RandomHorizontalFlip (F64.of_ratio 1 2);
          Compose.T_ToTensor] |} in
  snd (Compose.preprocess_image (lib := Demo.lib) (env := Demo.env)
         flip 0%nat Demo.two_tone)
  <> snd (Compose.preprocess_image (lib := Demo.lib) (env := Demo.env)
            flip 1%nat Demo.two_tone).
Proof.
  intros flip H.
  apply (f_equal (fun r => match r with
                           | Ok x => Torch.item x [0; 0; 0; 0]
                           | Raise _ => Torch.IntV 0
                           end)) in H.
  vm_compute in H. discriminate H.
Qed.

(** C9.  [process_from_bytes] is deterministic.  Whatever the state of
    torch's random generator and whatever was done before (calls of the
    processor's methods, random draws by other code), the same bytes give
    the same tensor or the same exception: the call draws no random
    number, leaves the processor as [__init__] made it, and returns what
    the composition of [Resize], [CenterCrop], [ToTensor] and
    [Normalize] computes from the decoded image alone. *)
Theorem process_from_bytes_deterministic :
  forall (lib : PIL.Lib) (env : Compose.Env)
         (g1 g2 : Compose.generator)
         (history1 history2 : list Compose.event)
         (image_bytes : list byte),
    let s1 := Compose.run (Compose.image_processor, g1) history1 in
    let s2 := Compose.run (Compose.image_processor, g2) history2 in
    snd (Compose.process_from_bytes (fst s1) (snd s1) image_bytes)
    = snd (Compose.process_from_bytes (fst s2) (snd s2) image_bytes) /\
    fst (Compose.process_from_bytes (fst s1) (snd s1) image_bytes) = snd s1 /\
    fst s1 = Compose.image_processor /\
    snd (Compose.process_from_bytes (fst s1) (snd s1) image_bytes)
    = ImageProcessor.process_from_bytes ImageProcessor.image_processor
        image_bytes.
Proof.
  intros lib env g1 g2 history1 history2 image_bytes s1 s2.
  assert (E1 : fst s1 = Compose.image_processor)
    by (subst s1; now rewrite run_keeps_processor).
  assert (E2 : fst s2 = Compose.image_processor)
    by (subst s2; now rewrite run_keeps_processor).
  rewrite E1, E2, !process_from_bytes_draws_nothing.
  repeat split.
Qed.


(* ================================================================== *)
(** * Loading happens once *)

Section LoadOnce.
Import ModelLoader.
Context {lib : PIL.Lib} {net : Net}.

Lemma load_model_loaded s : loaded s -> load_model s = s.
Proof. intros [Hm _]. unfold load_model. now rewrite Hm. Qed.

Lemma probabilities_model s x :
  model (fst (probabilities s x)) = model (load_model s) /\
  instantiated (fst (probabilities s x)) = instantiated (load_model s) /\
  invoked (fst (probabilities s x)) = x :: invoked s.
Proof.
  unfold probabilities, load_model. destruct (model s) eqn:E; simpl;
    rewrite ?E; repeat split.
Qed.

Lemma predict_state s x : fst (predict s x) = fst (probabilities s x).
Proof. unfold predict. now destruct (probabilities s x). Qed.

Lemma predict_top_k_state s x k :
  fst (predict_top_k s x k) = fst (probabilities s x).
Proof.
  unfold predict_top_k, top_k_raw. now destruct (probabilities s x).
Qed.

Lemma step_model s c :
  model (step s c) = model (load_model s) /\
  instantiated (step s c) = instantiated (load_model s).
Proof.
  destruct c as [|x|x k]; cbv [step].
  - split; reflexivity.
  - rewrite predict_state. destruct (probabilities_model s x) as (A & B & _).
    now split.
  - rewrite predict_top_k_state.
    destruct (probabilities_model s x) as (A & B & _). now split.
Qed.

Lemma step_loaded s c : loaded s -> loaded (step s c).
Proof.
  intros H. destruct (step_model s c) as [A B].
  rewrite (load_model_loaded s H) in A, B. destruct H. split; congruence.
Qed.

Lemma step_init_loaded c : loaded (step model_loader c).
Proof.
  destruct (step_model model_loader c) as [A B]. split; [rewrite A | rewrite B];
    reflexivity.
Qed.

Lemma run_loaded history s : loaded s -> loaded (run s history).
Proof.
  revert s. induction history as [|c history IH]; intros s H; [exact H|].
  simpl. apply IH, step_loaded, H.
Qed.

Lemma get_classifier_constructed g :
  Classifier.constructed g -> Classifier.get_classifier g = (g, 0%nat).
Proof.
  intros [Hi _]. unfold Classifier.get_classifier. now rewrite Hi.
Qed.

Lemma classifier_predict_instance g b :
  Classifier._classifier_instance (fst (Classifier.predict g b))
    = Classifier._classifier_instance g /\
  Classifier.hub_loaded (fst (Classifier.predict g b))
    = Classifier.hub_loaded g.
Proof.
  unfold Classifier.predict.
  destruct (Classifier.process_image b); split; reflexivity.
Qed.

Lemma predict_image_constructed g name contents :
  Classifier.constructed g -> Classifier.constructed (fst (Api.predict_image g name contents)).
Proof.
  intros H. unfold Api.predict_image.
  destruct (negb _); [exact H|].
  rewrite (get_classifier_constructed g H).
  destruct (classifier_predict_instance g contents) as [A B].
  destruct (Classifier.predict g contents) as [g2 [c|e]]; simpl in *;
    destruct H; split; congruence.
Qed.

Lemma api_run_constructed history g :
  Classifier.constructed g -> Classifier.constructed (Api.run g history).
Proof.
  revert g. induction history as [|r history IH]; intros g H; [exact H|].
  simpl. apply IH. destruct r as [|name contents]; simpl.
  - now rewrite (get_classifier_constructed g H).
  - now apply predict_image_constructed.
Qed.

End LoadOnce.

Section LoadingFacts.
Import ModelLoader.
Context {lib : PIL.Lib} {net : Net} {hub : Loading.Hub}.

Lemma loading_load_model_some s h :
  model s = Some h -> Loading.load_model s = (s, Ok tt).
Proof. intros H. unfold Loading.load_model. now rewrite H. Qed.

Lemma loading_predict_some s h x :
  model s = Some h -> Loading.predict s x = ModelLoader.predict s x.
Proof.
  intros H. unfold Loading.predict. now rewrite (loading_load_model_some s h H).
Qed.

Lemma loading_predict_top_k_some s h x k :
  model s = Some h ->
  Loading.predict_top_k s x k = ModelLoader.predict_top_k s x k.
Proof.
  intros H. unfold Loading.predict_top_k.
  now rewrite (loading_load_model_some s h H).
Qed.

Lemma probabilities_some s h x :
  model s = Some h ->
  model (fst (probabilities s x)) = Some h /\
  instantiated (fst (probabilities s x)) = instantiated s.
Proof.
  intros H. destruct (probabilities_model s x) as (A & B & _).
  unfold load_model in A, B. rewrite H in A, B. now split; congruence.
Qed.

(** On a loaded model no call instantiates. *)
Lemma loading_step_some s h c :
  model s = Some h ->
  model (Loading.step s c) = Some h /\
  instantiated (Loading.step s c) = instantiated s.
Proof.
  intros H. destruct c as [|x|x k]; cbv [Loading.step].
  - rewrite (loading_load_model_some s h H). now split.
  - rewrite (loading_predict_some s h x H), predict_state.
    now apply probabilities_some.
  - rewrite (loading_predict_top_k_some s h x k H), predict_top_k_state.
    now apply probabilities_some.
Qed.

Lemma loading_run_some history s h :
  model s = Some h ->
  model (Loading.run s history) = Some h /\
  instantiated (Loading.run s history) = instantiated s.
Proof.
  revert s. induction history as [|c history IH]; intros s H; [now split|].
  cbn [Loading.run fold_left]. fold (Loading.run (Loading.step s c) history).
  destruct (loading_step_some s h c H) as [A B].
  destruct (IH _ A) as [A' B']. split; congruence.
Qed.

(** On an unloaded model every call attempts one instantiation. *)
Lemma loading_step_none s c :
  model s = None ->
  instantiated (Loading.step s c) = S (instantiated s) /\
  (forall u, Loading.mobilenet_v2 (instantiated s) = Ok u ->
             model (Loading.step s c) = Some (instantiated s)) /\
  (forall e, Loading.mobilenet_v2 (instantiated s) = Raise e ->
             model (Loading.step s c) = None /\
             invoked (Loading.step s c) = invoked s).
Proof.
  intros H.
  assert (L : forall u, Loading.mobilenet_v2 (instantiated s) = Ok u ->
              Loading.load_model s
              = ({| model := Some (instantiated s);
                    instantiated := S (instantiated s);
                    invoked := invoked s |}, Ok tt)).
  { intros u E. unfold Loading.load_model. now rewrite H, E. }
  assert (F : forall e, Loading.mobilenet_v2 (instantiated s) = Raise e ->
              Loading.load_model s
              = ({| model := None;
                    instantiated := S (instantiated s);
                    invoked := invoked s |}, Raise e)).
  { intros e E. unfold Loading.load_model. now rewrite H, E. }
  destruct (Loading.mobilenet_v2 (instantiated s)) as [u|e] eqn:E.
  - specialize (L u eq_refl). clear F.
    set (s1 := {| model := Some (instantiated s);
                  instantiated := S (instantiated s);
                  invoked := invoked s |}) in L.
    assert (H1 : model s1 = Some (instantiated s)) by reflexivity.
    assert (G : model (Loading.step s c) = Some (instantiated s) /\
                instantiated (Loading.step s c) = S (instantiated s)).
    { destruct c as [|x|x k]; cbv [Loading.step].
      - rewrite L. now split.
      - unfold Loading.predict. rewrite L, predict_state.
        exact (probabilities_some s1 _ x H1).
      - unfold Loading.predict_top_k. rewrite L, predict_top_k_state.
        exact (probabilities_some s1 _ x H1). }
    destruct G as [G1 G2]. split; [exact G2|]. split.
    + intros _ _. exact G1.
    + intros e' E'. discriminate E'.
  - specialize (F e eq_refl). clear L.
    assert (G : Loading.step s c
                = {| model := None;
                     instantiated := S (instantiated s);
                     invoked := invoked s |}).
    { destruct c as [|x|x k]; cbv [Loading.step].
      - now rewrite F.
      - unfold Loading.predict. now rewrite F.
      - unfold Loading.predict_top_k. now rewrite F. }
    rewrite G. split; [reflexivity|]. split.
    + intros u E'. discriminate E'.
    + intros _ _. split; reflexivity.
Qed.

(** A failed instantiation leaves each of the three methods with its
    exception. *)
Lemma loading_failure_raises s x k e :
  model s = None ->
  Loading.mobilenet_v2 (instantiated s) = Raise e ->
  snd (Loading.load_model s) = Raise e /\
  snd (Loading.predict s x) = Raise e /\
  snd (Loading.predict_top_k s x k) = Raise e.
Proof.
  intros H E.
  unfold Loading.predict, Loading.predict_top_k, Loading.load_model.
  rewrite H, E. repeat split.
Qed.

Lemma loading_get_classifier_some g h :
  Classifier._classifier_instance g = Some h ->
  Loading.get_classifier g = (g, Ok h).
Proof. intros H. unfold Loading.get_classifier. now rewrite H. Qed.

Lemma loading_predict_image_some g h name contents :
  Classifier._classifier_instance g = Some h ->
  Classifier._classifier_instance (fst (Loading.predict_image g name contents))
    = Some h /\
  Classifier.hub_loaded (fst (Loading.predict_image g name contents))
    = Classifier.hub_loaded g.
Proof.
  intros H. unfold Loading.predict_image.
  destruct (negb _); [now split|].
  rewrite (loading_get_classifier_some g h H).
  destruct (classifier_predict_instance g contents) as [A B].
  destruct (Classifier.predict g contents) as [g2 [c|e]]; cbn [fst] in *;
    split; congruence.
Qed.

Lemma loading_api_run_some history g h :
  Classifier._classifier_instance g = Some h ->
  Classifier._classifier_instance (Loading.api_run g history) = Some h /\
  Classifier.hub_loaded (Loading.api_run g history) = Classifier.hub_loaded g.
Proof.
  revert g. induction history as [|r history IH]; intros g H; [now split|].
  cbn [Loading.api_run fold_left].
  fold (Loading.api_run (Loading.api_step g r) history).
  assert (S1 : Classifier._classifier_instance (Loading.api_step g r) = Some h /\
               Classifier.hub_loaded (Loading.api_step g r)
               = Classifier.hub_loaded g).
  { destruct r as [|name contents]; cbv [Loading.api_step].
    - rewrite (loading_get_classifier_some g h H). now split.
    - now apply loading_predict_image_some. }
  destruct S1 as [A B]. destruct (IH _ A) as [A' B']. split; congruence.
Qed.

(** When no instantiation fails, the loader behaves as
    [ModelLoader.load_model] and the methods built on it describe. *)
Lemma loading_load_model_total s :
  (forall n, Loading.mobilenet_v2 n = Ok tt) ->
  Loading.load_model s = (ModelLoader.load_model s, Ok tt).
Proof.
  intros Hok. unfold Loading.load_model, ModelLoader.load_model.
  destruct (model s); [reflexivity|]. now rewrite Hok.
Qed.

Lemma predict_after_load s x :
  ModelLoader.predict (ModelLoader.load_model s) x = ModelLoader.predict s x.
Proof.
  unfold ModelLoader.predict, probabilities, ModelLoader.load_model.
  destruct (model s) eqn:E; cbn [model instantiated invoked];
    rewrite ?E; reflexivity.
Qed.

Lemma predict_top_k_after_load s x k :
  ModelLoader.predict_top_k (ModelLoader.load_model s) x k
  = ModelLoader.predict_top_k s x k.
Proof.
  unfold ModelLoader.predict_top_k, top_k_raw, probabilities,
    ModelLoader.load_model.
  destruct (model s) eqn:E; cbn [model instantiated invoked];
    rewrite ?E; reflexivity.
Qed.

Lemma loading_run_total history s :
  (forall n, Loading.mobilenet_v2 n = Ok tt) ->
  Loading.run s history = ModelLoader.run s history.
Proof.
  intros Hok. revert s.
  induction history as [|c history IH]; intros s; [reflexivity|].
  cbn [Loading.run ModelLoader.run fold_left].
  fold (Loading.run (Loading.step s c) history).
  fold (ModelLoader.run (ModelLoader.step s c) history).
  rewrite IH. f_equal.
  destruct c as [|x|x k]; cbv [Loading.step ModelLoader.step].
  - now rewrite (loading_load_model_total s Hok).
  - unfold Loading.predict. rewrite (loading_load_model_total s Hok).
    now rewrite predict_after_load.
  - unfold Loading.predict_top_k. rewrite (loading_load_model_total s Hok).
    now rewrite predict_top_k_after_load.
Qed.

End LoadingFacts.

(** The claim of C5 fails in a process whose first instantiation fails:
    [load_model] raises and leaves [self.model] at [None], and a second
    call of [load_model] instantiates a second time.  The same holds for
    [get_classifier]. *)
Lemma load_model_retries_after_failure :
  snd (Loading.load_model (hub := Demo.flaky_hub) ModelLoader.model_loader)
    = Raise (OSError "<urlopen error [Errno 111] Connection refused>") /\
  ModelLoader.model
    (fst (Loading.load_model (hub := Demo.flaky_hub) ModelLoader.model_loader))
    = None /\
  ModelLoader.instantiated
    (Loading.run (net := Demo.net) (hub := Demo.flaky_hub)
       ModelLoader.model_loader
       [ModelLoader.Call_load_model; ModelLoader.Call_load_model]) = 2%nat /\
  Classifier.hub_loaded
    (Loading.api_run (lib := Demo.lib) (net := Demo.net) (hub := Demo.flaky_hub)
       Classifier.init [Api.Get_classifier; Api.Get_classifier]) = 2%nat.
Proof. repeat split. Qed.

(** C5 (amended).  Once an instantiation has succeeded, no call of
    [load_model], [predict] or [predict_top_k] instantiates again and
    [self.model] stays the handle made then; so when the first
    instantiation of the process succeeds, any non-empty sequence of
    calls on a fresh loader has instantiated exactly once.  A call on a
    loader without model attempts one instantiation, [predict] and
    [predict_top_k] included; when the attempt raises, the call raises
    that exception, the model is not invoked, and [self.model] is still
    [None], so that the next call attempts again.  The same holds for
    [get_classifier] and the requests to [POST /predict]. *)
Theorem load_once_after_success :
  forall (lib : PIL.Lib) (net : ModelLoader.Net) (hub : Loading.Hub),
    (forall (s : ModelLoader.state) (h : nat)
            (history : list ModelLoader.call),
        ModelLoader.model s = Some h ->
        ModelLoader.model (Loading.run s history) = Some h /\
        ModelLoader.instantiated (Loading.run s history)
          = ModelLoader.instantiated s) /\
    (forall (c : ModelLoader.call) (history : list ModelLoader.call),
        Loading.mobilenet_v2 0 = Ok tt ->
        let s := Loading.run ModelLoader.model_loader (c :: history) in
        ModelLoader.instantiated s = 1%nat /\
        ModelLoader.model s = Some 0%nat) /\
    (forall (s : ModelLoader.state) (c : ModelLoader.call),
        ModelLoader.model s = None ->
        ModelLoader.instantiated (Loading.step s c)
          = S (ModelLoader.instantiated s) /\
        (Loading.mobilenet_v2 (ModelLoader.instantiated s) = Ok tt ->
         ModelLoader.model (Loading.step s c)
           = Some (ModelLoader.instantiated s)) /\
        (forall e,
            Loading.mobilenet_v2 (ModelLoader.instantiated s) = Raise e ->
            ModelLoader.model (Loading.step s c) = None /\
            ModelLoader.invoked (Loading.step s c) = ModelLoader.invoked s)) /\
    (forall (s : ModelLoader.state) (x : Torch.tensor) (k : Z) (e : exn),
        ModelLoader.model s = None ->
        Loading.mobilenet_v2 (ModelLoader.instantiated s) = Raise e ->
        snd (Loading.load_model s) = Raise e /\
        snd (Loading.predict s x) = Raise e /\
        snd (Loading.predict_top_k s x k) = Raise e) /\
    (forall (g : Classifier.state) (h : nat) (history : list Api.request),
        Classifier._classifier_instance g = Some h ->
        Classifier._classifier_instance (Loading.api_run g history) = Some h /\
        Classifier.hub_loaded (Loading.api_run g history)
          = Classifier.hub_loaded g) /\
    (forall (history : list Api.request),
        Loading.hub_load 0 = Ok tt ->
        let g := Loading.api_run Classifier.init
                   (Api.Get_classifier :: history) in
        Classifier.hub_loaded g = 1%nat /\
        Classifier._classifier_instance g = Some 0%nat) /\
    (forall (g : Classifier.state) (name : string) (contents : list byte)
            (e : exn),
        Classifier._classifier_instance g = None ->
        Loading.hub_load (Classifier.hub_loaded g) = Raise e ->
        snd (Loading.get_classifier g) = Raise e /\
        Classifier._classifier_instance (fst (Loading.get_classifier g))
          = None /\
        Classifier.hub_loaded (fst (Loading.get_classifier g))
          = S (Classifier.hub_loaded g) /\
        (Upload.validate_file_type name = true ->
         snd (Loading.predict_image g name contents)
         = Http.HTTPException 500 ("图像分类失败: " ++ Py.str e))).
Proof.
  intros lib net hub.
  split; [|split; [|split; [|split; [|split; [|split]]]]].
  - intros s h history H. now apply loading_run_some.
  - intros c history H0 s. subst s.
    cbn [Loading.run fold_left].
    fold (Loading.run (Loading.step ModelLoader.model_loader c) history).
    destruct (loading_step_none ModelLoader.model_loader c eq_refl)
      as (A & B & _).
    specialize (B tt H0).
    destruct (loading_run_some history _ _ B) as [A' B'].
    split; [now rewrite B', A | exact A'].
  - intros s c H. destruct (loading_step_none s c H) as (A & B & C).
    split; [exact A|]. split; [apply B | exact C].
  - intros s x k e H E. now apply loading_failure_raises.
  - intros g h history H. now apply loading_api_run_some.
  - intros history H0 g. subst g.
    cbn [Loading.api_run fold_left Loading.api_step].
    fold (Loading.api_run (fst (Loading.get_classifier Classifier.init)) history).
    assert (E : Loading.get_classifier Classifier.init
                = ({| Classifier._classifier_instance := Some 0%nat;
                      Classifier.hub_loaded := 1;
                      Classifier.evaluated := [] |}, Ok 0%nat)).
    { unfold Loading.get_classifier. cbn [Classifier._classifier_instance
        Classifier.hub_loaded Classifier.evaluated Classifier.init].
      now rewrite H0. }
    rewrite E. cbn [fst].
    destruct (loading_api_run_some history _ 0%nat
                (eq_refl : Classifier._classifier_instance
                             {| Classifier._classifier_instance := Some 0%nat;
                                Classifier.hub_loaded := 1;
                                Classifier.evaluated := [] |} = Some 0%nat))
      as [A B].
    split; [exact B | exact A].
  - intros g name contents e H E.
    assert (G : Loading.get_classifier g
                = ({| Classifier._classifier_instance := None;
                      Classifier.hub_loaded := S (Classifier.hub_loaded g);
                      Classifier.evaluated := Classifier.evaluated g |},
                   Raise e)).
    { unfold Loading.get_classifier. now rewrite H, E. }
    split; [now rewrite G|]. split; [now rewrite G|].
    split; [now rewrite G|].
    intros Hv. unfold Loading.predict_image. rewrite Hv, G. reflexivity.
Qed.

Lemma load_once_after_success_witness :
  ModelLoader.instantiated
    (Loading.run (net := Demo.net) (hub := Demo.hub) ModelLoader.model_loader
       [ModelLoader.Call_predict Demo.zero_batch; ModelLoader.Call_load_model;
        ModelLoader.Call_predict_top_k Demo.zero_batch 5;
        ModelLoader.Call_load_model]) = 1%nat.
Proof.
  destruct (load_once_after_success Demo.lib Demo.net Demo.hub)
    as (_ & B & _).
  exact (proj1 (B (ModelLoader.Call_predict Demo.zero_batch)
                  [ModelLoader.Call_load_model;
                   ModelLoader.Call_predict_top_k Demo.zero_batch 5;
                   ModelLoader.Call_load_model] eq_refl)).
Defined.


(* ================================================================== *)
(** * Decoding and normalization *)

Section Normalization.
Import PIL Torch ImageProcessor.
Context {lib : PIL.Lib}.

Lemma to_RGB_mode (img : image) : im_mode (to_RGB img) = M_RGB.
Proof.
  unfold to_RGB. destruct img as [m w h pal px]; destruct m; reflexivity.
Qed.

Lemma to_RGB_size (img : image) :
  width (to_RGB img) = width img /\ height (to_RGB img) = height img.
Proof.
  unfold to_RGB. destruct (negb _); split; reflexivity.
Qed.

Lemma Resize_ok (size : Z) (img : image) :
  0 < width img -> 0 < height img ->
  exists r, Resize size img = Ok r /\ im_mode r = im_mode img.
Proof.
  intros Hw Hh. unfold Resize, compute_resized_output_size.
  destruct (width img <=? height img) eqn:E.
  - destruct (width img =? 0) eqn:E0; [apply Z.eqb_eq in E0; lia|].
    cbn [bind].
    destruct (andb _ _); eexists; split; reflexivity.
  - destruct (height img =? 0) eqn:E0; [apply Z.eqb_eq in E0; lia|].
    cbn [bind].
    destruct (andb _ _); eexists; split; reflexivity.
Qed.

(** [CenterCrop(size)] always delivers a [size] x [size] image of the
    mode it was given. *)
Lemma CenterCrop_size (size : Z) (img : image) :
  im_mode (CenterCrop size img) = im_mode img /\
  width (CenterCrop size img) = size /\
  height (CenterCrop size img) = size.
Proof.
  unfold CenterCrop.
  destruct (orb (width img <? size) (height img <? size)) eqn:Epad.
  - destruct (andb true _) eqn:E.
    + apply andb_true_iff in E. destruct E as [_ E].
      apply andb_true_iff in E. destruct E as [E1 E2].
      apply Z.eqb_eq in E1, E2. repeat split; auto.
    + repeat split.
  - repeat split.
Qed.

Lemma to_tensor_bytes (pic : image) :
  bands (im_mode pic) = 3 ->
  t_dtype (to_tensor pic) = float32 /\
  shape (to_tensor pic) = [3; height pic; width pic] /\
  forall c y x, exists b,
    item (to_tensor pic) [c; y; x] = FloatV (byte_to_float (byte_Z b)).
Proof.
  destruct pic as [m w h pal px]. simpl. intros Hb.
  destruct m; try discriminate Hb; (split; [reflexivity|]);
    (split; [reflexivity|]); intros c y x; simpl;
    destruct (px x y) as [[r g] b];
    destruct (c =? 0); [eexists; reflexivity| |eexists; reflexivity|
                        |eexists; reflexivity| |eexists; reflexivity|];
    destruct (c =? 1); eexists; reflexivity.
Qed.

Lemma std_nonzero :
  existsb is_zero (map F32.of_double (std image_processor)) = false.
Proof. vm_compute. reflexivity. Qed.

Lemma normalize_three (x : tensor) (h w : Z) :
  t_dtype x = float32 -> shape x = [3; h; w] ->
  exists x',
    normalize x (mean image_processor) (std image_processor) = Ok x' /\
    t_dtype x' = float32 /\ shape x' = [3; h; w] /\
    forall c y z b, 0 <= c < 3 ->
      item x [c; y; z] = FloatV (byte_to_float (byte_Z b)) ->
      item x' [c; y; z] = FloatV (norm_value image_processor (Z.to_nat c) b).
Proof.
  intros Hd Hs. unfold normalize. rewrite Hd, Hs.
  cbn [List.length Nat.ltb Nat.leb Nat.sub nth].
  rewrite std_nonzero.
  cbn [map List.length mean image_processor Z.of_nat Pos.of_succ_nat Pos.succ Z.eqb Pos.eqb].
  eexists. split; [reflexivity|]. split; [reflexivity|]. split; [reflexivity|].
  intros c y z b Hc Hitem. cbn [item]. rewrite Hitem.
  cbn [List.length Nat.sub nth]. reflexivity.
Qed.

(** Every value of the normalization is a finite binary32 number: all
    256 samples times 3 channels are evaluated. *)
Lemma norm_value_finite (c : nat) (b : byte) :
  (c < 3)%nat ->
  F32.is_finite (norm_value image_processor c b) = true /\
  F32.valid (norm_value image_processor c b) = true.
Proof.
  intros Hc.
  destruct c as [|[|[|c]]]; [| | |lia];
    destruct b; vm_compute; split; reflexivity.
Qed.

End Normalization.

Section Pipeline.
Import PIL Torch ImageProcessor.
Context {lib : PIL.Lib}.

Lemma preprocess_image_normalized (img : image) :
  0 < width img -> 0 < height img -> bands (im_mode img) = 3 ->
  exists x, preprocess_image image_processor img = Ok x /\ normalized x.
Proof.
  intros Hw Hh Hb. unfold preprocess_image, transform.
  destruct (Resize_ok (resize_size image_processor) img Hw Hh) as (r & Hr & Hm).
  rewrite Hr. cbn [bind].
  set (pic := CenterCrop (crop_size image_processor) r).
  destruct (CenterCrop_size (crop_size image_processor) r) as (Cm & Cw & Ch).
  fold pic in Cm, Cw, Ch.
  assert (Hb3 : bands (im_mode pic) = 3) by (rewrite Cm, Hm; exact Hb).
  destruct (to_tensor_bytes pic Hb3) as (Td & Ts & Ti).
  rewrite Cw, Ch in Ts.
  destruct (normalize_three (to_tensor pic) _ _ Td Ts) as (x' & Hn & Hd' & Hs' & Hi').
  rewrite Hn. cbn [bind]. eexists. split; [reflexivity|].
  unfold normalized, unsqueeze0. cbn [t_dtype shape item tl].
  split; [exact Hd'|]. split; [now rewrite Hs'|].
  intros c y z Hc Hy Hz.
  destruct (Ti c y z) as (b & Hitem).
  rewrite (Hi' c y z b Hc Hitem).
  eexists. split; [reflexivity|].
  apply norm_value_finite. lia.
Qed.

Lemma load_image_from_bytes_ok (self : ImageProcessor.t)
      (image_bytes : list byte) (img : image) :
  Image_open image_bytes = Ok img ->
  load_image_from_bytes self image_bytes = Ok (to_RGB img).
Proof. unfold load_image_from_bytes. now intros ->. Qed.

Lemma load_image_from_path_ok (self : ImageProcessor.t)
      (image_path : string) (img : image) :
  Image_open_path image_path = Ok img ->
  load_image_from_path self image_path = Ok (to_RGB img).
Proof. unfold load_image_from_path. now intros ->. Qed.

End Pipeline.

(** The claim of C1 read on [preprocess_image] fails on a valid image
    that is not in a three-band mode: for a 300x300 grayscale image
    [Normalize] raises, since one channel cannot be normalized in place
    with three means. *)
Lemma preprocess_image_grayscale_raises :
  0 < PIL.width Demo.gray_300 /\ 0 < PIL.height Demo.gray_300 /\
  ImageProcessor.preprocess_image (lib := Demo.lib)
    ImageProcessor.image_processor Demo.gray_300
  = Raise (RuntimeError "output shape does not match the broadcast shape").
Proof. repeat split. Qed.

(** C1 (amended).  For every image with positive width and height in a
    mode of three 8-bit bands (RGB in particular), [preprocess_image]
    returns a float32 tensor of shape (1, 3, 224, 224) all of whose
    elements are finite; and so does [process_from_bytes] on the bytes of
    an image of any mode, which it converts to RGB first. *)
Theorem normalization_shape :
  forall (lib : PIL.Lib) (img : PIL.image),
    0 < PIL.width img -> 0 < PIL.height img ->
    (PIL.bands (PIL.im_mode img) = 3 ->
     exists x,
       ImageProcessor.preprocess_image ImageProcessor.image_processor img = Ok x /\
       ImageProcessor.normalized x) /\
    (forall image_bytes,
       PIL.Image_open image_bytes = Ok img ->
       exists x,
         ImageProcessor.process_from_bytes ImageProcessor.image_processor
           image_bytes = Ok x /\
         ImageProcessor.normalized x).
Proof.
  intros lib img Hw Hh. split.
  - now apply preprocess_image_normalized.
  - intros image_bytes Hopen. unfold ImageProcessor.process_from_bytes.
    rewrite (load_image_from_bytes_ok _ _ _ Hopen). cbn [bind].
    destruct (to_RGB_size img) as [Ew Eh].
    apply preprocess_image_normalized.
    + now rewrite Ew.
    + now rewrite Eh.
    + now rewrite to_RGB_mode.
Qed.

Lemma normalization_shape_witness :
  (exists x,
     ImageProcessor.preprocess_image (lib := Demo.lib)
       ImageProcessor.image_processor Demo.red_224 = Ok x /\
     ImageProcessor.normalized x) /\
  (exists x,
     ImageProcessor.process_from_bytes (lib := Demo.lib)
       ImageProcessor.image_processor Demo.red_bytes = Ok x /\
     ImageProcessor.normalized x).
Proof.
  destruct (normalization_shape Demo.lib Demo.red_224) as [A B];
    [reflexivity | reflexivity |].
  split; [apply A; reflexivity | apply (B Demo.red_bytes); reflexivity].
Defined.

Section DecodeOnDemand.
Import PIL Torch.
Context {lib : PIL.Lib} {dec : ImageFile.Decoder}.

Lemma mode_eqb_RGB (m : mode) : mode_eqb m M_RGB = true <-> m = M_RGB.
Proof. destruct m; split; intros H; try reflexivity; discriminate H. Qed.

Lemma to_RGB_RGB (img : image) :
  im_mode img = M_RGB -> ImageProcessor.to_RGB img = img.
Proof.
  intros H. unfold ImageProcessor.to_RGB.
  now rewrite (proj2 (mode_eqb_RGB _) H).
Qed.

Lemma to_RGB_other (img : image) :
  im_mode img <> M_RGB -> ImageProcessor.to_RGB img = convert_RGB img.
Proof.
  intros H. unfold ImageProcessor.to_RGB.
  destruct (mode_eqb (im_mode img) M_RGB) eqn:E; [|reflexivity].
  now apply mode_eqb_RGB in E.
Qed.

(** The conversion statement on an opened file whose data decodes. *)
Lemma file_to_RGB_loads (f : ImageFile.file) (img : image) :
  ImageFile.consistent f -> ImageFile.load f = Ok img ->
  exists o,
    ImageFile.to_RGB (ImageFile.Opened f) = Ok o /\
    ImageFile.mode_of o = M_RGB /\
    ImageFile.size_of o = (width img, height img) /\
    ImageFile.pixels o = Ok (ImageProcessor.to_RGB img).
Proof.
  intros Hc Hl. destruct (Hc img Hl) as (Hm & Hw & Hh).
  unfold ImageFile.to_RGB. cbn [ImageFile.mode_of].
  destruct (mode_eqb (ImageFile.file_mode f) M_RGB) eqn:E; cbn [negb].
  - apply mode_eqb_RGB in E. exists (ImageFile.Opened f).
    split; [reflexivity|]. split; [exact E|].
    split; [cbn [ImageFile.size_of]; now rewrite Hw, Hh|].
    cbn [ImageFile.pixels]. rewrite Hl, to_RGB_RGB; [reflexivity | congruence].
  - exists (ImageFile.InMemory (convert_RGB img)).
    unfold ImageFile.convert_RGB. cbn [ImageFile.pixels]. rewrite Hl.
    cbn [bind]. split; [reflexivity|]. split; [reflexivity|].
    split; [reflexivity|].
    rewrite to_RGB_other; [reflexivity|].
    rewrite Hm. intros Hrgb. apply mode_eqb_RGB in Hrgb. congruence.
Qed.

(** ... and on one whose data does not. *)
Lemma file_to_RGB_fails (f : ImageFile.file) (e : exn) :
  ImageFile.load f = Raise e ->
  (ImageFile.file_mode f <> M_RGB ->
   ImageFile.to_RGB (ImageFile.Opened f) = Raise e) /\
  (ImageFile.file_mode f = M_RGB ->
   ImageFile.to_RGB (ImageFile.Opened f) = Ok (ImageFile.Opened f)).
Proof.
  intros Hl. unfold ImageFile.to_RGB. cbn [ImageFile.mode_of]. split.
  - intros Hm.
    destruct (mode_eqb (ImageFile.file_mode f) M_RGB) eqn:E.
    + now apply mode_eqb_RGB in E.
    + cbn [negb]. unfold ImageFile.convert_RGB. cbn [ImageFile.pixels].
      now rewrite Hl.
  - intros Hm. now rewrite (proj2 (mode_eqb_RGB _) Hm).
Qed.

(** With [Image.open] taken as the complete decode, the pipeline on
    decoded images computes what the pipeline on files does: the same
    tensor, or the same exception. *)
Lemma process_from_bytes_decode (self : ImageProcessor.t) (b : list byte) :
  (forall b', PIL.Image_open b' = ImageFile.decode b') ->
  (forall f, ImageFile.Image_open b = Ok f -> ImageFile.consistent f) ->
  ImageFile.process_from_bytes self b
  = ImageProcessor.process_from_bytes self b.
Proof.
  intros Hopen Hcons.
  unfold ImageFile.process_from_bytes, ImageProcessor.process_from_bytes,
    ImageFile.load_image_from_bytes, ImageProcessor.load_image_from_bytes.
  rewrite Hopen. unfold ImageFile.decode.
  destruct (ImageFile.Image_open b) as [f|e] eqn:E; cbn [bind]; [|reflexivity].
  destruct (ImageFile.load f) as [img|e] eqn:El; cbn [bind].
  - destruct (file_to_RGB_loads f img (Hcons f eq_refl) El)
      as (o & Ho & _ & _ & Hp).
    rewrite Ho. cbn [bind]. unfold ImageFile.preprocess_image.
    rewrite Hp. reflexivity.
  - destruct (file_to_RGB_fails f e El) as [A B].
    destruct (mode_eqb (ImageFile.file_mode f) M_RGB) eqn:Em.
    + apply mode_eqb_RGB in Em. rewrite (B Em). cbn [bind].
      unfold ImageFile.preprocess_image. cbn [ImageFile.pixels].
      now rewrite El.
    + rewrite A; [reflexivity|].
      intros Hm. apply mode_eqb_RGB in Hm. congruence.
Qed.

End DecodeOnDemand.

(** The claim of C8 fails on a grayscale file PIL opens (the header is
    readable) whose data is cut short: the mode conversion of the decode
    step raises. *)
Lemma truncated_grayscale_raises :
  ImageFile.Image_open (Decoder := Demo.decoder) Demo.truncated_gray_bytes
    = Ok (Demo.truncated PIL.M_L 300 300) /\
  ImageFile.load_image_from_bytes (lib := Demo.lib) (dec := Demo.decoder)
    ImageProcessor.image_processor Demo.truncated_gray_bytes
  = Raise (OSError "image file is truncated (0 bytes not processed)").
Proof. split; reflexivity. Qed.

(** C8 (amended).  For a file PIL opens whose pixel data decodes,
    whatever its mode, the decode step raises nothing and returns an
    image of mode RGB (three bands) and of the same size, whose pixels
    are those of [convert("RGB")]; an RGBA image keeps its red, green and
    blue samples and loses its alpha band.  For a file PIL opens whose
    data does not decode, the mode conversion raises the decoder's
    exception when the mode is not RGB; an RGB file is returned as
    opened, and the exception is raised by the preprocessing that
    follows.  The unconditional [convert('RGB')] of the second pipeline
    raises in both cases.  Loading from a path behaves alike. *)
Theorem decode_gives_RGB :
  forall (lib : PIL.Lib) (dec : ImageFile.Decoder) (self : ImageProcessor.t)
         (image_bytes : list byte) (f : ImageFile.file),
    ImageFile.Image_open image_bytes = Ok f ->
    ImageFile.consistent f ->
    (forall img,
        ImageFile.load f = Ok img ->
        exists o,
          ImageFile.load_image_from_bytes self image_bytes = Ok o /\
          ImageFile.mode_of o = PIL.M_RGB /\
          PIL.bands (ImageFile.mode_of o) = 3 /\
          ImageFile.size_of o = (PIL.width img, PIL.height img) /\
          ImageFile.pixels o = Ok (ImageProcessor.to_RGB img) /\
          (PIL.im_mode img <> PIL.M_RGB ->
           ImageFile.pixels o = Ok (PIL.convert_RGB img)) /\
          (forall w h pal (px : Z -> Z -> PIL.pixel PIL.M_RGBA),
              img = PIL.Image PIL.M_RGBA w h pal px ->
              ImageFile.pixels o
              = Ok (PIL.Image PIL.M_RGB w h [] (fun x y => fst (px x y))))) /\
    (forall e,
        ImageFile.load f = Raise e ->
        (ImageFile.file_mode f <> PIL.M_RGB ->
         ImageFile.load_image_from_bytes self image_bytes = Raise e) /\
        (ImageFile.file_mode f = PIL.M_RGB ->
         ImageFile.load_image_from_bytes self image_bytes
           = Ok (ImageFile.Opened f) /\
         ImageFile.process_from_bytes self image_bytes = Raise e) /\
        ImageFile.process_image image_bytes = Raise e) /\
    (forall image_path,
        ImageFile.Image_open_path image_path = Ok f ->
        (forall img,
            ImageFile.load f = Ok img ->
            exists o,
              ImageFile.load_image_from_path self image_path = Ok o /\
              ImageFile.mode_of o = PIL.M_RGB /\
              ImageFile.size_of o = (PIL.width img, PIL.height img) /\
              ImageFile.pixels o = Ok (ImageProcessor.to_RGB img)) /\
        (forall e,
            ImageFile.load f = Raise e ->
            ImageFile.file_mode f <> PIL.M_RGB ->
            ImageFile.load_image_from_path self image_path = Raise e)).
Proof.
  intros lib dec self image_bytes f Hopen Hcons.
  split; [|split].
  - intros img Hl.
    destruct (file_to_RGB_loads f img Hcons Hl) as (o & Ho & Hm & Hs & Hp).
    exists o. unfold ImageFile.load_image_from_bytes. rewrite Hopen.
    cbn [bind]. split; [exact Ho|]. split; [exact Hm|].
    split; [now rewrite Hm|]. split; [exact Hs|]. split; [exact Hp|].
    split.
    + intros Hne. now rewrite Hp, to_RGB_other.
    + intros w h pal px ->. rewrite Hp. reflexivity.
  - intros e Hl. destruct (file_to_RGB_fails f e Hl) as [A B].
    unfold ImageFile.process_from_bytes, ImageFile.load_image_from_bytes,
      ImageFile.process_image.
    rewrite Hopen. cbn [bind].
    split; [exact A|]. split.
    + intros Hm. rewrite (B Hm). split; [reflexivity|]. cbn [bind].
      unfold ImageFile.preprocess_image. cbn [ImageFile.pixels].
      now rewrite Hl.
    + unfold ImageFile.convert_RGB. cbn [ImageFile.pixels]. now rewrite Hl.
  - intros image_path Hpath. unfold ImageFile.load_image_from_path.
    rewrite Hpath. cbn [bind]. split.
    + intros img Hl.
      destruct (file_to_RGB_loads f img Hcons Hl) as (o & Ho & Hm & Hs & Hp).
      exists o. repeat split; assumption.
    + intros e Hl Hm. now apply (file_to_RGB_fails f e Hl).
Qed.

Lemma decode_gives_RGB_witness :
  exists o,
    ImageFile.load_image_from_bytes (lib := Demo.lib) (dec := Demo.decoder)
      ImageProcessor.image_processor Demo.rgba_bytes = Ok o /\
    ImageFile.mode_of o = PIL.M_RGB /\
    ImageFile.size_of o = (100, 50) /\
    ImageFile.pixels o
    = Ok (PIL.Image PIL.M_RGB 100 50 [] (fun _ _ => (xff, x00, x00))).
Proof.
  destruct (decode_gives_RGB Demo.lib Demo.decoder ImageProcessor.image_processor
              Demo.rgba_bytes (Demo.whole Demo.rgba_100x50)) as (A & _).
  - reflexivity.
  - intros im H. injection H as <-. repeat split.
  - destruct (A Demo.rgba_100x50 eq_refl) as (o & Ho & Hm & _ & Hs & _ & _ & Hp).
    exists o. split; [exact Ho|]. split; [exact Hm|]. split; [exact Hs|].
    exact (Hp 100 50 [] (fun _ _ => (xff, x00, x00, x80)) eq_refl).
Defined.


(* ================================================================== *)
(** * Softmax *)

Section SoftmaxFacts.
Import Prob.
Local Open Scope R_scope.

Lemma sum_map_div (es : list R) (s : R) :
  sum (map (fun e => e / s) es) = sum es / s.
Proof.
  induction es as [|e es IH]; simpl.
  - unfold Rdiv. ring.
  - rewrite IH. unfold Rdiv. ring.
Qed.

Lemma sum_exp_pos (f : R -> R) (xs : list R) :
  xs <> [] -> 0 < sum (map (fun x => exp (f x)) xs).
Proof.
  assert (H0 : forall l, 0 <= sum (map (fun x => exp (f x)) l)).
  { induction l as [|x l IH]; simpl; [lra|].
    pose proof (exp_pos (f x)). lra. }
  destruct xs as [|x xs]; [congruence|]. intros _. simpl.
  pose proof (exp_pos (f x)). pose proof (H0 xs). lra.
Qed.

Lemma exp_shift (x m : R) : exp (x - m) = exp x / exp m.
Proof.
  unfold Rminus, Rdiv. now rewrite exp_plus, exp_Ropp.
Qed.

Lemma sum_exp_shift (xs : list R) (m : R) :
  sum (map (fun x => exp (x - m)) xs) = sum (map exp xs) / exp m.
Proof.
  induction xs as [|x xs IH]; simpl.
  - unfold Rdiv. ring.
  - rewrite IH, exp_shift. unfold Rdiv. ring.
Qed.

Lemma softmax_length (xs : list R) :
  List.length (softmax xs) = List.length xs.
Proof. unfold softmax. now rewrite !length_map. Qed.

Lemma softmax_nth (xs : list R) (i : nat) :
  (i < List.length xs)%nat ->
  nth i (softmax xs) 0 =
  exp (nth i xs 0 - maximum xs)
  / sum (map (fun x => exp (x - maximum xs)) xs).
Proof.
  intros Hi. unfold softmax.
  set (m := maximum xs).
  set (s := sum (map (fun x => exp (x - m)) xs)).
  rewrite (nth_indep _ 0 ((fun e => e / s) (exp (0 - m))))
    by (now rewrite !length_map).
  rewrite (map_nth (fun e => e / s)).
  rewrite (map_nth (fun x => exp (x - m))). reflexivity.
Qed.

(** Subtracting the maximum changes nothing: the computed value is the
    defining quotient. *)
Lemma softmax_is_formula (xs : list R) (i : nat) :
  (i < List.length xs)%nat ->
  nth i (softmax xs) 0 = softmax_formula xs i.
Proof.
  intros Hi. rewrite (softmax_nth xs i Hi). unfold softmax_formula.
  rewrite sum_exp_shift, exp_shift.
  assert (Hm : exp (maximum xs) <> 0)
    by (pose proof (exp_pos (maximum xs)); lra).
  assert (Hs : sum (map exp xs) <> 0).
  { assert (xs <> []) by (destruct xs; [simpl in Hi; lia | congruence]).
    assert (0 < sum (map exp xs)) by exact (sum_exp_pos (fun x => x) xs H).
    lra. }
  field. split; assumption.
Qed.

Lemma softmax_sum (xs : list R) : xs <> [] -> sum (softmax xs) = 1.
Proof.
  intros Hne. unfold softmax. rewrite sum_map_div.
  pose proof (sum_exp_pos (fun x => x - maximum xs) xs Hne).
  field. lra.
Qed.

(** Each probability lies in (0, 1]. *)
Lemma softmax_range (xs : list R) (p : R) :
  In p (softmax xs) -> 0 < p <= 1.
Proof.
  intros Hin.
  assert (Hne : xs <> []) by (destruct xs; [destruct Hin | congruence]).
  pose proof (softmax_sum xs Hne) as Hsum.
  assert (Hpos : forall q, In q (softmax xs) -> 0 < q).
  { unfold softmax. intros q Hq.
    apply in_map_iff in Hq. destruct Hq as (e & <- & He).
    apply in_map_iff in He. destruct He as (x & <- & _).
    pose proof (sum_exp_pos (fun x => x - maximum xs) xs Hne).
    pose proof (exp_pos (x - maximum xs)).
    apply Rdiv_lt_0_compat; assumption. }
  split; [now apply Hpos|].
  rewrite <- Hsum. revert Hin Hpos. generalize (softmax xs) as l.
  induction l as [|q l IH]; intros Hin Hpos; [destruct Hin|].
  assert (H0 : 0 <= sum l).
  { clear -Hpos. induction l as [|r l IH]; [simpl; lra|].
    change (sum (r :: l)) with (r + sum l).
    assert (0 < r) by (apply Hpos; right; left; reflexivity).
    assert (0 <= sum l).
    { apply IH. intros z [->|Hz]; apply Hpos; [left|right; right]; auto. }
    lra. }
  change (sum (q :: l)) with (q + sum l).
  destruct Hin as [->|Hin]; [lra|].
  assert (0 < q) by (apply Hpos; left; reflexivity).
  assert (p <= sum l).
  { apply IH; [exact Hin|]. intros z Hz. apply Hpos. now right. }
  lra.
Qed.

End SoftmaxFacts.

(* ================================================================== *)
(** * The insertion-sort [topk] meets the contract of [torch.topk] *)

Section TopkFacts.
Import Prob Demo.
Local Open Scope R_scope.

Lemma insert_perm (p : R * nat) (l : list (R * nat)) :
  Permutation (insert p l) (p :: l).
Proof.
  induction l as [|q l IH]; simpl; [apply Permutation_refl|].
  destruct (Rle_dec (fst q) (fst p)); [apply Permutation_refl|].
  apply perm_trans with (q :: p :: l); [now apply perm_skip | apply perm_swap].
Qed.

Lemma sort_desc_perm (l : list (R * nat)) : Permutation (sort_desc l) l.
Proof.
  induction l as [|p l IH]; simpl; [apply perm_nil|].
  apply perm_trans with (p :: sort_desc l);
    [apply insert_perm | now apply perm_skip].
Qed.

Lemma insert_sorted (p : R * nat) (l : list (R * nat)) :
  StronglySorted ge_value l -> StronglySorted ge_value (insert p l).
Proof.
  induction l as [|q l IH]; intros Hs; simpl.
  - constructor; constructor.
  - inversion Hs as [|? ? Hs' Hq]; subst.
    destruct (Rle_dec (fst q) (fst p)) as [Hle|Hnle].
    + constructor; [exact Hs|]. constructor; [exact Hle|].
      eapply Forall_impl; [|exact Hq]. unfold ge_value. intros a Ha. lra.
    + constructor; [now apply IH|].
      apply (Permutation_Forall (Permutation_sym (insert_perm p l))).
      constructor; [unfold ge_value; lra | exact Hq].
Qed.

Lemma sort_desc_sorted (l : list (R * nat)) :
  StronglySorted ge_value (sort_desc l).
Proof.
  induction l as [|p l IH]; simpl; [constructor | now apply insert_sorted].
Qed.

(** Sorting a list whose values are all equal leaves it as it is. *)
Lemma sort_desc_const (v : R) (l : list (R * nat)) :
  (forall a, In a l -> fst a = v) -> sort_desc l = l.
Proof.
  induction l as [|p l IH]; intros H; simpl; [reflexivity|].
  rewrite IH by (intros a Ha; apply H; now right).
  destruct l as [|q l]; simpl; [reflexivity|].
  destruct (Rle_dec (fst q) (fst p)) as [|Hn]; [reflexivity|].
  exfalso. apply Hn.
  rewrite (H p), (H q); [lra | right; left; reflexivity | left; reflexivity].
Qed.

Lemma sorted_app_le (l1 l2 : list (R * nat)) (a b : R * nat) :
  StronglySorted ge_value (l1 ++ l2) -> In a l1 -> In b l2 -> fst b <= fst a.
Proof.
  induction l1 as [|x l1 IH]; intros Hs Ha Hb; [destruct Ha|].
  simpl in Hs. inversion Hs as [|? ? Hs' Hx]; subst.
  destruct Ha as [->|Ha]; [|now apply IH].
  rewrite Forall_forall in Hx. apply (Hx b). apply in_or_app. now right.
Qed.

Lemma sorted_app_l (l1 l2 : list (R * nat)) :
  StronglySorted ge_value (l1 ++ l2) -> StronglySorted ge_value l1.
Proof.
  induction l1 as [|x l1 IH]; intros Hs; [constructor|].
  simpl in Hs. inversion Hs as [|? ? Hs' Hx]; subst.
  constructor; [now apply IH|].
  apply Forall_app in Hx. tauto.
Qed.

Lemma sorted_nth (l : list (R * nat)) (n m : nat) (d : R * nat) :
  StronglySorted ge_value l -> (n <= m < List.length l)%nat ->
  fst (nth m l d) <= fst (nth n l d).
Proof.
  intros Hs. revert n m. induction Hs as [|a l Hs IH Ha]; intros n m [Hnm Hm].
  - simpl in Hm. lia.
  - destruct n as [|n], m as [|m]; simpl in *; try lia.
    + lra.
    + rewrite Forall_forall in Ha. apply (Ha (nth m l d)).
      apply nth_In. lia.
    + apply IH. lia.
Qed.

(** The pairs of [enumerate xs] are the positions of [xs] with their
    values. *)
Lemma in_combine_seq (xs : list R) (a : nat) (v : R) (i : nat) :
  In (v, i) (combine xs (seq a (List.length xs))) <->
  (a <= i < a + List.length xs)%nat /\ v = nth (i - a) xs 0.
Proof.
  revert a. induction xs as [|x xs IH]; intros a; simpl.
  - split; [tauto | lia].
  - rewrite IH. split.
    + intros [E|[Hr Hv]].
      * inversion E; subst. split; [lia|]. now rewrite Nat.sub_diag.
      * split; [lia|]. replace (i - a)%nat with (S (i - S a)) by lia. exact Hv.
    + intros [Hr Hv]. destruct (Nat.eq_dec i a) as [->|Hne].
      * left. rewrite Nat.sub_diag in Hv. now subst.
      * right. split; [lia|].
        replace (i - a)%nat with (S (i - S a)) in Hv by lia. exact Hv.
Qed.

Lemma in_enumerate (xs : list R) (v : R) (i : nat) :
  In (v, i) (enumerate xs) <-> (i < List.length xs)%nat /\ v = nth i xs 0.
Proof.
  unfold enumerate. rewrite in_combine_seq, Nat.sub_0_r.
  split; intros [H1 H2]; (split; [lia | exact H2]).
Qed.

Lemma enumerate_indices (xs : list R) :
  map snd (enumerate xs) = seq 0 (List.length xs).
Proof.
  unfold enumerate. generalize 0%nat as a.
  induction xs as [|x xs IH]; intros a; simpl; [reflexivity|].
  now rewrite IH.
Qed.

Lemma enumerate_length (xs : list R) :
  List.length (enumerate xs) = List.length xs.
Proof.
  unfold enumerate. rewrite length_combine, length_seq. lia.
Qed.

End TopkFacts.

Section TopkContract.
Import Prob Demo.
Local Open Scope R_scope.

Variable pre : list (R * nat) -> list (R * nat).
Hypothesis pre_perm : forall l, Permutation (pre l) l.

Lemma nth_map_fst (l : list (R * nat)) (n : nat) :
  nth n (map fst l) 0 = fst (nth n l (0, 0%nat)).
Proof. exact (map_nth fst l (0, 0%nat) n). Qed.

Lemma nth_map_snd (l : list (R * nat)) (n : nat) :
  nth n (map snd l) 0%nat = snd (nth n l (0, 0%nat)).
Proof. exact (map_nth snd l (0, 0%nat) n). Qed.

Lemma sorted_enumerate_perm (xs : list R) :
  Permutation (sort_desc (pre (enumerate xs))) (enumerate xs).
Proof.
  eapply perm_trans; [apply sort_desc_perm | apply pre_perm].
Qed.

Lemma topk_by_spec (xs : list R) (k : Z) :
  (0 <= k <= Z.of_nat (List.length xs))%Z ->
  exists values indices,
    topk_by pre xs k = Ok (values, indices) /\
    topk_spec xs (Z.to_nat k) values indices.
Proof.
  intros Hk. unfold topk_by.
  replace (k <? 0)%Z with false by (symmetry; apply Z.ltb_ge; lia).
  replace (Z.of_nat (List.length xs) <? k)%Z with false
    by (symmetry; apply Z.ltb_ge; lia).
  cbn [orb].
  set (s := sort_desc (pre (enumerate xs))).
  set (kn := Z.to_nat k).
  pose proof (sorted_enumerate_perm xs) as Hperm. fold s in Hperm.
  assert (Hlen : List.length s = List.length xs)
    by (rewrite (Permutation_length Hperm); apply enumerate_length).
  assert (Hkn : (kn <= List.length s)%nat) by (subst kn; lia).
  assert (Hsorted : StronglySorted ge_value (firstn kn s ++ skipn kn s))
    by (rewrite firstn_skipn; apply sort_desc_sorted).
  assert (Hin : forall a, In a (firstn kn s) -> In a (enumerate xs)).
  { intros a Ha. apply (Permutation_in a Hperm).
    rewrite <- (firstn_skipn kn s). apply in_or_app. now left. }
  assert (Hclen : List.length (firstn kn s) = kn)
    by (rewrite length_firstn; lia).
  eexists. eexists. split; [reflexivity|]. constructor.
  - now rewrite length_map.
  - now rewrite length_map.
  - assert (Hnd : NoDup (map snd s)).
    { apply (Permutation_NoDup (Permutation_map snd (Permutation_sym Hperm))).
      rewrite enumerate_indices. apply seq_NoDup. }
    rewrite <- (firstn_skipn kn s), map_app in Hnd.
    exact (NoDup_app_remove_r _ _ Hnd).
  - intros i Hi. apply in_map_iff in Hi. destruct Hi as ([v j] & E & Ha).
    simpl in E. subst j. apply Hin in Ha. now apply in_enumerate in Ha.
  - intros n Hn. rewrite nth_map_fst, nth_map_snd.
    assert (Ha : In (nth n (firstn kn s) (0, 0%nat)) (enumerate xs))
      by (apply Hin, nth_In; lia).
    destruct (nth n (firstn kn s) (0, 0%nat)) as [v j].
    now apply in_enumerate in Ha.
  - intros n m Hnm. rewrite !nth_map_fst.
    apply sorted_nth; [exact (sorted_app_l _ _ Hsorted) | lia].
  - intros j Hj Hnot v Hv.
    apply in_map_iff in Hv. destruct Hv as (a & <- & Ha).
    assert (Hp : In (nth j xs 0, j) s).
    { apply (Permutation_in _ (Permutation_sym Hperm)).
      apply in_enumerate. now split. }
    rewrite <- (firstn_skipn kn s) in Hp. apply in_app_or in Hp.
    destruct Hp as [Hp|Hp].
    + exfalso. apply Hnot. apply in_map_iff. now exists (nth j xs 0, j).
    + exact (sorted_app_le _ _ a (nth j xs 0, j) Hsorted Ha Hp).
Qed.

(** The stand-in network meets the contract. *)
Lemma net_by_ok : ModelLoader.NetOK (net_by pre).
Proof.
  constructor.
  - intros n x _ _. exists zero_scores. split; [reflexivity|].
    apply repeat_length.
  - intros xs k Hk. exact (topk_by_spec xs k Hk).
  - apply repeat_length.
Qed.

End TopkContract.

Lemma net_ok : ModelLoader.NetOK Demo.net.
Proof. apply net_by_ok. intros l. apply Permutation_refl. Qed.

Lemma net_rev_ok : ModelLoader.NetOK Demo.net_rev.
Proof.
  apply net_by_ok. intros l. apply Permutation_sym, Permutation_rev.
Qed.

(* ================================================================== *)
(** * The adapter on a network that meets its contract *)

Section Adapter.
Import Torch Prob ModelLoader.
Local Open Scope R_scope.
Context {net : Net}.
Hypothesis ok : NetOK net.

Lemma getitem_nth {A : Type} (l : list A) (i : nat) (d : A) :
  (i < List.length l)%nat -> getitem l i = Ok (nth i l d).
Proof.
  intros Hi. unfold getitem.
  destruct (nth_error l i) as [a|] eqn:E.
  - now rewrite (nth_error_nth l i d E).
  - apply nth_error_None in E. lia.
Qed.

Lemma probabilities_result (self : state) (x : tensor) :
  snd (probabilities self x) =
  (outputs <- forward (List.length (invoked self)) x ;;
   row <- getitem outputs 0 ;;
   Ok (softmax row)).
Proof. reflexivity. Qed.

Lemma probabilities_ok (self : state) (x : tensor) :
  t_dtype x = float32 -> shape x = [1; 3; 224; 224]%Z ->
  exists row,
    forward (List.length (invoked self)) x = Ok [row] /\
    List.length row = 1000%nat /\
    snd (probabilities self x) = Ok (softmax row).
Proof.
  intros Hd Hs.
  destruct (forward_row net ok (List.length (invoked self)) x Hd Hs)
    as (row & Hf & Hl).
  exists row. rewrite probabilities_result, Hf. repeat split; assumption.
Qed.

Lemma results_loop_ok (values : list R) (indices : list nat) (n i : nat) :
  (i + n <= List.length values)%nat ->
  (i + n <= List.length indices)%nat ->
  (forall c, In c indices -> (c < List.length categories)%nat) ->
  results_loop values indices i n = Ok (entries values indices i n).
Proof.
  revert i. induction n as [|n IH]; intros i Hv Hi Hc; [reflexivity|].
  cbn [results_loop].
  rewrite (getitem_nth indices i 0%nat) by lia. cbn [bind].
  rewrite (getitem_nth categories (nth i indices 0%nat) "")
    by (apply Hc, nth_In; lia).
  cbn [bind].
  rewrite (getitem_nth values i 0) by lia. cbn [bind].
  rewrite IH by (try lia; assumption). reflexivity.
Qed.

Lemma top_k_raw_result (self : state) (x : tensor) (k : Z) :
  snd (top_k_raw self x k) =
  (probs <- snd (probabilities self x) ;; topk probs k).
Proof. unfold top_k_raw. now destruct (probabilities self x). Qed.

Lemma predict_top_k_result (self : state) (x : tensor) (k : Z) :
  snd (predict_top_k self x k) =
  (top <- snd (top_k_raw self x k) ;;
   results_loop (fst top) (snd top) 0 (Z.to_nat k)).
Proof.
  unfold predict_top_k. destruct (top_k_raw self x k) as [s [[v i]|e]];
    reflexivity.
Qed.

Lemma predict_result (self : state) (x : tensor) :
  snd (predict self x) =
  (probs <- snd (probabilities self x) ;;
   top <- topk probs 1 ;;
   i <- item1 (snd top) ;;
   class_name <- getitem categories i ;;
   confidence <- item1 (fst top) ;;
   Ok (class_name, confidence)).
Proof.
  unfold predict. destruct (probabilities self x) as [s [p|e]];
    [|reflexivity].
  cbn [snd bind]. destruct (topk p 1) as [[v i]|e]; reflexivity.
Qed.

(** [predict_top_k] succeeds for [1 <= k <= 1000] on a well-shaped
    tensor, with the pair of [torch.topk] behind its entries. *)
Lemma predict_top_k_ok (self : state) (x : tensor) (k : Z) :
  t_dtype x = float32 -> shape x = [1; 3; 224; 224]%Z ->
  (1 <= k <= 1000)%Z ->
  exists row values indices,
    forward (List.length (invoked self)) x = Ok [row] /\
    List.length row = 1000%nat /\
    snd (top_k_raw self x k) = Ok (values, indices) /\
    topk_spec (softmax row) (Z.to_nat k) values indices /\
    snd (predict_top_k self x k)
      = Ok (entries values indices 0 (Z.to_nat k)).
Proof.
  intros Hd Hs Hk.
  destruct (probabilities_ok self x Hd Hs) as (row & Hf & Hl & Hp).
  assert (Hkk : (0 <= k <= Z.of_nat (List.length (softmax row)))%Z)
    by (rewrite softmax_length, Hl; lia).
  destruct (topk_ok net ok (softmax row) k Hkk) as (values & indices & Ht & Hspec).
  exists row, values, indices.
  assert (Hraw : snd (top_k_raw self x k) = Ok (values, indices))
    by (rewrite top_k_raw_result, Hp; exact Ht).
  split; [exact Hf|]. split; [exact Hl|]. split; [exact Hraw|].
  split; [exact Hspec|].
  rewrite predict_top_k_result, Hraw. cbn [bind fst snd].
  destruct Hspec as [Hvl Hil _ Hrange _ _ _].
  apply results_loop_ok; [lia | lia |].
  intros c Hc. rewrite (categories_length net ok).
  apply Hrange in Hc. now rewrite softmax_length, Hl in Hc.
Qed.

Lemma entries_length values indices i n :
  List.length (entries values indices i n) = n.
Proof. unfold entries. now rewrite length_map, length_seq. Qed.

Lemma entries_confidence values indices n d j :
  (j < n)%nat ->
  confidence (nth j (entries values indices 0 n) d) = nth j values 0.
Proof.
  intros Hj. unfold entries.
  set (f := fun j : nat => _).
  rewrite (nth_indep (map f (seq 0 n)) d (f 0%nat))
    by (now rewrite length_map, length_seq).
  rewrite (map_nth f), seq_nth by exact Hj. reflexivity.
Qed.

(** A value [torch.topk] returns is one of the probabilities. *)
Lemma topk_value_in (xs values : list R) (indices : list nat) (k n : nat) :
  topk_spec xs k values indices -> (n < k)%nat -> In (nth n values 0) xs.
Proof.
  intros [Hvl Hil _ Hrange Hat _ _] Hn.
  rewrite (Hat n Hn). apply nth_In, Hrange, nth_In. lia.
Qed.

(** The first value [torch.topk] returns bounds every element. *)
Lemma topk_head_max (xs values : list R) (indices : list nat) (k : nat) :
  topk_spec xs k values indices -> (0 < k)%nat ->
  forall j, (j < List.length xs)%nat -> nth j xs 0 <= nth 0 values 0.
Proof.
  intros Hspec Hk j Hj.
  destruct Hspec as [Hvl Hil _ Hrange Hat Hsorted Hlargest].
  destruct (in_dec Nat.eq_dec j indices) as [Hin|Hnot].
  - destruct (In_nth indices j 0%nat Hin) as (n & Hn & En).
    rewrite <- En, <- (Hat n) by lia. apply Hsorted. lia.
  - apply (Hlargest j Hj Hnot). apply nth_In. lia.
Qed.

End Adapter.

(** C2 (amended).  On a network that meets its contract, for a
    well-shaped tensor and [1 <= k <= 1000], [predict_top_k] returns
    exactly [k] entries, each confidence lies in [0, 1], and the
    confidences do not increase along the list.  (The order among entries
    of equal confidence is the one [torch.topk] chose.) *)
Theorem predict_top_k_ranked :
  forall (net : ModelLoader.Net) (self : ModelLoader.state)
         (x : Torch.tensor) (k : Z),
    ModelLoader.NetOK net ->
    Torch.t_dtype x = Torch.float32 ->
    Torch.shape x = [1; 3; 224; 224] ->
    1 <= k <= 1000 ->
    exists results,
      snd (ModelLoader.predict_top_k self x k) = Ok results /\
      Z.of_nat (List.length results) = k /\
      (forall r, In r results ->
                 (0 <= ModelLoader.confidence r <= 1)%R) /\
      (forall n m d, (n <= m < List.length results)%nat ->
                     (ModelLoader.confidence (nth m results d)
                      <= ModelLoader.confidence (nth n results d))%R).
Proof.
  intros net self x k Hok Hd Hs Hk.
  destruct (predict_top_k_ok Hok self x k Hd Hs Hk)
    as (row & values & indices & _ & _ & _ & Hspec & Hres).
  exists (ModelLoader.entries values indices 0 (Z.to_nat k)).
  split; [exact Hres|].
  rewrite entries_length. split; [lia|]. split.
  - intros r Hr. destruct (In_nth _ _ r Hr) as (j & Hj & <-).
    rewrite entries_length in Hj. rewrite entries_confidence by exact Hj.
    pose proof (softmax_range row _ (topk_value_in _ _ _ _ j Hspec Hj)).
    lra.
  - intros n m d Hnm. rewrite !entries_confidence by lia.
    now apply (Prob.topk_sorted _ _ _ _ Hspec).
Qed.

Lemma predict_top_k_ranked_witness :
  exists results,
    snd (ModelLoader.predict_top_k (net := Demo.net) ModelLoader.model_loader
           Demo.zero_batch 5) = Ok results /\
    Z.of_nat (List.length results) = 5 /\
    (forall r, In r results -> (0 <= ModelLoader.confidence r <= 1)%R) /\
    (forall n m d, (n <= m < List.length results)%nat ->
                   (ModelLoader.confidence (nth m results d)
                    <= ModelLoader.confidence (nth n results d))%R).
Proof.
  apply (predict_top_k_ranked Demo.net ModelLoader.model_loader Demo.zero_batch 5).
  - exact net_ok.
  - reflexivity.
  - reflexivity.
  - lia.
Defined.

Section Ties.
Import Prob Demo.
Local Open Scope R_scope.

Lemma softmax_repeat (a : R) (n : nat) :
  exists v, softmax (repeat a n) = repeat v n.
Proof.
  unfold softmax. rewrite !map_repeat. eexists. reflexivity.
Qed.

Lemma combine_repeat_snoc (v : R) (n a : nat) :
  combine (repeat v (S n)) (seq a (S n))
  = (combine (repeat v n) (seq a n) ++ [(v, (a + n)%nat)])%list.
Proof.
  revert a. induction n as [|n IH]; intros a.
  - simpl. now rewrite Nat.add_0_r.
  - change (combine (repeat v (S (S n))) (seq a (S (S n))))
      with ((v, a) :: combine (repeat v (S n)) (seq (S a) (S n))).
    rewrite IH. simpl. now rewrite Nat.add_succ_r.
Qed.

Lemma enumerate_repeat_snoc (v : R) (n : nat) :
  enumerate (repeat v (S n)) = (enumerate (repeat v n) ++ [(v, n)])%list.
Proof.
  unfold enumerate. rewrite !repeat_length. apply combine_repeat_snoc.
Qed.

Lemma enumerate_repeat_value (v : R) (n : nat) (a : R * nat) :
  In a (enumerate (repeat v n)) -> fst a = v.
Proof.
  destruct a as [w i]. intros H. apply in_combine_l in H.
  now apply repeat_spec in H.
Qed.

(** With all values equal, the [topk] that starts from the reversed
    enumeration returns the highest positions, in descending order. *)
Lemma topk_rev_repeat (v : R) (n : nat) :
  topk_by (@rev (R * nat)) (repeat v (S (S n))) 2
  = Ok ([v; v], [S n; n]).
Proof.
  unfold topk_by. rewrite repeat_length.
  replace (Z.of_nat (S (S n)) <? 2)%Z with false
    by (symmetry; apply Z.ltb_ge; lia).
  cbn [Z.ltb Z.compare orb].
  rewrite (sort_desc_const v).
  - rewrite !enumerate_repeat_snoc, !rev_app_distr. reflexivity.
  - intros a Ha. apply in_rev in Ha.
    now apply enumerate_repeat_value in Ha.
Qed.

End Ties.

(** The tie clause of C2 fails on a network that meets the contract:
    when all 1000 scores are equal, a [torch.topk] that prefers higher
    positions among equal values returns classes 999 and 998, in this
    order, with equal confidence. *)
Lemma topk_ties_descending :
  ModelLoader.NetOK Demo.net_rev /\
  exists v,
    snd (ModelLoader.top_k_raw (net := Demo.net_rev) ModelLoader.model_loader
           Demo.zero_batch 2)
    = Ok ([v; v], [999; 998]%nat).
Proof.
  split; [exact net_rev_ok|].
  destruct (softmax_repeat 0%R 1000) as (v & Hv).
  exists v.
  rewrite (top_k_raw_result (net := Demo.net_rev)).
  rewrite (probabilities_result (net := Demo.net_rev)).
  change (ModelLoader.forward (Net := Demo.net_rev)
            (List.length (ModelLoader.invoked ModelLoader.model_loader))
            Demo.zero_batch)
    with (@Ok (list (list R)) [repeat 0%R 1000]).
  cbn [bind getitem nth_error].
  rewrite Hv.
  change (ModelLoader.topk (Net := Demo.net_rev))
    with (Demo.topk_by (@rev (R * nat))).
  exact (topk_rev_repeat v 998).
Qed.

Section AdapterOnRow.
Import Torch Prob ModelLoader.
Local Open Scope R_scope.
Context {net : Net}.
Hypothesis ok : NetOK net.

Variables (self : state) (x : tensor) (row : list R) (rest : list (list R)).
Hypothesis forward_gives :
  forward (List.length (invoked self)) x = Ok (row :: rest).
Hypothesis row_length : List.length row = 1000%nat.

Lemma probabilities_row : snd (probabilities self x) = Ok (softmax row).
Proof. rewrite probabilities_result, forward_gives. reflexivity. Qed.

(** [predict] returns the category and the value of the one position
    [torch.topk(probabilities, 1)] chose. *)
Lemma predict_row :
  exists v i,
    topk (softmax row) 1 = Ok ([v], [i]) /\
    topk_spec (softmax row) 1 [v] [i] /\
    snd (predict self x) = Ok (nth i categories "", v).
Proof.
  assert (Hk : (0 <= 1 <= Z.of_nat (List.length (softmax row)))%Z)
    by (rewrite softmax_length, row_length; lia).
  destruct (topk_ok net ok (softmax row) 1 Hk) as (values & indices & Ht & Hspec).
  change (Z.to_nat 1) with 1%nat in Hspec.
  pose proof (topk_values_length _ _ _ _ Hspec) as Hvl.
  pose proof (topk_indices_length _ _ _ _ Hspec) as Hil.
  destruct values as [|v [|? ?]]; try discriminate Hvl.
  destruct indices as [|i [|? ?]]; try discriminate Hil.
  exists v, i. split; [exact Ht|]. split; [exact Hspec|].
  rewrite predict_result, probabilities_row. cbn [bind]. rewrite Ht.
  cbn [bind fst snd item1].
  rewrite (getitem_nth categories i "").
  - reflexivity.
  - rewrite (categories_length net ok).
    pose proof (topk_indices_range _ _ _ _ Hspec i (or_introl eq_refl)) as Hr.
    now rewrite softmax_length, row_length in Hr.
Qed.

Lemma predict_top_k_row (k : Z) :
  (1 <= k <= 1000)%Z ->
  exists values indices,
    snd (top_k_raw self x k) = Ok (values, indices) /\
    topk_spec (softmax row) (Z.to_nat k) values indices /\
    snd (predict_top_k self x k)
      = Ok (entries values indices 0 (Z.to_nat k)).
Proof.
  intros Hk.
  assert (Hkk : (0 <= k <= Z.of_nat (List.length (softmax row)))%Z)
    by (rewrite softmax_length, row_length; lia).
  destruct (topk_ok net ok (softmax row) k Hkk) as (values & indices & Ht & Hspec).
  exists values, indices.
  assert (Hraw : snd (top_k_raw self x k) = Ok (values, indices))
    by (rewrite top_k_raw_result, probabilities_row; exact Ht).
  split; [exact Hraw|]. split; [exact Hspec|].
  rewrite predict_top_k_result, Hraw. cbn [bind fst snd].
  destruct Hspec as [Hvl Hil _ Hrange _ _ _].
  apply results_loop_ok; [lia | lia |].
  intros c Hc. rewrite (categories_length net ok).
  apply Hrange in Hc. now rewrite softmax_length, row_length in Hc.
Qed.

End AdapterOnRow.

(** The claim of C4 fails on a batch of two images, whose shape is not
    (1, 3, 224, 224): both operations pass it to the network, and on a
    network that accepts it they return a result. *)
Lemma batch_of_two_is_evaluated :
  Torch.shape Demo.batch_of_two <> [1; 3; 224; 224] /\
  ModelLoader.invoked
    (fst (ModelLoader.predict (net := Demo.net) ModelLoader.model_loader
            Demo.batch_of_two)) = [Demo.batch_of_two] /\
  ModelLoader.invoked
    (fst (ModelLoader.predict_top_k (net := Demo.net) ModelLoader.model_loader
            Demo.batch_of_two 5)) = [Demo.batch_of_two] /\
  Py.is_ok (snd (ModelLoader.predict (net := Demo.net) ModelLoader.model_loader
                   Demo.batch_of_two)) = true /\
  Py.is_ok (snd (ModelLoader.predict_top_k (net := Demo.net) ModelLoader.model_loader
                   Demo.batch_of_two 5)) = true.
Proof.
  split; [discriminate|]. split; [reflexivity|]. split; [reflexivity|].
  assert (Hf : ModelLoader.forward (Net := Demo.net)
                 (List.length (ModelLoader.invoked ModelLoader.model_loader))
                 Demo.batch_of_two = Ok [Demo.zero_scores]) by reflexivity.
  assert (Hl : List.length Demo.zero_scores = 1000%nat) by apply repeat_length.
  split.
  - destruct (predict_row net_ok _ _ _ _ Hf Hl) as (v & i & _ & _ & E).
    now rewrite E.
  - destruct (predict_top_k_row net_ok _ _ _ _ Hf Hl 5) as (vs & ixs & _ & _ & E);
      [lia|]. now rewrite E.
Qed.

(** C4 (amended).  The adapter checks no shape and has no exception of
    its own for one: [predict] and [predict_top_k] pass every tensor,
    whatever its shape, to the network, and what they return depends on
    the tensor only through what the network returns for it.  When the
    network raises, they raise its exception; when it returns an empty
    batch, taking [outputs[0]] raises [IndexError]; when it returns a
    batch whose first row has 1000 scores (on a network whose [topk] and
    categories meet their contract, and for [1 <= k <= 1000]), they
    return a result. *)
Theorem no_shape_check :
  forall (net : ModelLoader.Net) (self : ModelLoader.state)
         (x : Torch.tensor) (k : Z),
    ModelLoader.invoked (fst (ModelLoader.predict self x))
      = x :: ModelLoader.invoked self /\
    ModelLoader.invoked (fst (ModelLoader.predict_top_k self x k))
      = x :: ModelLoader.invoked self /\
    (forall x',
        ModelLoader.forward (List.length (ModelLoader.invoked self)) x'
        = ModelLoader.forward (List.length (ModelLoader.invoked self)) x ->
        snd (ModelLoader.predict self x') = snd (ModelLoader.predict self x) /\
        snd (ModelLoader.predict_top_k self x' k)
        = snd (ModelLoader.predict_top_k self x k)) /\
    (forall e,
        ModelLoader.forward (List.length (ModelLoader.invoked self)) x
          = Raise e ->
        snd (ModelLoader.predict self x) = Raise e /\
        snd (ModelLoader.predict_top_k self x k) = Raise e) /\
    (ModelLoader.forward (List.length (ModelLoader.invoked self)) x = Ok [] ->
     exists msg,
       snd (ModelLoader.predict self x) = Raise (IndexError msg) /\
       snd (ModelLoader.predict_top_k self x k) = Raise (IndexError msg)) /\
    (forall row rest,
        ModelLoader.NetOK net ->
        ModelLoader.forward (List.length (ModelLoader.invoked self)) x
          = Ok (row :: rest) ->
        List.length row = 1000%nat ->
        1 <= k <= 1000 ->
        Py.is_ok (snd (ModelLoader.predict self x)) = true /\
        Py.is_ok (snd (ModelLoader.predict_top_k self x k)) = true).
Proof.
  intros net self x k.
  destruct (probabilities_model self x) as (_ & _ & Hinv).
  split; [now rewrite predict_state|].
  split; [now rewrite predict_top_k_state|].
  split; [|split; [|split]].
  - intros x' Hx'.
    rewrite !predict_result, !predict_top_k_result, !top_k_raw_result,
      !probabilities_result, Hx'.
    split; reflexivity.
  - intros e He.
    rewrite predict_result, predict_top_k_result, top_k_raw_result,
      probabilities_result, He.
    split; reflexivity.
  - intros He. exists "list index out of range".
    rewrite predict_result, predict_top_k_result, top_k_raw_result,
      probabilities_result, He.
    split; reflexivity.
  - intros row rest Hok Hf Hl Hk. split.
    + destruct (predict_row Hok self x row rest Hf Hl) as (v & i & _ & _ & E).
      now rewrite E.
    + destruct (predict_top_k_row Hok self x row rest Hf Hl k Hk)
        as (vs & ixs & _ & _ & E).
      now rewrite E.
Qed.


(* ================================================================== *)
(** * Rounding to four decimals *)

Section Rounding.
Import Prob.
Local Open Scope R_scope.

Lemma Int_part_bounds (x : R) : IZR (Int_part x) <= x < IZR (Int_part x) + 1.
Proof. destruct (base_Int_part x). lra. Qed.

Lemma Int_part_mono (x y : R) : x <= y -> (Int_part x <= Int_part y)%Z.
Proof.
  intros Hxy.
  pose proof (Int_part_bounds x). pose proof (Int_part_bounds y).
  assert (IZR (Int_part x) < IZR (Int_part y + 1))
    by (rewrite plus_IZR; lra).
  apply lt_IZR in H1. lia.
Qed.

Lemma round_half_even_near (x : R) :
  round_half_even x = Int_part x \/ round_half_even x = (Int_part x + 1)%Z.
Proof.
  unfold round_half_even.
  destruct (Rlt_dec _ _); [now left|].
  destruct (Rlt_dec _ _); [now right|].
  destruct (Z.even _); [now left | now right].
Qed.

Lemma round_half_even_mono (x y : R) :
  x <= y -> (round_half_even x <= round_half_even y)%Z.
Proof.
  intros Hxy. pose proof (Int_part_mono x y Hxy) as Hf.
  destruct (Z.eq_dec (Int_part x) (Int_part y)) as [E|Hne].
  - unfold round_half_even. rewrite E.
    destruct (Rlt_dec (x - IZR (Int_part y)) (1 / 2));
      destruct (Rlt_dec (y - IZR (Int_part y)) (1 / 2));
      destruct (Rlt_dec (1 / 2) (x - IZR (Int_part y)));
      destruct (Rlt_dec (1 / 2) (y - IZR (Int_part y)));
      destruct (Z.even (Int_part y)); try lia; lra.
  - destruct (round_half_even_near x) as [-> | ->];
      destruct (round_half_even_near y) as [-> | ->]; lia.
Qed.

Lemma round4_mono (x y : R) : x <= y -> round4 x <= round4 y.
Proof.
  intros Hxy. unfold round4.
  assert (H : (round_half_even (x * 10000) <= round_half_even (y * 10000))%Z)
    by (apply round_half_even_mono; lra).
  apply IZR_le in H. lra.
Qed.

End Rounding.

Section RoundingAccuracy.
Import Prob.
Local Open Scope R_scope.

Lemma round_half_even_error (x : R) :
  - (1 / 2) <= IZR (round_half_even x) - x <= 1 / 2.
Proof.
  pose proof (Int_part_bounds x) as Hb. unfold round_half_even.
  destruct (Rlt_dec (x - IZR (Int_part x)) (1 / 2)) as [Hlt|Hge]; [lra|].
  assert (Hup : - (1 / 2) <= IZR (Int_part x + 1) - x <= 1 / 2)
    by (rewrite plus_IZR; lra).
  destruct (Rlt_dec (1 / 2) (x - IZR (Int_part x))) as [Hgt|Hle];
    [exact Hup|].
  destruct (Z.even (Int_part x)); [lra | exact Hup].
Qed.

Lemma round_half_even_IZR (z : Z) : round_half_even (IZR z) = z.
Proof.
  unfold round_half_even.
  assert (E : Int_part (IZR z) = z).
  { pose proof (Int_part_bounds (IZR z)) as [H1 H2].
    assert (IZR (Int_part (IZR z)) < IZR (z + 1)) by (rewrite plus_IZR; lra).
    assert (IZR z < IZR (Int_part (IZR z) + 1)) by (rewrite plus_IZR; lra).
    apply lt_IZR in H, H0. lia. }
  rewrite E. destruct (Rlt_dec _ _) as [|Hn]; [reflexivity|].
  exfalso. apply Hn. lra.
Qed.

End RoundingAccuracy.

(* ================================================================== *)
(** * The response of [POST /classify] *)

Section ClassifyFacts.
Import PIL Torch Prob.
Context {lib : PIL.Lib} {net : ModelLoader.Net}.

Lemma Resize_mode (size : Z) (img r : image) :
  Resize size img = Ok r -> im_mode r = im_mode img.
Proof.
  unfold Resize.
  destruct (compute_resized_output_size _ _ _) as [[new_h new_w]|e];
    [|discriminate].
  cbn [bind]. destruct (andb _ _); intros E; inversion E; reflexivity.
Qed.

(** A tensor [process_from_bytes] returns is float32 of shape
    (1, 3, 224, 224). *)
Lemma process_from_bytes_shape (image_bytes : list byte) (x : tensor) :
  ImageProcessor.process_from_bytes ImageProcessor.image_processor image_bytes
    = Ok x ->
  t_dtype x = float32 /\ shape x = [1; 3; 224; 224].
Proof.
  unfold ImageProcessor.process_from_bytes, ImageProcessor.load_image_from_bytes.
  destruct (Image_open image_bytes) as [img|e]; [|discriminate].
  cbn [bind].
  unfold ImageProcessor.preprocess_image, ImageProcessor.transform.
  destruct (Resize _ (ImageProcessor.to_RGB img)) as [r|e] eqn:Er;
    [|discriminate].
  cbn [bind].
  set (pic := CenterCrop (ImageProcessor.crop_size ImageProcessor.image_processor) r).
  destruct (CenterCrop_size
              (ImageProcessor.crop_size ImageProcessor.image_processor) r)
    as (Cm & Cw & Ch).
  fold pic in Cm, Cw, Ch.
  assert (Hb3 : bands (im_mode pic) = 3).
  { rewrite Cm, (Resize_mode _ _ _ Er), to_RGB_mode. reflexivity. }
  destruct (to_tensor_bytes pic Hb3) as (Td & Ts & _).
  rewrite Cw, Ch in Ts.
  destruct (normalize_three (to_tensor pic) _ _ Td Ts) as (x' & Hn & Hd' & Hs' & _).
  rewrite Hn. cbn [bind]. intros E. inversion E; subst x.
  unfold unsqueeze0. cbn [t_dtype shape]. split; [exact Hd' | now rewrite Hs'].
Qed.

(** What lies behind a 200 of [classify_image]. *)
Lemma classify_success order loader name contents (body : App.body) :
  snd (App.classify_image order loader name contents) = Http.Json body ->
  exists x class_name confidence results,
    ImageProcessor.process_from_bytes ImageProcessor.image_processor contents
      = Ok x /\
    snd (ModelLoader.predict loader x) = Ok (class_name, confidence) /\
    snd (ModelLoader.predict_top_k (fst (ModelLoader.predict loader x)) x 5)
      = Ok results /\
    App.prediction body
      = {| App.entry_class_name := class_name;
           App.entry_confidence := round4 confidence |} /\
    App.top_k body
      = map (fun result =>
               {| App.entry_class_name := ModelLoader.class_name result;
                  App.entry_confidence := round4 (ModelLoader.confidence result) |})
            results.
Proof.
  unfold App.classify_image.
  destruct (negb _); [discriminate|].
  destruct (ImageProcessor.process_from_bytes _ contents) as [x|e] eqn:E0;
    [|discriminate].
  destruct (ModelLoader.predict loader x) as [l1 [[c p]|e]] eqn:E1;
    [|discriminate].
  destruct (ModelLoader.predict_top_k l1 x 5) as [l2 [r|e]] eqn:E2;
    [|discriminate].
  cbn [snd]. intros E. injection E as E. subst body.
  cbn [App.prediction App.top_k].
  exists x, c, p, r. rewrite E1. cbn [fst snd]. rewrite E2.
  repeat split; reflexivity.
Qed.

(** With a decodable image of positive size, an accepted filename and a
    network that meets its contract, the request is answered with 200. *)
Lemma classify_succeeds order loader name contents (img : image) :
  ModelLoader.NetOK net ->
  Upload.classify_accepts name = true ->
  Image_open contents = Ok img -> 0 < width img -> 0 < height img ->
  exists body,
    snd (App.classify_image order loader name contents) = Http.Json body.
Proof.
  intros Hok Hacc Hopen Hw Hh.
  unfold App.classify_image. unfold Upload.classify_accepts in Hacc.
  rewrite Hacc. cbv [negb].
  assert (Hx : exists x,
             ImageProcessor.process_from_bytes ImageProcessor.image_processor
               contents = Ok x /\ ImageProcessor.normalized x).
  { unfold ImageProcessor.process_from_bytes.
    rewrite (load_image_from_bytes_ok _ _ _ Hopen). cbn [bind].
    destruct (to_RGB_size img) as [Ew Eh].
    apply preprocess_image_normalized;
      [now rewrite Ew | now rewrite Eh | now rewrite to_RGB_mode]. }
  destruct Hx as (x & Hx & Hd & Hs & _). rewrite Hx.
  destruct (probabilities_ok Hok loader x Hd Hs) as (row & Hf & Hl & _).
  destruct (predict_row Hok loader x row [] Hf Hl) as (v & i & _ & _ & Hp).
  destruct (ModelLoader.predict loader x) as [l1 r1] eqn:E1.
  cbn [snd] in Hp. subst r1.
  destruct (probabilities_ok Hok l1 x Hd Hs) as (row' & Hf' & Hl' & _).
  destruct (predict_top_k_row Hok l1 x row' [] Hf' Hl' 5) as (vs & ixs & _ & _ & Hr);
    [lia|].
  destruct (ModelLoader.predict_top_k l1 x 5) as [l2 r2] eqn:E2.
  cbn [snd] in Hr. subst r2.
  eexists. reflexivity.
Qed.

End ClassifyFacts.

Section TopOfList.
Import Prob.
Local Open Scope R_scope.

(** Two answers of [torch.topk] on the same probabilities start with the
    same value, the maximum. *)
Lemma topk_heads_agree (xs values1 values2 : list R)
      (indices1 indices2 : list nat) (k1 k2 : nat) :
  topk_spec xs k1 values1 indices1 -> topk_spec xs k2 values2 indices2 ->
  (0 < k1)%nat -> (0 < k2)%nat ->
  nth 0 values1 0 = nth 0 values2 0.
Proof.
  intros H1 H2 Hk1 Hk2.
  assert (Hle : forall vs1 is1 n1 vs2 is2 n2,
             topk_spec xs n1 vs1 is1 -> topk_spec xs n2 vs2 is2 ->
             (0 < n1)%nat -> (0 < n2)%nat -> nth 0 vs1 0 <= nth 0 vs2 0).
  { intros vs1 is1 n1 vs2 is2 n2 S1 S2 P1 P2.
    destruct (In_nth xs _ 0 (topk_value_in xs vs1 is1 n1 0 S1 P1))
      as (j & Hj & <-).
    exact (topk_head_max xs vs2 is2 n2 S2 P2 j Hj). }
  apply Rle_antisym; eapply Hle; eassumption.
Qed.

Lemma rounded_entry_nth (results : list ModelLoader.prediction) (m : nat)
      (d : App.entry) (d' : ModelLoader.prediction) :
  (m < List.length results)%nat ->
  App.entry_confidence
    (nth m (map (fun result =>
                   {| App.entry_class_name := ModelLoader.class_name result;
                      App.entry_confidence :=
                        round4 (ModelLoader.confidence result) |})
                results) d)
  = round4 (ModelLoader.confidence (nth m results d')).
Proof.
  intros Hm. set (g := fun result : ModelLoader.prediction => _).
  rewrite (nth_indep (map g results) d (g d')) by (now rewrite length_map).
  rewrite (map_nth g). reflexivity.
Qed.

End TopOfList.

Section ResponseFacts.
Import PIL Torch Prob.
Local Open Scope R_scope.
Context {lib : PIL.Lib} {net : ModelLoader.Net}.

(** The fields of a 200 body that do not come from the network. *)
Lemma classify_success_header order loader name contents (body : App.body) :
  snd (App.classify_image order loader name contents) = Http.Json body ->
  App.success body = true /\ App.filename body = name.
Proof.
  unfold App.classify_image.
  destruct (negb _); [discriminate|].
  destruct (ImageProcessor.process_from_bytes _ contents) as [x|e];
    [|discriminate].
  destruct (ModelLoader.predict loader x) as [l1 [[c p]|e]]; [|discriminate].
  destruct (ModelLoader.predict_top_k l1 x 5) as [l2 [r|e]]; [|discriminate].
  cbn [snd]. intros E. injection E as E. subst body. split; reflexivity.
Qed.

(** [round(p, 4)] is a multiple of 1/10000 at most 0.00005 away from
    [p]: a nearest one. *)
Lemma round4_nearest (p : R) :
  exists z : Z,
    round4 p = IZR z / 10000 /\
    - (1 / 20000) <= round4 p - p <= 1 / 20000.
Proof.
  exists (round_half_even (p * 10000)). split; [reflexivity|].
  unfold round4.
  pose proof (round_half_even_error (p * 10000)) as H. lra.
Qed.

Lemma entry_nth (results : list ModelLoader.prediction) (m : nat)
      (d : App.entry) (d' : ModelLoader.prediction) :
  (m < List.length results)%nat ->
  nth m (map (fun result =>
                {| App.entry_class_name := ModelLoader.class_name result;
                   App.entry_confidence :=
                     round4 (ModelLoader.confidence result) |})
             results) d
  = {| App.entry_class_name := ModelLoader.class_name (nth m results d');
       App.entry_confidence :=
         round4 (ModelLoader.confidence (nth m results d')) |}.
Proof.
  intros Hm. set (g := fun result : ModelLoader.prediction => _).
  rewrite (nth_indep (map g results) d (g d')) by (now rewrite length_map).
  rewrite (map_nth g). reflexivity.
Qed.

(** A larger raw score gives a larger probability. *)
Lemma softmax_increasing (xs : list R) (i j : nat) :
  (i < List.length xs)%nat -> (j < List.length xs)%nat ->
  nth i xs 0 < nth j xs 0 ->
  nth i (softmax xs) 0 < nth j (softmax xs) 0.
Proof.
  intros Hi Hj Hlt. rewrite (softmax_nth xs i Hi), (softmax_nth xs j Hj).
  assert (Hne : xs <> []) by (destruct xs; [simpl in Hi; lia | congruence]).
  pose proof (sum_exp_pos (fun x => x - maximum xs) xs Hne) as Hs.
  unfold Rdiv. apply Rmult_lt_compat_r; [now apply Rinv_0_lt_compat|].
  apply exp_increasing. lra.
Qed.

(** When no two probabilities are equal, the values [torch.topk]
    returns decrease strictly. *)
Lemma topk_strict (xs values : list R) (indices : list nat) (k : nat) :
  topk_spec xs k values indices ->
  (forall i j, (i < List.length xs)%nat -> (j < List.length xs)%nat ->
               i <> j -> nth i xs 0 <> nth j xs 0) ->
  forall n m, (n < m < k)%nat -> nth m values 0 < nth n values 0.
Proof.
  intros [Hvl Hil Hnd Hrange Hat Hsorted _] Hinj n m Hnm.
  assert (Hle : nth m values 0 <= nth n values 0) by (apply Hsorted; lia).
  assert (Hne : nth m values 0 <> nth n values 0).
  { rewrite (Hat m), (Hat n) by lia.
    apply Hinj.
    - apply Hrange, nth_In. lia.
    - apply Hrange, nth_In. lia.
    - intros E.
      assert (m = n); [|lia].
      apply (proj1 (NoDup_nth indices 0%nat) Hnd); [lia | lia | exact E]. }
  lra.
Qed.

End ResponseFacts.

Section RampNetwork.
Import Prob Demo.
Local Open Scope R_scope.

Lemma ramp_scores_length : List.length ramp_scores = 1000%nat.
Proof. unfold ramp_scores. now rewrite length_map, length_seq. Qed.

Lemma ramp_scores_nth (i : nat) :
  (i < 1000)%nat -> nth i ramp_scores 0 = INR i.
Proof.
  intros Hi. unfold ramp_scores.
  rewrite (nth_indep (map INR (seq 0 1000)) 0 (INR 0))
    by (now rewrite length_map, length_seq).
  now rewrite (map_nth INR), seq_nth.
Qed.

Lemma ramp_probabilities_differ (i j : nat) :
  (i < List.length (softmax ramp_scores))%nat ->
  (j < List.length (softmax ramp_scores))%nat ->
  i <> j ->
  nth i (softmax ramp_scores) 0 <> nth j (softmax ramp_scores) 0.
Proof.
  rewrite softmax_length, ramp_scores_length. intros Hi Hj Hne.
  destruct (Nat.lt_total i j) as [Hlt | [E | Hlt]]; [|contradiction|].
  - apply Rlt_not_eq, softmax_increasing;
      rewrite ?ramp_scores_length, ?ramp_scores_nth; try lia.
    now apply lt_INR.
  - apply Rgt_not_eq, Rlt_gt, softmax_increasing;
      rewrite ?ramp_scores_length, ?ramp_scores_nth; try lia.
    now apply lt_INR.
Qed.

Lemma net_ramp_ok : ModelLoader.NetOK net_ramp.
Proof.
  constructor.
  - intros n x _ _. exists ramp_scores. split; [reflexivity|].
    exact ramp_scores_length.
  - intros xs k Hk.
    exact (topk_by_spec (fun l => l) (fun l => Permutation_refl l) xs k Hk).
  - apply repeat_length.
Qed.

End RampNetwork.

(** C3.  When a request to [POST /classify] is answered with 200, on a
    network that meets its contract and whose two evaluations during the
    request agree, the body is built from what the adapter returned for
    the tensor of the upload: [prediction] carries the class that
    [predict] returned and its confidence rounded by [round(_, 4)], and
    [top_k] the 5 entries of [predict_top_k], in their order, each with
    its confidence rounded likewise.  A rounded confidence is a multiple
    of 1/10000 at most 0.00005 away from the value rounded.  The
    confidences of [top_k] do not increase, and [prediction.confidence]
    equals the confidence of the first entry, before and after
    rounding. *)
Theorem classify_response :
  forall (lib : PIL.Lib) (net : ModelLoader.Net) (order : list string)
         (loader : ModelLoader.state) (name : string)
         (contents : list byte) (body : App.body),
    ModelLoader.NetOK net ->
    (forall x,
        ModelLoader.forward (S (List.length (ModelLoader.invoked loader))) x
        = ModelLoader.forward (List.length (ModelLoader.invoked loader)) x) ->
    snd (App.classify_image order loader name contents) = Http.Json body ->
    exists (x : Torch.tensor) (class_name : string) (confidence : R)
           (results : list ModelLoader.prediction),
      ImageProcessor.process_from_bytes ImageProcessor.image_processor contents
        = Ok x /\
      snd (ModelLoader.predict loader x) = Ok (class_name, confidence) /\
      snd (ModelLoader.predict_top_k (fst (ModelLoader.predict loader x)) x 5)
        = Ok results /\
      List.length results = 5%nat /\
      App.success body = true /\
      App.filename body = name /\
      App.entry_class_name (App.prediction body) = class_name /\
      App.entry_confidence (App.prediction body) = Prob.round4 confidence /\
      (exists z, App.entry_confidence (App.prediction body)
                 = (IZR z / 10000)%R) /\
      (- (1 / 20000)
       <= App.entry_confidence (App.prediction body) - confidence
       <= 1 / 20000)%R /\
      List.length (App.top_k body) = 5%nat /\
      (forall n d d', (n < 5)%nat ->
         App.entry_class_name (nth n (App.top_k body) d)
           = ModelLoader.class_name (nth n results d') /\
         App.entry_confidence (nth n (App.top_k body) d)
           = Prob.round4 (ModelLoader.confidence (nth n results d')) /\
         (- (1 / 20000)
          <= App.entry_confidence (nth n (App.top_k body) d)
             - ModelLoader.confidence (nth n results d')
          <= 1 / 20000)%R) /\
      (forall e, In e (App.top_k body) ->
                 exists z, App.entry_confidence e = (IZR z / 10000)%R) /\
      (forall n m d, (n <= m < 5)%nat ->
         (App.entry_confidence (nth m (App.top_k body) d)
          <= App.entry_confidence (nth n (App.top_k body) d))%R) /\
      (forall d', confidence = ModelLoader.confidence (nth 0 results d')) /\
      (forall d, App.entry_confidence (App.prediction body)
                 = App.entry_confidence (nth 0 (App.top_k body) d)).
Proof.
  intros lib net order loader name contents body Hok Hagree Hbody.
  destruct (classify_success order loader name contents body Hbody)
    as (x & cn & conf & results & Hx & Hp & Hr & Hpred & Htop).
  destruct (classify_success_header order loader name contents body Hbody)
    as [Hsucc Hname].
  destruct (process_from_bytes_shape contents x Hx) as [Hd Hs].
  destruct (probabilities_ok Hok loader x Hd Hs) as (row & Hf & Hl & _).
  destruct (predict_row Hok loader x row [] Hf Hl) as (v & i & _ & Hspec1 & Hp').
  pose proof Hp as Hp0.
  rewrite Hp in Hp'. injection Hp' as _ Hconf.
  set (l1 := fst (ModelLoader.predict loader x)) in *.
  assert (Hf1 : ModelLoader.forward (List.length (ModelLoader.invoked l1)) x
                = Ok [row]).
  { subst l1. rewrite predict_state.
    destruct (probabilities_model loader x) as (_ & _ & ->).
    cbn [List.length]. now rewrite Hagree. }
  destruct (predict_top_k_row Hok l1 x row [] Hf1 Hl 5)
    as (values & indices & _ & Hspec5 & Hr'); [lia|].
  pose proof Hr as Hr0.
  rewrite Hr in Hr'. injection Hr' as Hres.
  change (Z.to_nat 5) with 5%nat in Hres, Hspec5.
  assert (Hlen : List.length results = 5%nat)
    by (rewrite Hres; apply entries_length).
  assert (Hraw : forall m d', (m < 5)%nat ->
             ModelLoader.confidence (nth m results d') = nth m values 0%R).
  { intros m d' Hm. rewrite Hres. now apply entries_confidence. }
  assert (Hnth : forall m d d', (m < 5)%nat ->
             nth m (App.top_k body) d
             = {| App.entry_class_name := ModelLoader.class_name (nth m results d');
                  App.entry_confidence :=
                    Prob.round4 (ModelLoader.confidence (nth m results d')) |}).
  { intros m d d' Hm. rewrite Htop. apply entry_nth. lia. }
  assert (Hhead : conf = nth 0 values 0%R).
  { rewrite Hconf.
    exact (topk_heads_agree _ _ _ _ _ _ _ Hspec1 Hspec5
             Nat.lt_0_1 ltac:(lia)). }
  set (d0 := {| ModelLoader.class_name := ""; ModelLoader.confidence := 0%R |}).
  exists x, cn, conf, results.
  split; [exact Hx|]. split; [exact Hp0|]. split; [exact Hr0|].
  split; [exact Hlen|]. split; [exact Hsucc|]. split; [exact Hname|].
  rewrite Hpred. cbn [App.entry_class_name App.entry_confidence].
  split; [reflexivity|]. split; [reflexivity|].
  destruct (round4_nearest conf) as (z & Hz & Herr).
  split; [now exists z|]. split; [exact Herr|].
  split; [now rewrite Htop, length_map|].
  split.
  { intros n d d' Hn. rewrite (Hnth n d d' Hn).
    cbn [App.entry_class_name App.entry_confidence].
    split; [reflexivity|]. split; [reflexivity|].
    destruct (round4_nearest (ModelLoader.confidence (nth n results d')))
      as (z' & _ & Herr').
    exact Herr'. }
  split.
  { intros e He. rewrite Htop in He. apply in_map_iff in He.
    destruct He as (r & <- & _). cbn [App.entry_confidence].
    eexists. reflexivity. }
  split.
  { intros n m d Hnm.
    rewrite (Hnth n d d0), (Hnth m d d0) by lia.
    cbn [App.entry_confidence]. rewrite !Hraw by lia.
    apply round4_mono, (Prob.topk_sorted _ _ _ _ Hspec5). lia. }
  split.
  { intros d'. rewrite Hraw by lia. exact Hhead. }
  intros d. rewrite (Hnth 0%nat d d0) by lia. cbn [App.entry_confidence].
  rewrite Hraw by lia. now rewrite Hhead.
Qed.

(** On the network that gives class [i] the score [i], for the solid red
    upload: the five confidences [predict_top_k] returned, which the
    response rounds, decrease strictly. *)
Lemma classify_response_witness :
  exists (body : App.body) (results : list ModelLoader.prediction),
    snd (App.classify_image (lib := Demo.lib) (net := Demo.net_ramp)
           Upload.allowed_extensions ModelLoader.model_loader "red.jpg"
           Demo.red_bytes) = Http.Json body /\
    List.length (App.top_k body) = 5%nat /\
    (forall n d d', (n < 5)%nat ->
       App.entry_confidence (nth n (App.top_k body) d)
       = Prob.round4 (ModelLoader.confidence (nth n results d')) /\
       (- (1 / 20000)
        <= App.entry_confidence (nth n (App.top_k body) d)
           - ModelLoader.confidence (nth n results d')
        <= 1 / 20000)%R) /\
    (forall n m d', (n < m < 5)%nat ->
       (ModelLoader.confidence (nth m results d')
        < ModelLoader.confidence (nth n results d'))%R) /\
    (forall n m d, (n <= m < 5)%nat ->
       (App.entry_confidence (nth m (App.top_k body) d)
        <= App.entry_confidence (nth n (App.top_k body) d))%R) /\
    (forall d, App.entry_confidence (App.prediction body)
               = App.entry_confidence (nth 0 (App.top_k body) d)).
Proof.
  destruct (classify_succeeds (lib := Demo.lib) (net := Demo.net_ramp)
              Upload.allowed_extensions ModelLoader.model_loader "red.jpg"
              Demo.red_bytes Demo.red_224 net_ramp_ok eq_refl eq_refl
              eq_refl eq_refl) as (body & Hbody).
  destruct (classify_response Demo.lib Demo.net_ramp Upload.allowed_extensions
              ModelLoader.model_loader "red.jpg" Demo.red_bytes body
              net_ramp_ok (fun x => eq_refl) Hbody)
    as (x & cn & conf & results & _ & _ & Hr & _ & _ & _ & _ & _ & _ & _
        & Hlen & Hnth & _ & Hsorted & _ & Hhead).
  exists body, results.
  split; [exact Hbody|]. split; [exact Hlen|].
  split; [intros n d d' Hn; destruct (Hnth n d d' Hn) as (_ & A & B);
          split; assumption|].
  split; [|split; [exact Hsorted | exact Hhead]].
  intros n m d' Hnm.
  destruct (predict_top_k_row net_ramp_ok
              (fst (ModelLoader.predict (net := Demo.net_ramp)
                      ModelLoader.model_loader x))
              x Demo.ramp_scores [] eq_refl ramp_scores_length 5)
    as (values & indices & _ & Hspec & Hres); [lia|].
  rewrite Hr in Hres. injection Hres as Hres. rewrite Hres.
  change (Z.to_nat 5) with 5%nat in *.
  rewrite !entries_confidence by lia.
  exact (topk_strict _ _ _ _ Hspec ramp_probabilities_differ n m Hnm).
Defined.


(* ================================================================== *)
(** * Further properties: scaling of samples *)

Section Scaling.
Import Torch.

Lemma all_bytes_complete (b : byte) : In b all_bytes.
Proof.
  assert (H : existsb (Byte.eqb b) all_bytes = true)
    by (destruct b; vm_compute; reflexivity).
  apply existsb_exists in H. destruct H as (b' & Hin & E).
  apply Byte.byte_dec_bl in E. now subst.
Qed.

(** A property checked on all bytes holds of every byte. *)
Lemma forall_bytes (P : byte -> bool) :
  forallb P all_bytes = true -> forall b, P b = true.
Proof.
  intros H b. rewrite forallb_forall in H. apply H, all_bytes_complete.
Qed.

(** Scaling by 1/255 lands in [0, 1] and is a valid binary32 number. *)
Lemma byte_to_float_range (b : byte) :
  F32.valid (byte_to_float (byte_Z b)) = true /\
  F32.leb (S754_zero false) (byte_to_float (byte_Z b)) = true /\
  F32.leb (byte_to_float (byte_Z b)) (F32.of_Z 1) = true.
Proof.
  pose proof (forall_bytes
                (fun b => andb (F32.valid (byte_to_float (byte_Z b)))
                   (andb (F32.leb (S754_zero false) (byte_to_float (byte_Z b)))
                         (F32.leb (byte_to_float (byte_Z b)) (F32.of_Z 1)))))
    as H.
  specialize (H ltac:(vm_compute; reflexivity) b).
  cbv beta in H. apply andb_true_iff in H. destruct H as [H1 H].
  apply andb_true_iff in H. tauto.
Qed.

(** Scaling keeps the order of the samples, strictly. *)
Lemma byte_to_float_order (a b : byte) :
  F32.ltb (byte_to_float (byte_Z a)) (byte_to_float (byte_Z b))
  = (byte_Z a <? byte_Z b).
Proof.
  set (scaled := map (fun b => (byte_Z b, byte_to_float (byte_Z b))) all_bytes).
  assert (H : forallb (fun p => forallb (fun q =>
                Bool.eqb (F32.ltb (snd p) (snd q)) (fst p <? fst q)) scaled)
                scaled = true)
    by (vm_compute; reflexivity).
  rewrite forallb_forall in H.
  assert (Hin : forall c, In (byte_Z c, byte_to_float (byte_Z c)) scaled).
  { intros c. unfold scaled. apply in_map_iff. exists c.
    split; [reflexivity | apply all_bytes_complete]. }
  specialize (H _ (Hin a)). rewrite forallb_forall in H.
  specialize (H _ (Hin b)). now apply Bool.eqb_prop in H.
Qed.

End Scaling.

(** X1.  [normalize_image] keeps the shape of a uint8 array and maps each
    sample to a valid float32 in [0, 1]: 0 to 0.0, 255 to 1.0, and a
    smaller sample to a strictly smaller value. *)
Theorem normalize_image_unit_interval :
  forall (self : ImageProcessor.t) (shape : list Z) (data : list byte),
    let out := ImageProcessor.normalize_image self (shape, data) in
    fst out = shape /\
    List.length (snd out) = List.length data /\
    (forall i,
        nth i (snd out) S754_nan
        = if (i <? List.length data)%nat
          then Torch.byte_to_float (Torch.byte_Z (nth i data x00))
          else S754_nan) /\
    (forall v, In v (snd out) ->
        F32.valid v = true /\
        F32.leb (S754_zero false) v = true /\
        F32.leb v (F32.of_Z 1) = true) /\
    Torch.byte_to_float (Torch.byte_Z x00) = S754_zero false /\
    Torch.byte_to_float (Torch.byte_Z xff) = F32.of_Z 1 /\
    (forall i j, (i < List.length data)%nat -> (j < List.length data)%nat ->
        F32.ltb (nth i (snd out) S754_nan) (nth j (snd out) S754_nan)
        = (Torch.byte_Z (nth i data x00) <? Torch.byte_Z (nth j data x00))).
Proof.
  intros self shape data out. subst out. unfold ImageProcessor.normalize_image.
  cbn [fst snd].
  assert (Hnth : forall i,
             nth i (map (fun b => Torch.byte_to_float (Torch.byte_Z b)) data)
                 S754_nan
             = if (i <? List.length data)%nat
               then Torch.byte_to_float (Torch.byte_Z (nth i data x00))
               else S754_nan).
  { intros i. destruct (i <? List.length data)%nat eqn:E.
    - apply Nat.ltb_lt in E.
      rewrite (nth_indep _ S754_nan
                 ((fun b => Torch.byte_to_float (Torch.byte_Z b)) x00))
        by (now rewrite length_map).
      now rewrite (map_nth (fun b => Torch.byte_to_float (Torch.byte_Z b))).
    - apply Nat.ltb_ge in E. apply nth_overflow. now rewrite length_map. }
  split; [reflexivity|]. split; [apply length_map|]. split; [exact Hnth|].
  split.
  { intros v Hv. apply in_map_iff in Hv. destruct Hv as (b & <- & _).
    apply byte_to_float_range. }
  split; [vm_compute; reflexivity|]. split; [vm_compute; reflexivity|].
  intros i j Hi Hj. rewrite !Hnth.
  apply Nat.ltb_lt in Hi, Hj. rewrite Hi, Hj. apply byte_to_float_order.
Qed.

(* ================================================================== *)
(** * Further properties: the values of the normalized tensor *)

Section NormalizedValues.
Import PIL Torch ImageProcessor.
Context {lib : PIL.Lib}.

(** Each element of the tensor is the normalized value of some sample. *)
Lemma preprocess_image_values (img : image) :
  0 < width img -> 0 < height img -> bands (im_mode img) = 3 ->
  exists x,
    preprocess_image image_processor img = Ok x /\
    forall c y x', 0 <= c < 3 ->
      exists b, item x [0; c; y; x']
                = FloatV (norm_value image_processor (Z.to_nat c) b).
Proof.
  intros Hw Hh Hb. unfold preprocess_image, transform.
  destruct (Resize_ok (resize_size image_processor) img Hw Hh) as (r & Hr & Hm).
  rewrite Hr. cbn [bind].
  set (pic := CenterCrop (crop_size image_processor) r).
  destruct (CenterCrop_size (crop_size image_processor) r) as (Cm & Cw & Ch).
  fold pic in Cm, Cw, Ch.
  assert (Hb3 : bands (im_mode pic) = 3) by (rewrite Cm, Hm; exact Hb).
  destruct (to_tensor_bytes pic Hb3) as (Td & Ts & Ti).
  rewrite Cw, Ch in Ts.
  destruct (normalize_three (to_tensor pic) _ _ Td Ts) as (x' & Hn & _ & _ & Hi').
  rewrite Hn. cbn [bind]. eexists. split; [reflexivity|].
  intros c y z Hc. unfold unsqueeze0. cbn [item tl].
  destruct (Ti c y z) as (b & Hitem). exists b.
  exact (Hi' c y z b Hc Hitem).
Qed.

(** Within a channel the normalized values lie between those of the
    samples 0 and 255, and over all channels between the value of a red 0
    and the value of a blue 255. *)
Lemma norm_value_bounds (c : nat) (b : byte) :
  (c < 3)%nat ->
  F32.leb (norm_value image_processor c x00) (norm_value image_processor c b)
    = true /\
  F32.leb (norm_value image_processor c b) (norm_value image_processor c xff)
    = true /\
  F32.leb (norm_value image_processor 0 x00) (norm_value image_processor c b)
    = true /\
  F32.leb (norm_value image_processor c b) (norm_value image_processor 2 xff)
    = true.
Proof.
  intros Hc.
  pose proof (forall_bytes (fun b =>
    forallb (fun c =>
      andb (andb (F32.leb (norm_value image_processor c x00)
                          (norm_value image_processor c b))
                 (F32.leb (norm_value image_processor c b)
                          (norm_value image_processor c xff)))
           (andb (F32.leb (norm_value image_processor 0 x00)
                          (norm_value image_processor c b))
                 (F32.leb (norm_value image_processor c b)
                          (norm_value image_processor 2 xff))))
      [0; 1; 2]%nat)) as H.
  specialize (H ltac:(vm_compute; reflexivity) b). cbv beta in H.
  rewrite forallb_forall in H.
  assert (Hin : In c [0; 1; 2]%nat) by (simpl; lia).
  specialize (H c Hin).
  apply andb_true_iff in H. destruct H as [H1 H2].
  apply andb_true_iff in H1. apply andb_true_iff in H2. tauto.
Qed.

(** Within a channel a larger sample gives a strictly larger value. *)
Lemma norm_value_order (c : nat) (a b : byte) :
  (c < 3)%nat ->
  F32.ltb (norm_value image_processor c a) (norm_value image_processor c b)
  = (byte_Z a <? byte_Z b).
Proof.
  intros Hc.
  set (table := map (fun c =>
                  map (fun b => (byte_Z b, norm_value image_processor c b))
                      all_bytes) [0; 1; 2]%nat).
  assert (H : forallb (fun row =>
                forallb (fun p => forallb (fun q =>
                  Bool.eqb (F32.ltb (snd p) (snd q)) (fst p <? fst q)) row) row)
                table = true)
    by (vm_compute; reflexivity).
  rewrite forallb_forall in H.
  assert (Hrow : In (map (fun b => (byte_Z b, norm_value image_processor c b))
                         all_bytes) table).
  { unfold table. apply in_map_iff. exists c. split; [reflexivity|].
    simpl. lia. }
  specialize (H _ Hrow). rewrite forallb_forall in H.
  assert (Hin : forall d, In (byte_Z d, norm_value image_processor c d)
                   (map (fun b => (byte_Z b, norm_value image_processor c b))
                        all_bytes)).
  { intros d. apply in_map_iff. exists d.
    split; [reflexivity | apply all_bytes_complete]. }
  specialize (H _ (Hin a)). rewrite forallb_forall in H.
  specialize (H _ (Hin b)). now apply Bool.eqb_prop in H.
Qed.

End NormalizedValues.

Example norm_value_blue_max :
  ImageProcessor.norm_value ImageProcessor.image_processor 2 xff
  = S754_finite false 11072963 (-22).
Proof. vm_compute. reflexivity. Qed.

(** X2.  Every element of the tensor [preprocess_image] returns for a
    three-band image is the normalized value of some 8-bit sample; in
    channel [c] it lies between the values of the samples 0 and 255 of
    that channel, and in any channel between -2.117904 (red 0) and 2.64
    (blue 255).  Within a channel the normalization is strictly
    increasing in the sample. *)
Theorem normalized_value_range :
  forall (lib : PIL.Lib) (img : PIL.image),
    0 < PIL.width img -> 0 < PIL.height img ->
    PIL.bands (PIL.im_mode img) = 3 ->
    (exists x,
      ImageProcessor.preprocess_image ImageProcessor.image_processor img = Ok x /\
      forall c y x', 0 <= c < 3 ->
        exists v,
          Torch.item x [0; c; y; x'] = Torch.FloatV v /\
          F32.leb (ImageProcessor.norm_value ImageProcessor.image_processor
                     (Z.to_nat c) x00) v = true /\
          F32.leb v (ImageProcessor.norm_value ImageProcessor.image_processor
                       (Z.to_nat c) xff) = true /\
          F32.leb (S754_finite true 8883133 (-22)) v = true /\
          F32.leb v (S754_finite false 11072963 (-22)) = true) /\
    (forall c a b, (c < 3)%nat ->
        F32.ltb (ImageProcessor.norm_value ImageProcessor.image_processor c a)
                (ImageProcessor.norm_value ImageProcessor.image_processor c b)
        = (Torch.byte_Z a <? Torch.byte_Z b)).
Proof.
  intros lib img Hw Hh Hb. split; [|intros c a b; apply norm_value_order].
  destruct (preprocess_image_values img Hw Hh Hb) as (x & Hx & Hv).
  exists x. split; [exact Hx|].
  intros c y x' Hc. destruct (Hv c y x' Hc) as (b & Hitem).
  eexists. split; [exact Hitem|].
  assert (Hc3 : (Z.to_nat c < 3)%nat) by lia.
  destruct (norm_value_bounds (Z.to_nat c) b Hc3) as (B1 & B2 & B3 & B4).
  rewrite norm_value_red_min in B3. rewrite norm_value_blue_max in B4.
  repeat split; assumption.
Qed.

Lemma normalized_value_range_witness :
  exists x,
    ImageProcessor.preprocess_image (lib := Demo.lib)
      ImageProcessor.image_processor Demo.red_224 = Ok x /\
    forall c y x', 0 <= c < 3 ->
      exists v,
        Torch.item x [0; c; y; x'] = Torch.FloatV v /\
        F32.leb (ImageProcessor.norm_value ImageProcessor.image_processor
                   (Z.to_nat c) x00) v = true /\
        F32.leb v (ImageProcessor.norm_value ImageProcessor.image_processor
                     (Z.to_nat c) xff) = true /\
        F32.leb (S754_finite true 8883133 (-22)) v = true /\
        F32.leb v (S754_finite false 11072963 (-22)) = true.
Proof.
  apply (normalized_value_range Demo.lib Demo.red_224); reflexivity.
Defined.

(* ================================================================== *)
(** * Further properties: the geometry of [Resize] and [CenterCrop] *)

Section Geometry.
Import PIL Torch.
Context {lib : PIL.Lib}.

Lemma Resize_geometry (size : Z) (img : image) :
  0 < width img -> 0 < height img -> 0 < size ->
  exists r,
    Resize size img = Ok r /\
    im_mode r = im_mode img /\
    width r = (if width img <=? height img then size
               else size * width img / height img) /\
    height r = (if width img <=? height img
                then size * height img / width img else size) /\
    size <= width r /\ size <= height r.
Proof.
  intros Hw Hh Hs. unfold Resize, compute_resized_output_size.
  destruct (width img <=? height img) eqn:E.
  - apply Z.leb_le in E.
    destruct (width img =? 0) eqn:E0; [apply Z.eqb_eq in E0; lia|].
    cbn [bind].
    assert (Hlong : size <= size * height img / width img)
      by (apply Z.div_le_lower_bound; nia).
    destruct (andb _ _) eqn:Esame.
    + apply andb_true_iff in Esame. destruct Esame as [E1 E2].
      apply Z.eqb_eq in E1, E2.
      exists img. repeat split; try assumption; lia.
    + eexists. split; [reflexivity|]. cbn [im_mode width height PIL.resize].
      repeat split; try assumption; lia.
  - apply Z.leb_gt in E.
    destruct (height img =? 0) eqn:E0; [apply Z.eqb_eq in E0; lia|].
    cbn [bind].
    assert (Hlong : size <= size * width img / height img)
      by (apply Z.div_le_lower_bound; nia).
    destruct (andb _ _) eqn:Esame.
    + apply andb_true_iff in Esame. destruct Esame as [E1 E2].
      apply Z.eqb_eq in E1, E2.
      exists img. repeat split; try assumption; lia.
    + eexists. split; [reflexivity|]. cbn [im_mode width height PIL.resize].
      repeat split; try assumption; lia.
Qed.

(** The crop offset [round(d / 2.0)] for a margin [d >= 0]: inside the
    margin, and centred up to one pixel. *)
Lemma round_half_centred (d : Z) :
  0 <= d ->
  0 <= round_half d <= d /\ -1 <= d - 2 * round_half d <= 1.
Proof.
  intros Hd. unfold round_half.
  pose proof (Z.div_mod d 2 ltac:(lia)).
  pose proof (Z.mod_pos_bound d 2 ltac:(lia)).
  destruct (d mod 2 =? 0) eqn:E.
  - apply Z.eqb_eq in E. lia.
  - apply Z.eqb_neq in E. destruct (Z.even (d / 2)); lia.
Qed.

Lemma crop_inside (im : image) (left top w h x y : Z) :
  0 <= x + left < width im -> 0 <= y + top < height im ->
  getpixel (PIL.crop im left top w h) x y = getpixel im (x + left) (y + top).
Proof.
  intros Hx Hy. cbn [getpixel PIL.crop].
  replace (0 <=? x + left) with true by (symmetry; apply Z.leb_le; lia).
  replace (x + left <? width im) with true by (symmetry; apply Z.ltb_lt; lia).
  replace (0 <=? y + top) with true by (symmetry; apply Z.leb_le; lia).
  replace (y + top <? height im) with true by (symmetry; apply Z.ltb_lt; lia).
  reflexivity.
Qed.

Lemma to_tensor_crop (im : image) (left top w h c x y : Z) :
  0 <= x + left < width im -> 0 <= y + top < height im ->
  item (to_tensor (PIL.crop im left top w h)) [c; y; x]
  = item (to_tensor im) [c; y + top; x + left].
Proof.
  intros Hx Hy.
  destruct im as [m wd ht pal px]. cbn [width height] in Hx, Hy.
  assert (Hc : andb (andb (0 <=? x + left) (x + left <? wd))
                    (andb (0 <=? y + top) (y + top <? ht)) = true).
  { rewrite !andb_true_iff, !Z.leb_le, !Z.ltb_lt. lia. }
  unfold to_tensor.
  destruct m; cbn [im_mode getpixel PIL.crop width height palette item];
    rewrite Hc; reflexivity.
Qed.

(** Without padding, [CenterCrop] is a crop of the image itself. *)
Lemma CenterCrop_no_padding (size : Z) (img : image) :
  size <= width img -> size <= height img ->
  CenterCrop size img
  = PIL.crop img (round_half (width img - size))
             (round_half (height img - size)) size size.
Proof.
  intros Hw Hh. unfold CenterCrop.
  replace (width img <? size) with false by (symmetry; apply Z.ltb_ge; lia).
  replace (height img <? size) with false by (symmetry; apply Z.ltb_ge; lia).
  reflexivity.
Qed.

(** An image whose shorter side is already [size] is not resampled. *)
Lemma Resize_same_size (size : Z) (img : image) :
  0 < size -> Z.min (width img) (height img) = size ->
  Resize size img = Ok img.
Proof.
  intros Hs Hmin. unfold Resize, compute_resized_output_size.
  destruct (width img <=? height img) eqn:E.
  - apply Z.leb_le in E. assert (Hw : width img = size) by lia.
    rewrite Hw. replace (size =? 0) with false by (symmetry; apply Z.eqb_neq; lia).
    cbn [bind]. rewrite (Z.mul_comm size), Z.div_mul by lia.
    now rewrite !Z.eqb_refl.
  - apply Z.leb_gt in E. assert (Hh : height img = size) by lia.
    rewrite Hh. replace (size =? 0) with false by (symmetry; apply Z.eqb_neq; lia).
    cbn [bind]. rewrite (Z.mul_comm size), Z.div_mul by lia.
    now rewrite !Z.eqb_refl.
Qed.

Lemma to_tensor_sample (pic : image) (c y x v : Z) :
  bands (im_mode pic) = 3 ->
  sample (im_mode pic) (getpixel pic x y) c = IntV v ->
  item (to_tensor pic) [c; y; x] = FloatV (byte_to_float v).
Proof.
  destruct pic as [m w h pal px]. cbn [im_mode getpixel]. intros Hb Hs.
  destruct m; try discriminate Hb; unfold to_tensor;
    cbn [im_mode getpixel item]; rewrite Hs; reflexivity.
Qed.

End Geometry.

(** X3.  [Resize(256)] on an image of positive size keeps the mode,
    makes the shorter side exactly 256 and the longer side the integer
    quotient of 256 * long by short, which is at least 256 and keeps the
    aspect ratio up to less than one pixel; a side that was not the
    longer one does not become the longer one. *)
Theorem resize_shorter_side :
  forall (lib : PIL.Lib) (img : PIL.image),
    0 < PIL.width img -> 0 < PIL.height img ->
    exists r,
      Torch.Resize 256 img = Ok r /\
      PIL.im_mode r = PIL.im_mode img /\
      Z.min (PIL.width r) (PIL.height r) = 256 /\
      (PIL.width img <= PIL.height img -> PIL.width r = 256) /\
      (PIL.height img <= PIL.width img -> PIL.height r = 256) /\
      Z.max (PIL.width r) (PIL.height r)
      = 256 * Z.max (PIL.width img) (PIL.height img)
        / Z.min (PIL.width img) (PIL.height img) /\
      Z.max (PIL.width r) (PIL.height r) * Z.min (PIL.width img) (PIL.height img)
      <= 256 * Z.max (PIL.width img) (PIL.height img)
      < (Z.max (PIL.width r) (PIL.height r) + 1)
        * Z.min (PIL.width img) (PIL.height img).
Proof.
  intros lib img Hw Hh.
  destruct (Resize_geometry 256 img Hw Hh ltac:(lia))
    as (r & Hr & Hm & Ew & Eh & Bw & Bh).
  exists r. split; [exact Hr|]. split; [exact Hm|].
  destruct (PIL.width img <=? PIL.height img) eqn:E.
  - apply Z.leb_le in E.
    rewrite (Z.max_r (PIL.width img)), (Z.min_l (PIL.width img)) by lia.
    rewrite Z.min_l, Z.max_r by lia.
    pose proof (Z.mul_div_le (256 * PIL.height img) (PIL.width img) Hw).
    pose proof (Z.mul_succ_div_gt (256 * PIL.height img) (PIL.width img) Hw).
    split; [exact Ew|]. split; [intros _; exact Ew|].
    split.
    { intros Hle. assert (Hsame : PIL.height img = PIL.width img) by lia.
      rewrite Eh, Hsame, Z.div_mul by lia. reflexivity. }
    split; [exact Eh|]. rewrite Eh. lia.
  - apply Z.leb_gt in E.
    rewrite (Z.max_l (PIL.width img)), (Z.min_r (PIL.width img)) by lia.
    pose proof (Z.mul_div_le (256 * PIL.width img) (PIL.height img) Hh).
    pose proof (Z.mul_succ_div_gt (256 * PIL.width img) (PIL.height img) Hh).
    rewrite Z.min_r, Z.max_l by lia.
    split; [exact Eh|]. split; [intros Hle; lia|].
    split; [intros _; exact Eh|].
    split; [exact Ew|]. rewrite Ew. lia.
Qed.

Lemma resize_shorter_side_witness :
  exists r,
    Torch.Resize (lib := Demo.lib) 256 Demo.rgba_100x50 = Ok r /\
    PIL.im_mode r = PIL.M_RGBA /\
    Z.min (PIL.width r) (PIL.height r) = 256 /\
    (100 <= 50 -> PIL.width r = 256) /\
    (50 <= 100 -> PIL.height r = 256) /\
    Z.max (PIL.width r) (PIL.height r) = 256 * Z.max 100 50 / Z.min 100 50 /\
    Z.max (PIL.width r) (PIL.height r) * Z.min 100 50
    <= 256 * Z.max 100 50
    < (Z.max (PIL.width r) (PIL.height r) + 1) * Z.min 100 50.
Proof.
  apply (resize_shorter_side Demo.lib Demo.rgba_100x50); reflexivity.
Defined.

(** X4.  An image of three 8-bit bands whose shorter side is 256 is not
    resampled: element (c, y, x) of the tensor [preprocess_image] returns
    is the normalized value of band [c] of the source pixel at column
    [x + round((w - 224) / 2)], row [y + round((h - 224) / 2)]. *)
Theorem preprocess_without_resampling :
  forall (lib : PIL.Lib) (img : PIL.image),
    PIL.bands (PIL.im_mode img) = 3 ->
    Z.min (PIL.width img) (PIL.height img) = 256 ->
    exists x,
      ImageProcessor.preprocess_image ImageProcessor.image_processor img = Ok x /\
      forall c y x' b,
        0 <= c < 3 -> 0 <= y < 224 -> 0 <= x' < 224 ->
        Torch.sample (PIL.im_mode img)
          (PIL.getpixel img (x' + Torch.round_half (PIL.width img - 224))
                            (y + Torch.round_half (PIL.height img - 224))) c
        = Torch.IntV (Torch.byte_Z b) ->
        Torch.item x [0; c; y; x']
        = Torch.FloatV (ImageProcessor.norm_value
                          ImageProcessor.image_processor (Z.to_nat c) b).
Proof.
  intros lib img Hb Hmin.
  unfold ImageProcessor.preprocess_image, ImageProcessor.transform.
  change (ImageProcessor.resize_size ImageProcessor.image_processor) with 256.
  change (ImageProcessor.crop_size ImageProcessor.image_processor) with 224.
  rewrite (Resize_same_size 256 img ltac:(lia) Hmin). cbn [bind].
  set (pic := Torch.CenterCrop 224 img).
  destruct (CenterCrop_size 224 img) as (Cm & Cw & Ch).
  fold pic in Cm, Cw, Ch.
  assert (Hb3 : PIL.bands (PIL.im_mode pic) = 3) by (now rewrite Cm).
  destruct (to_tensor_bytes pic Hb3) as (Td & Ts & _).
  rewrite Cw, Ch in Ts.
  destruct (normalize_three (Torch.to_tensor pic) _ _ Td Ts)
    as (x' & Hn & _ & _ & Hi').
  rewrite Hn. cbn [bind]. eexists. split; [reflexivity|].
  intros c y z b Hc Hy Hz Hs.
  unfold Torch.unsqueeze0. cbn [Torch.item tl].
  apply (Hi' c y z b Hc).
  destruct (round_half_centred (PIL.width img - 224) ltac:(lia)) as [L1 _].
  destruct (round_half_centred (PIL.height img - 224) ltac:(lia)) as [T1 _].
  subst pic.
  rewrite (CenterCrop_no_padding 224 img ltac:(lia) ltac:(lia)).
  rewrite to_tensor_crop by lia.
  now apply to_tensor_sample.
Qed.

Lemma preprocess_without_resampling_witness :
  exists x,
    ImageProcessor.preprocess_image (lib := Demo.lib)
      ImageProcessor.image_processor (Demo.solid PIL.M_RGB 256 300 (x10, x20, x30))
    = Ok x /\
    forall c y x' b,
      0 <= c < 3 -> 0 <= y < 224 -> 0 <= x' < 224 ->
      Torch.sample PIL.M_RGB (x10, x20, x30) c = Torch.IntV (Torch.byte_Z b) ->
      Torch.item x [0; c; y; x']
      = Torch.FloatV (ImageProcessor.norm_value
                        ImageProcessor.image_processor (Z.to_nat c) b).
Proof.
  apply (preprocess_without_resampling Demo.lib
           (Demo.solid PIL.M_RGB 256 300 (x10, x20, x30))); reflexivity.
Defined.

(** X5.  In the pipeline [CenterCrop(224)] never pads: after
    [Resize(256)] both sides are at least 256, the crop window lies
    inside the resized image with a margin of at least 16 pixels on every
    side (exactly 16 along the shorter side), and each element of the
    cropped tensor is an element of the resized image's tensor. *)
Theorem pipeline_crop_margins :
  forall (lib : PIL.Lib) (img : PIL.image),
    0 < PIL.width img -> 0 < PIL.height img ->
    exists r,
      Torch.Resize 256 img = Ok r /\
      let left := Torch.round_half (PIL.width r - 224) in
      let top := Torch.round_half (PIL.height r - 224) in
      Torch.CenterCrop 224 r = PIL.crop r left top 224 224 /\
      16 <= left /\ left + 224 + 16 <= PIL.width r /\
      16 <= top /\ top + 224 + 16 <= PIL.height r /\
      (PIL.width img <= PIL.height img -> left = 16) /\
      (PIL.height img <= PIL.width img -> top = 16) /\
      forall c y x, 0 <= x < 224 -> 0 <= y < 224 ->
        Torch.item (Torch.to_tensor (Torch.CenterCrop 224 r)) [c; y; x]
        = Torch.item (Torch.to_tensor r) [c; y + top; x + left].
Proof.
  intros lib img Hw Hh.
  destruct (Resize_geometry 256 img Hw Hh ltac:(lia))
    as (r & Hr & _ & Ew & Eh & Bw & Bh).
  exists r. split; [exact Hr|]. intros left top.
  destruct (round_half_centred (PIL.width r - 224) ltac:(lia)) as [L1 L2].
  destruct (round_half_centred (PIL.height r - 224) ltac:(lia)) as [T1 T2].
  fold left in L1, L2. fold top in T1, T2.
  split; [apply CenterCrop_no_padding; lia|].
  repeat (split; [lia|]).
  split.
  { intros Hle. subst left.
    apply Z.leb_le in Hle. rewrite Hle in Ew. now rewrite Ew. }
  split.
  { intros Hle. subst top.
    destruct (PIL.width img <=? PIL.height img) eqn:E.
    - apply Z.leb_le in E.
      assert (Hsame : PIL.height img = PIL.width img) by lia.
      rewrite Eh, Hsame, Z.div_mul by lia. reflexivity.
    - now rewrite Eh. }
  intros c y x Hx Hy.
  rewrite (CenterCrop_no_padding 224 r) by lia.
  apply to_tensor_crop; fold left; fold top; lia.
Qed.

Lemma pipeline_crop_margins_witness :
  exists r,
    Torch.Resize (lib := Demo.lib) 256 Demo.rgba_100x50 = Ok r /\
    let left := Torch.round_half (PIL.width r - 224) in
    let top := Torch.round_half (PIL.height r - 224) in
    Torch.CenterCrop 224 r = PIL.crop r left top 224 224 /\
    16 <= left /\ left + 224 + 16 <= PIL.width r /\
    16 <= top /\ top + 224 + 16 <= PIL.height r /\
    (100 <= 50 -> left = 16) /\
    (50 <= 100 -> top = 16) /\
    forall c y x, 0 <= x < 224 -> 0 <= y < 224 ->
      Torch.item (Torch.to_tensor (Torch.CenterCrop 224 r)) [c; y; x]
      = Torch.item (Torch.to_tensor r) [c; y + top; x + left].
Proof.
  apply (pipeline_crop_margins Demo.lib Demo.rgba_100x50); reflexivity.
Defined.

(* ================================================================== *)
(** * Further properties: what a request does to the process *)

Section RequestTrace.
Import Http.
Context {lib : PIL.Lib} {net : ModelLoader.Net}.

Lemma predict_top_k_invoked (s : ModelLoader.state) x k :
  ModelLoader.invoked (fst (ModelLoader.predict_top_k s x k))
  = x :: ModelLoader.invoked s.
Proof.
  rewrite predict_top_k_state.
  now destruct (probabilities_model s x) as (_ & _ & ->).
Qed.

Lemma predict_invoked (s : ModelLoader.state) x :
  ModelLoader.invoked (fst (ModelLoader.predict s x))
  = x :: ModelLoader.invoked s.
Proof.
  rewrite predict_state.
  now destruct (probabilities_model s x) as (_ & _ & ->).
Qed.

(** The loader after a 200 of [classify_image]. *)
Lemma classify_success_state order loader name contents (body : App.body) :
  snd (App.classify_image order loader name contents) = Json body ->
  exists x,
    ImageProcessor.process_from_bytes ImageProcessor.image_processor contents
      = Ok x /\
    fst (App.classify_image order loader name contents)
    = fst (ModelLoader.predict_top_k (fst (ModelLoader.predict loader x)) x 5).
Proof.
  unfold App.classify_image.
  destruct (negb _); [discriminate|].
  destruct (ImageProcessor.process_from_bytes _ contents) as [x|e] eqn:E0;
    [|discriminate].
  destruct (ModelLoader.predict loader x) as [l1 [[c p]|e]] eqn:E1;
    [|discriminate].
  destruct (ModelLoader.predict_top_k l1 x 5) as [l2 [r|e]] eqn:E2;
    [|discriminate].
  intros _. exists x. split; [reflexivity|].
  rewrite E1. cbn [fst]. now rewrite E2.
Qed.

End RequestTrace.

(** X6.  A successful request to [POST /classify] evaluates the network
    exactly twice, both times on the tensor [process_from_bytes] made of
    the upload; a request answered with 400 leaves the loader as it
    was. *)
Theorem classify_evaluates_twice :
  forall (lib : PIL.Lib) (net : ModelLoader.Net) (order : list string)
         (loader : ModelLoader.state) (name : string) (contents : list byte),
    let loader' := fst (App.classify_image order loader name contents) in
    let response := snd (App.classify_image order loader name contents) in
    (Http.status response = 200 ->
     exists x,
       ImageProcessor.process_from_bytes ImageProcessor.image_processor
         contents = Ok x /\
       ModelLoader.invoked loader' = x :: x :: ModelLoader.invoked loader /\
       ModelLoader.model loader' <> None) /\
    (Http.status response = 400 -> loader' = loader).
Proof.
  intros lib net order loader name contents loader' response.
  subst loader' response. split.
  - intros Hs.
    destruct (snd (App.classify_image order loader name contents))
      as [code detail|body] eqn:E.
    + exfalso. revert E Hs. unfold App.classify_image.
      destruct (negb _); [intros E; injection E as <- _; discriminate|].
      destruct (ImageProcessor.process_from_bytes _ contents) as [x|e];
        [|intros E; injection E as <- _; discriminate].
      destruct (ModelLoader.predict loader x) as [l1 [[c p]|e]];
        [|intros E; injection E as <- _; discriminate].
      destruct (ModelLoader.predict_top_k l1 x 5) as [l2 [r|e]];
        [discriminate | intros E; injection E as <- _; discriminate].
    + destruct (classify_success_state order loader name contents body E)
        as (x & Hx & Hst).
      exists x. split; [exact Hx|]. rewrite Hst.
      rewrite predict_top_k_invoked, predict_invoked. split; [reflexivity|].
      rewrite predict_top_k_state.
      destruct (probabilities_model (fst (ModelLoader.predict loader x)) x)
        as (Hm & _ & _).
      rewrite Hm. unfold ModelLoader.load_model.
      destruct (ModelLoader.model (fst (ModelLoader.predict loader x))) eqn:Em;
        [rewrite Em|]; discriminate.
  - intros Hs. apply classify_status_400 in Hs.
    now rewrite (classify_rejects order loader name contents Hs).
Qed.

Lemma classify_evaluates_twice_witness :
  exists x,
    ImageProcessor.process_from_bytes (lib := Demo.lib)
      ImageProcessor.image_processor Demo.red_bytes = Ok x /\
    ModelLoader.invoked
      (fst (App.classify_image (lib := Demo.lib) (net := Demo.net)
              Upload.allowed_extensions ModelLoader.model_loader
              "red.jpg" Demo.red_bytes)) = [x; x] /\
    ModelLoader.model
      (fst (App.classify_image (lib := Demo.lib) (net := Demo.net)
              Upload.allowed_extensions ModelLoader.model_loader
              "red.jpg" Demo.red_bytes)) <> None.
Proof.
  destruct (classify_evaluates_twice Demo.lib Demo.net
              Upload.allowed_extensions ModelLoader.model_loader
              "red.jpg" Demo.red_bytes) as [H _].
  apply H.
  destruct (classify_succeeds (lib := Demo.lib) (net := Demo.net)
              Upload.allowed_extensions ModelLoader.model_loader "red.jpg"
              Demo.red_bytes Demo.red_224 net_ok eq_refl eq_refl
              eq_refl eq_refl) as (body & Hbody).
  rewrite Hbody. reflexivity.
Defined.

(** X7.  Bytes that PIL cannot decode, under an accepted filename, are
    answered with 500 and the decoder's message after the fixed prefix.
    [POST /classify] then leaves the loader untouched (nothing is loaded,
    nothing evaluated); [POST /predict] has constructed the classifier
    before decoding, and has not evaluated the network. *)
Theorem undecodable_upload :
  forall (lib : PIL.Lib) (net : ModelLoader.Net) (order : list string)
         (loader : ModelLoader.state) (g : Classifier.state)
         (name : string) (contents : list byte) (e : exn),
    PIL.Image_open contents = Raise e ->
    (Upload.classify_accepts name = true ->
     App.classify_image order loader name contents
     = (loader, Http.HTTPException 500 ("图像处理失败: " ++ Py.str e))) /\
    (Upload.validate_file_type name = true ->
     Api.predict_image g name contents
     = (fst (Classifier.get_classifier g),
        Http.HTTPException 500 ("图像分类失败: " ++ Py.str e)) /\
     Classifier._classifier_instance (fst (Api.predict_image g name contents))
       <> None /\
     Classifier.evaluated (fst (Api.predict_image g name contents))
       = Classifier.evaluated g).
Proof.
  intros lib net order loader g name contents e Hopen. split.
  - intros Hacc. unfold App.classify_image.
    unfold Upload.classify_accepts in Hacc. rewrite Hacc. cbv [negb].
    unfold ImageProcessor.process_from_bytes,
      ImageProcessor.load_image_from_bytes.
    rewrite Hopen. reflexivity.
  - intros Hacc.
    assert (E : Api.predict_image g name contents
                = (fst (Classifier.get_classifier g),
                   Http.HTTPException 500 ("图像分类失败: " ++ Py.str e))).
    { unfold Api.predict_image. rewrite Hacc. cbv [negb].
      destruct (Classifier.get_classifier g) as [g1 h].
      unfold Classifier.predict, Classifier.process_image.
      rewrite Hopen. reflexivity. }
    rewrite E. split; [reflexivity|]. cbn [fst].
    unfold Classifier.get_classifier.
    destruct (Classifier._classifier_instance g) eqn:Ei; cbn [fst].
    + rewrite Ei. split; [discriminate | reflexivity].
    + split; [discriminate | reflexivity].
Qed.

Lemma undecodable_upload_witness :
  App.classify_image (lib := Demo.lib) (net := Demo.net)
    Upload.allowed_extensions ModelLoader.model_loader "broken.jpg" [x00; x00]
  = (ModelLoader.model_loader,
     Http.HTTPException 500 ("图像处理失败: " ++ Py.str UnidentifiedImageError))
  /\
  Api.predict_image (lib := Demo.lib) (net := Demo.net)
    Classifier.init "broken.jpg" [x00; x00]
  = (fst (Classifier.get_classifier Classifier.init),
     Http.HTTPException 500 ("图像分类失败: " ++ Py.str UnidentifiedImageError)).
Proof.
  destruct (undecodable_upload Demo.lib Demo.net Upload.allowed_extensions
              ModelLoader.model_loader Classifier.init "broken.jpg"
              [x00; x00] UnidentifiedImageError eq_refl) as [A B].
  split; [apply A; reflexivity | apply B; reflexivity].
Defined.

(* ================================================================== *)
(** * Further properties: rounding and the range of confidences *)


(** X8.  [round(x, 4)] as the handler uses it moves a value by at most
    0.00005, is monotone, leaves multiples of 0.0001 unchanged and keeps
    values of [0, 1] within [0, 1]. *)
Theorem round4_accuracy :
  forall x y : R,
    (Rabs (Prob.round4 x - x) <= 1 / 20000)%R /\
    ((x <= y)%R -> (Prob.round4 x <= Prob.round4 y)%R) /\
    (forall z : Z, Prob.round4 (IZR z / 10000) = (IZR z / 10000)%R) /\
    ((0 <= x <= 1)%R -> (0 <= Prob.round4 x <= 1)%R).
Proof.
  intros x y.
  assert (Hfix : forall z : Z, Prob.round4 (IZR z / 10000) = (IZR z / 10000)%R).
  { intros z. unfold Prob.round4.
    replace (IZR z / 10000 * 10000)%R with (IZR z) by (field; lra).
    now rewrite round_half_even_IZR. }
  split; [|split; [apply round4_mono|split; [exact Hfix|]]].
  - unfold Prob.round4.
    pose proof (round_half_even_error (x * 10000)) as H.
    apply Rabs_le. lra.
  - intros [H0 H1]. split.
    + replace 0%R with (Prob.round4 (IZR 0 / 10000)).
      * apply round4_mono. lra.
      * rewrite Hfix. lra.
    + replace 1%R with (Prob.round4 (IZR 10000 / 10000)).
      * apply round4_mono. lra.
      * rewrite Hfix. lra.
Qed.

(* ================================================================== *)
(** * Further properties: what the adapter returns *)

Section AdapterValues.
Import Torch Prob ModelLoader.
Local Open Scope R_scope.

Lemma sum_le_length (l : list R) (m : R) :
  (forall p, In p l -> p <= m) -> sum l <= INR (List.length l) * m.
Proof.
  induction l as [|p l IH]; intros H.
  - simpl. lra.
  - change (sum (p :: l)) with (p + sum l).
    change (List.length (p :: l)) with (S (List.length l)).
    rewrite S_INR.
    assert (p <= m) by (apply H; now left).
    assert (sum l <= INR (List.length l) * m)
      by (apply IH; intros q Hq; apply H; now right).
    lra.
Qed.

End AdapterValues.

(** X9.  On a network that meets its contract, [predict] on a
    well-shaped tensor returns the category of a class of maximal
    probability together with that probability: no class has a larger
    one, and the confidence lies in [0, 1]. *)
Theorem predict_returns_maximum :
  forall (net : ModelLoader.Net) (self : ModelLoader.state) (x : Torch.tensor),
    ModelLoader.NetOK net ->
    Torch.t_dtype x = Torch.float32 ->
    Torch.shape x = [1; 3; 224; 224] ->
    exists row i,
      ModelLoader.forward (List.length (ModelLoader.invoked self)) x
        = Ok [row] /\
      (i < 1000)%nat /\
      snd (ModelLoader.predict self x)
        = Ok (nth i ModelLoader.categories "", nth i (Prob.softmax row) 0%R) /\
      (forall j, (j < 1000)%nat ->
         (nth j (Prob.softmax row) 0 <= nth i (Prob.softmax row) 0)%R) /\
      (0 <= nth i (Prob.softmax row) 0 <= 1)%R.
Proof.
  intros net self x Hok Hd Hs.
  destruct (probabilities_ok Hok self x Hd Hs) as (row & Hf & Hl & _).
  destruct (predict_row Hok self x row [] Hf Hl) as (v & i & _ & Hspec & Hp).
  pose proof (Prob.topk_values_at _ _ _ _ Hspec 0%nat Nat.lt_0_1) as Hv.
  cbn [nth] in Hv.
  pose proof (Prob.topk_indices_range _ _ _ _ Hspec i (or_introl eq_refl)) as Hi.
  rewrite softmax_length, Hl in Hi.
  exists row, i. split; [exact Hf|]. split; [exact Hi|].
  split; [now rewrite Hp, Hv|]. split.
  - intros j Hj. rewrite <- Hv.
    apply (topk_head_max _ _ _ _ Hspec Nat.lt_0_1 j).
    now rewrite softmax_length, Hl.
  - assert (Hin : In (nth i (Prob.softmax row) 0%R) (Prob.softmax row))
      by (apply nth_In; rewrite softmax_length; lia).
    pose proof (softmax_range row _ Hin) as Hr. lra.
Qed.

Lemma predict_returns_maximum_witness :
  exists row i,
    ModelLoader.forward (Net := Demo.net_ramp)
      (List.length (ModelLoader.invoked ModelLoader.model_loader))
      Demo.zero_batch = Ok [row] /\
    (i < 1000)%nat /\
    snd (ModelLoader.predict (net := Demo.net_ramp) ModelLoader.model_loader
           Demo.zero_batch)
      = Ok (nth i (ModelLoader.categories (Net := Demo.net_ramp)) "",
            nth i (Prob.softmax row) 0%R) /\
    (forall j, (j < 1000)%nat ->
       (nth j (Prob.softmax row) 0 <= nth i (Prob.softmax row) 0)%R) /\
    (0 <= nth i (Prob.softmax row) 0 <= 1)%R.
Proof.
  apply (predict_returns_maximum Demo.net_ramp ModelLoader.model_loader
           Demo.zero_batch net_ramp_ok); reflexivity.
Defined.

Section TopkUnique.
Import Prob.
Local Open Scope R_scope.

Lemma NoDup_firstn (n : nat) (l : list nat) : NoDup l -> NoDup (firstn n l).
Proof.
  intros H. rewrite <- (firstn_skipn n l) in H.
  exact (NoDup_app_remove_r _ _ H).
Qed.

(** Position by position, one answer of [torch.topk] is not above
    another. *)
Lemma topk_nth_le (xs vs1 vs2 : list R) (is1 is2 : list nat) (k n : nat) :
  topk_spec xs k vs1 is1 -> topk_spec xs k vs2 is2 -> (n < k)%nat ->
  nth n vs1 0 <= nth n vs2 0.
Proof.
  intros S1 S2 Hn.
  destruct (Rle_or_lt (nth n vs1 0) (nth n vs2 0)) as [|Hlt]; [assumption|].
  exfalso.
  destruct S1 as [Hvl1 Hil1 Hnd1 Hr1 Hat1 Hs1 Hl1].
  destruct S2 as [Hvl2 Hil2 Hnd2 Hr2 Hat2 Hs2 Hl2].
  assert (Hincl : incl (firstn (S n) is1) (firstn n is2)).
  { intros j Hj.
    destruct (In_nth _ _ 0%nat Hj) as (m & Hm & Ej).
    rewrite length_firstn in Hm. rewrite nth_firstn in Ej.
    assert (Hm' : (m < S n)%nat) by lia.
    apply Nat.ltb_lt in Hm'. rewrite Hm' in Ej. apply Nat.ltb_lt in Hm'.
    assert (Hxj : nth n vs2 0 < nth j xs 0).
    { rewrite <- Ej, <- (Hat1 m) by lia.
      assert (nth n vs1 0 <= nth m vs1 0) by (apply Hs1; lia). lra. }
    assert (Hj2 : In j is2).
    { destruct (in_dec Nat.eq_dec j is2) as [|Hnot]; [assumption|].
      exfalso.
      assert (Hjr : (j < List.length xs)%nat)
        by (rewrite <- Ej; apply Hr1, nth_In; lia).
      assert (nth j xs 0 <= nth n vs2 0)
        by (apply (Hl2 j Hjr Hnot), nth_In; lia).
      lra. }
    destruct (In_nth _ _ 0%nat Hj2) as (m2 & Hm2 & Ej2).
    assert (Hlt2 : (m2 < n)%nat).
    { destruct (Nat.lt_ge_cases m2 n) as [|Hge]; [assumption|].
      exfalso. assert (nth m2 vs2 0 <= nth n vs2 0) by (apply Hs2; lia).
      rewrite (Hat2 m2), Ej2 in H by lia. lra. }
    rewrite <- Ej2.
    replace (nth m2 is2 0%nat) with (nth m2 (firstn n is2) 0%nat).
    - apply nth_In. rewrite length_firstn. lia.
    - rewrite nth_firstn. apply Nat.ltb_lt in Hlt2. now rewrite Hlt2. }
  pose proof (NoDup_incl_length (NoDup_firstn (S n) is1 Hnd1) Hincl) as Hlen.
  rewrite !length_firstn in Hlen. lia.
Qed.

(** The values [torch.topk] returns are determined; only the indices of
    equal values are not. *)
Lemma topk_values_unique (xs vs1 vs2 : list R) (is1 is2 : list nat) (k : nat) :
  topk_spec xs k vs1 is1 -> topk_spec xs k vs2 is2 -> vs1 = vs2.
Proof.
  intros S1 S2. apply (nth_ext _ _ 0 0).
  - now rewrite (topk_values_length _ _ _ _ S1), (topk_values_length _ _ _ _ S2).
  - intros n Hn. rewrite (topk_values_length _ _ _ _ S1) in Hn.
    apply Rle_antisym; eapply topk_nth_le; eassumption.
Qed.

Lemma entries_confidences {net : ModelLoader.Net}
      (values : list R) (indices : list nat) :
  map ModelLoader.confidence
      (ModelLoader.entries values indices 0 (List.length values))
  = values.
Proof.
  set (d := {| ModelLoader.class_name := ""; ModelLoader.confidence := 0 |}).
  apply (nth_ext _ _ (ModelLoader.confidence d) 0).
  - now rewrite length_map, entries_length.
  - intros n Hn. rewrite length_map, entries_length in Hn.
    rewrite (map_nth ModelLoader.confidence).
    now apply entries_confidence.
Qed.

End TopkUnique.


(** X11.  The confidences [predict_top_k] returns do not depend on how
    [torch.topk] orders equal values: two libraries that meet the
    contract, over the same network, give the same list of confidences
    (the classes may differ among ties). *)
Theorem top_k_confidences_determined :
  forall (net1 net2 : ModelLoader.Net) (self : ModelLoader.state)
         (x : Torch.tensor) (k : Z),
    ModelLoader.NetOK net1 -> ModelLoader.NetOK net2 ->
    (forall n y, ModelLoader.forward (Net := net1) n y
                 = ModelLoader.forward (Net := net2) n y) ->
    Torch.t_dtype x = Torch.float32 ->
    Torch.shape x = [1; 3; 224; 224] ->
    1 <= k <= 1000 ->
    exists results1 results2,
      snd (ModelLoader.predict_top_k (net := net1) self x k) = Ok results1 /\
      snd (ModelLoader.predict_top_k (net := net2) self x k) = Ok results2 /\
      map ModelLoader.confidence results1 = map ModelLoader.confidence results2.
Proof.
  intros net1 net2 self x k Hok1 Hok2 Hsame Hd Hs Hk.
  destruct (predict_top_k_ok (net := net1) Hok1 self x k Hd Hs Hk)
    as (row1 & vs1 & is1 & Hf1 & _ & _ & Hspec1 & Hres1).
  destruct (predict_top_k_ok (net := net2) Hok2 self x k Hd Hs Hk)
    as (row2 & vs2 & is2 & Hf2 & _ & _ & Hspec2 & Hres2).
  rewrite Hsame, Hf2 in Hf1. injection Hf1 as <-.
  eexists. eexists. split; [exact Hres1|]. split; [exact Hres2|].
  rewrite <- (Prob.topk_values_length _ _ _ _ Hspec1) at 1.
  rewrite <- (Prob.topk_values_length _ _ _ _ Hspec2).
  rewrite !entries_confidences.
  exact (topk_values_unique _ _ _ _ _ _ Hspec1 Hspec2).
Qed.

Lemma top_k_confidences_determined_witness :
  exists results1 results2,
    snd (ModelLoader.predict_top_k (net := Demo.net) ModelLoader.model_loader
           Demo.zero_batch 5) = Ok results1 /\
    snd (ModelLoader.predict_top_k (net := Demo.net_rev)
           ModelLoader.model_loader Demo.zero_batch 5) = Ok results2 /\
    map ModelLoader.confidence results1 = map ModelLoader.confidence results2.
Proof.
  apply (top_k_confidences_determined Demo.net Demo.net_rev
           ModelLoader.model_loader Demo.zero_batch 5 net_ok net_rev_ok);
    [reflexivity | reflexivity | reflexivity | lia].
Defined.

Section ResponseRange.
Import Prob.
Local Open Scope R_scope.

Lemma round4_multiple (z : Z) : round4 (IZR z / 10000) = IZR z / 10000.
Proof.
  unfold round4.
  replace (IZR z / 10000 * 10000) with (IZR z) by (field; lra).
  now rewrite round_half_even_IZR.
Qed.

Lemma round4_unit (x : R) : 0 <= x <= 1 -> 0 <= round4 x <= 1.
Proof.
  intros [H0 H1]. split.
  - replace 0 with (round4 (IZR 0 / 10000)) by (rewrite round4_multiple; lra).
    apply round4_mono. lra.
  - replace 1 with (round4 (IZR 10000 / 10000))
      by (rewrite round4_multiple; lra).
    apply round4_mono. lra.
Qed.

(** The largest of 1000 probabilities is at least 1/1000. *)
Lemma topk_head_bounds (row values : list R) (indices : list nat) (k : nat) :
  List.length row = 1000%nat ->
  topk_spec (softmax row) k values indices -> (0 < k)%nat ->
  1 / 1000 <= nth 0 values 0 <= 1.
Proof.
  intros Hl Hspec Hk.
  assert (Hne : row <> []) by (destruct row; [discriminate Hl | congruence]).
  pose proof (softmax_range row _ (topk_value_in _ _ _ _ 0 Hspec Hk)) as Hr.
  split; [|lra].
  assert (Hb : sum (softmax row)
               <= INR (List.length (softmax row)) * nth 0 values 0).
  { apply sum_le_length. intros p Hp.
    destruct (In_nth _ _ 0 Hp) as (j & Hj & <-).
    exact (topk_head_max _ _ _ _ Hspec Hk j Hj). }
  rewrite (softmax_sum row Hne), softmax_length, Hl in Hb.
  replace (INR 1000) with 1000 in Hb by (simpl; lra).
  lra.
Qed.

End ResponseRange.

(** X12.  In a 200 of [POST /classify], on a network that meets its
    contract, every confidence lies in [0, 1], and
    [prediction.confidence] is at least 0.001. *)
Theorem classify_confidence_range :
  forall (lib : PIL.Lib) (net : ModelLoader.Net) (order : list string)
         (loader : ModelLoader.state) (name : string)
         (contents : list byte) (body : App.body),
    ModelLoader.NetOK net ->
    snd (App.classify_image order loader name contents) = Http.Json body ->
    (1 / 1000 <= App.entry_confidence (App.prediction body) <= 1)%R /\
    (forall e, In e (App.top_k body) ->
               (0 <= App.entry_confidence e <= 1)%R).
Proof.
  intros lib net order loader name contents body Hok Hbody.
  destruct (classify_success order loader name contents body Hbody)
    as (x & cn & conf & results & Hx & Hp & Hr & Hpred & Htop).
  destruct (process_from_bytes_shape contents x Hx) as [Hd Hs].
  destruct (probabilities_ok Hok loader x Hd Hs) as (row & Hf & Hl & _).
  destruct (predict_row Hok loader x row [] Hf Hl) as (v & i & _ & Hspec1 & Hp').
  rewrite Hp in Hp'. injection Hp' as _ Hconf.
  pose proof (topk_head_bounds row [v] [i] 1 Hl Hspec1 Nat.lt_0_1) as Hv.
  cbn [nth] in Hv.
  set (l1 := fst (ModelLoader.predict loader x)) in *.
  destruct (probabilities_ok Hok l1 x Hd Hs) as (row' & Hf' & Hl' & _).
  destruct (predict_top_k_row Hok l1 x row' [] Hf' Hl' 5)
    as (values & indices & _ & Hspec5 & Hr'); [lia|].
  rewrite Hr in Hr'. injection Hr' as Hres.
  change (Z.to_nat 5) with 5%nat in Hres, Hspec5.
  split.
  - rewrite Hpred. cbn [App.entry_confidence]. rewrite Hconf. split.
    + replace (1 / 1000)%R with (Prob.round4 (IZR 10 / 10000))
        by (rewrite round4_multiple; lra).
      apply round4_mono. lra.
    + apply round4_unit. lra.
  - intros e He. rewrite Htop in He. apply in_map_iff in He.
    destruct He as (r & <- & Hin). cbn [App.entry_confidence].
    apply round4_unit.
    rewrite Hres in Hin. destruct (In_nth _ _ r Hin) as (j & Hj & <-).
    rewrite entries_length in Hj. rewrite entries_confidence by exact Hj.
    pose proof (softmax_range row' _ (topk_value_in _ _ _ _ j Hspec5 Hj)).
    lra.
Qed.

Lemma classify_confidence_range_witness :
  exists body,
    snd (App.classify_image (lib := Demo.lib) (net := Demo.net)
           Upload.allowed_extensions ModelLoader.model_loader "red.jpg"
           Demo.red_bytes) = Http.Json body /\
    (1 / 1000 <= App.entry_confidence (App.prediction body) <= 1)%R /\
    (forall e, In e (App.top_k body) ->
               (0 <= App.entry_confidence e <= 1)%R).
Proof.
  destruct (classify_succeeds (lib := Demo.lib) (net := Demo.net)
              Upload.allowed_extensions ModelLoader.model_loader "red.jpg"
              Demo.red_bytes Demo.red_224 net_ok eq_refl eq_refl
              eq_refl eq_refl) as (body & Hbody).
  exists body. split; [exact Hbody|].
  exact (classify_confidence_range Demo.lib Demo.net Upload.allowed_extensions
           ModelLoader.model_loader "red.jpg" Demo.red_bytes body net_ok Hbody).
Defined.

(** X13.  For [k = 0], on a network that meets its contract,
    [predict_top_k] returns the empty list; the model is loaded and the
    network evaluated all the same. *)
Theorem predict_top_0 :
  forall (net : ModelLoader.Net) (self : ModelLoader.state) (x : Torch.tensor),
    ModelLoader.NetOK net ->
    Torch.t_dtype x = Torch.float32 ->
    Torch.shape x = [1; 3; 224; 224] ->
    snd (ModelLoader.predict_top_k self x 0) = Ok [] /\
    ModelLoader.invoked (fst (ModelLoader.predict_top_k self x 0))
      = x :: ModelLoader.invoked self /\
    ModelLoader.model (fst (ModelLoader.predict_top_k self x 0)) <> None.
Proof.
  intros net self x Hok Hd Hs.
  destruct (probabilities_ok Hok self x Hd Hs) as (row & _ & Hl & Hp).
  assert (Hk : 0 <= 0 <= Z.of_nat (List.length (Prob.softmax row))) by lia.
  destruct (ModelLoader.topk_ok net Hok (Prob.softmax row) 0 Hk)
    as (values & indices & Ht & _).
  split; [|split].
  - rewrite predict_top_k_result, top_k_raw_result, Hp. cbn [bind].
    rewrite Ht. reflexivity.
  - rewrite predict_top_k_state.
    now destruct (probabilities_model self x) as (_ & _ & ->).
  - rewrite predict_top_k_state.
    destruct (probabilities_model self x) as (-> & _ & _).
    unfold ModelLoader.load_model.
    destruct (ModelLoader.model self) eqn:E; [rewrite E|]; discriminate.
Qed.

Lemma predict_top_0_witness :
  snd (ModelLoader.predict_top_k (net := Demo.net) ModelLoader.model_loader
         Demo.zero_batch 0) = Ok [] /\
  ModelLoader.invoked
    (fst (ModelLoader.predict_top_k (net := Demo.net) ModelLoader.model_loader
            Demo.zero_batch 0)) = [Demo.zero_batch] /\
  ModelLoader.model
    (fst (ModelLoader.predict_top_k (net := Demo.net) ModelLoader.model_loader
            Demo.zero_batch 0)) <> None.
Proof.
  apply (predict_top_0 Demo.net ModelLoader.model_loader Demo.zero_batch
           net_ok); reflexivity.
Defined.

(* ================================================================== *)
(** * Further properties: case of the filename *)

Section CaseFolding.

Lemma lower_char_idem (c : ascii) :
  Str.lower_char (Str.lower_char c) = Str.lower_char c.
Proof. destruct c as [[] [] [] [] [] [] [] []]; reflexivity. Qed.

Lemma lower_idem (s : string) : Str.lower (Str.lower s) = Str.lower s.
Proof.
  induction s as [|c s IH]; simpl; [reflexivity|].
  now rewrite lower_char_idem, IH.
Qed.

(** Lower-casing neither makes nor removes a dot or a slash. *)
Lemma lower_char_dot (c : ascii) :
  Ascii.eqb (Str.lower_char c) "."%char = Ascii.eqb c "."%char.
Proof. destruct c as [[] [] [] [] [] [] [] []]; reflexivity. Qed.

Lemma lower_char_slash (c : ascii) :
  Ascii.eqb (Str.lower_char c) "/"%char = Ascii.eqb c "/"%char.
Proof. destruct c as [[] [] [] [] [] [] [] []]; reflexivity. Qed.

Lemma rfind_from_lower (t : ascii) (s : string) (i last : Z) :
  (forall c, Ascii.eqb (Str.lower_char c) t = Ascii.eqb c t) ->
  Str.rfind_from t (Str.lower s) i last = Str.rfind_from t s i last.
Proof.
  intros Ht. revert i last.
  induction s as [|c s IH]; intros i last; simpl; [reflexivity|].
  now rewrite Ht, IH.
Qed.

Lemma length_lower (s : string) :
  String.length (Str.lower s) = String.length s.
Proof. induction s as [|c s IH]; simpl; [reflexivity | now rewrite IH]. Qed.

Lemma substring_lower (s : string) (n m : nat) :
  substring n m (Str.lower s) = Str.lower (substring n m s).
Proof.
  revert n m. induction s as [|c s IH]; intros n m.
  - destruct n, m; reflexivity.
  - destruct n as [|n].
    + destruct m as [|m]; simpl; [reflexivity|]. now rewrite IH.
    + simpl. apply IH.
Qed.

Lemma eqb_dot_lower (s : string) :
  String.eqb (Str.lower s) "." = String.eqb s ".".
Proof.
  destruct s as [|c s]; [reflexivity|]. simpl.
  rewrite lower_char_dot. destruct (Ascii.eqb c "."%char); [|reflexivity].
  destruct s; reflexivity.
Qed.

Lemma splitext_loop_lower (n : nat) (p : string) (i d : Z) :
  Str.splitext_loop (Str.lower p) i d n
  = (Str.lower (fst (Str.splitext_loop p i d n)),
     Str.lower (snd (Str.splitext_loop p i d n))).
Proof.
  revert i. induction n as [|n IH]; intros i; simpl; [reflexivity|].
  unfold Str.slice1 at 1. rewrite substring_lower, eqb_dot_lower.
  fold (Str.slice1 p i).
  destruct (negb (String.eqb (Str.slice1 p i) ".")); [|apply IH].
  unfold Str.slice_to, Str.slice_from. cbn [fst snd].
  now rewrite !substring_lower, length_lower.
Qed.

(** [os.path.splitext] commutes with lower-casing. *)
Lemma splitext_lower (p : string) :
  Str.splitext (Str.lower p)
  = (Str.lower (fst (Str.splitext p)), Str.lower (snd (Str.splitext p))).
Proof.
  unfold Str.splitext, Str.rfind.
  rewrite (rfind_from_lower "/"%char) by apply lower_char_slash.
  rewrite (rfind_from_lower "."%char) by apply lower_char_dot.
  destruct (Z.ltb _ _); [apply splitext_loop_lower | reflexivity].
Qed.

Lemma file_ext_lower (p : string) :
  Upload.file_ext (Str.lower p) = Upload.file_ext p.
Proof.
  unfold Upload.file_ext. rewrite splitext_lower. cbn [snd]. apply lower_idem.
Qed.

End CaseFolding.

(** X14.  Both upload checks are case-insensitive in the whole filename:
    two filenames with the same lower-casing are accepted or rejected
    alike by [POST /classify], and alike by [POST /predict]. *)
Theorem upload_checks_ignore_case :
  forall (lib : PIL.Lib) (net : ModelLoader.Net) (order : list string)
         (loader : ModelLoader.state) (g : Classifier.state)
         (contents : list byte) (name1 name2 : string),
    Str.lower name1 = Str.lower name2 ->
    Upload.file_ext name1 = Upload.file_ext name2 /\
    Upload.classify_accepts name1 = Upload.classify_accepts name2 /\
    Upload.validate_file_type name1 = Upload.validate_file_type name2 /\
    (Http.status (snd (App.classify_image order loader name1 contents)) = 400
     <-> Http.status (snd (App.classify_image order loader name2 contents)) = 400) /\
    (Http.status (snd (Api.predict_image g name1 contents)) = 400
     <-> Http.status (snd (Api.predict_image g name2 contents)) = 400).
Proof.
  intros lib net order loader g contents name1 name2 Hlow.
  assert (Hext : Upload.file_ext name1 = Upload.file_ext name2)
    by (rewrite <- (file_ext_lower name1), <- (file_ext_lower name2);
        now rewrite Hlow).
  assert (Hc : Upload.classify_accepts name1 = Upload.classify_accepts name2)
    by (unfold Upload.classify_accepts; now rewrite Hext).
  assert (Hv : Upload.validate_file_type name1 = Upload.validate_file_type name2)
    by (unfold Upload.validate_file_type; now rewrite Hlow).
  repeat split; try assumption.
  - rewrite !classify_status_400. now rewrite Hc.
  - rewrite !classify_status_400. now rewrite Hc.
  - rewrite !predict_status_400. now rewrite Hv.
  - rewrite !predict_status_400. now rewrite Hv.
Qed.

Lemma upload_checks_ignore_case_witness :
  Upload.file_ext "Holiday.Photo.JPG" = Upload.file_ext "holiday.photo.jpg" /\
  Upload.classify_accepts "Holiday.Photo.JPG"
    = Upload.classify_accepts "holiday.photo.jpg" /\
  Upload.validate_file_type "Holiday.Photo.JPG"
    = Upload.validate_file_type "holiday.photo.jpg" /\
  (Http.status (snd (App.classify_image (lib := Demo.lib) (net := Demo.net)
                       Upload.allowed_extensions ModelLoader.model_loader
                       "Holiday.Photo.JPG" Demo.red_bytes)) = 400
   <-> Http.status (snd (App.classify_image (lib := Demo.lib) (net := Demo.net)
                           Upload.allowed_extensions ModelLoader.model_loader
                           "holiday.photo.jpg" Demo.red_bytes)) = 400) /\
  (Http.status (snd (Api.predict_image (lib := Demo.lib) (net := Demo.net)
                       Classifier.init "Holiday.Photo.JPG" Demo.red_bytes)) = 400
   <-> Http.status (snd (Api.predict_image (lib := Demo.lib) (net := Demo.net)
                           Classifier.init "holiday.photo.jpg"
                           Demo.red_bytes)) = 400).
Proof.
  apply (upload_checks_ignore_case Demo.lib Demo.net Upload.allowed_extensions
           ModelLoader.model_loader Classifier.init Demo.red_bytes
           "Holiday.Photo.JPG" "holiday.photo.jpg").
  reflexivity.
Defined.

(* ================================================================== *)
(** * Further properties: the second pipeline *)

Section SecondPipeline.
Import PIL Torch Prob.
Context {lib : PIL.Lib} {net : ModelLoader.Net}.

Lemma process_image_preprocess (img_bytes : list byte) (img : image) :
  Image_open img_bytes = Ok img ->
  Classifier.process_image img_bytes
  = ImageProcessor.preprocess_image ImageProcessor.image_processor
      (convert_RGB img).
Proof.
  unfold Classifier.process_image, ImageProcessor.preprocess_image.
  now intros ->.
Qed.

(** An image that is RGB already and carries no palette is its own
    conversion. *)
Lemma convert_RGB_to_RGB (img : image) :
  (im_mode img = M_RGB -> palette img = []) ->
  convert_RGB img = ImageProcessor.to_RGB img.
Proof.
  unfold ImageProcessor.to_RGB. destruct img as [m w h pal px].
  cbn [im_mode palette]. intros Hpal.
  destruct m; try reflexivity.
  rewrite (Hpal eq_refl). reflexivity.
Qed.

Lemma classifier_results_loop_ok (cats : list string) (probs : list R)
      (catid : list nat) (n i : nat) :
  (i + n <= List.length probs)%nat ->
  (i + n <= List.length catid)%nat ->
  (forall c, In c catid -> (c < List.length cats)%nat) ->
  Classifier.results_loop cats probs catid i n
  = Ok (map (fun j => (nth (nth j catid 0%nat) cats "", nth j probs 0%R))
            (seq i n)).
Proof.
  revert i. induction n as [|n IH]; intros i Hp Hc Hr; [reflexivity|].
  cbn [Classifier.results_loop].
  rewrite (getitem_nth catid i 0%nat) by lia. cbn [bind].
  rewrite (getitem_nth cats (nth i catid 0%nat) "")
    by (apply Hr, nth_In; lia).
  cbn [bind].
  rewrite (getitem_nth probs i 0%R) by lia. cbn [bind].
  rewrite IH by (try lia; assumption). reflexivity.
Qed.

(** Whatever [predict] returns has [top_prediction] as the first of its
    [predictions]. *)
Lemma classifier_predict_head (g : Classifier.state) (image_bytes : list byte)
      (r : Classifier.predictions) :
  snd (Classifier.predict g image_bytes) = Ok r ->
  exists rest,
    Classifier.predictions_list r = Classifier.top_prediction r :: rest.
Proof.
  unfold Classifier.predict.
  destruct (Classifier.process_image image_bytes) as [x|e]; [|discriminate].
  cbn [snd].
  destruct (ModelLoader.forward _ x) as [output|e]; [|discriminate].
  cbn [bind].
  destruct (getitem output 0) as [row|e]; [|discriminate]. cbn [bind].
  destruct ModelLoader.imagenet_classes_txt as [cats|e]; [|discriminate].
  cbn [bind].
  destruct (ModelLoader.topk (softmax row) 5) as [[probs catid]|e];
    [|discriminate].
  cbn [bind].
  destruct probs as [|p0 probs].
  { cbn [List.length Classifier.results_loop bind].
    destruct (getitem catid 0) as [c0|e]; [|discriminate]. cbn [bind].
    destruct (getitem cats c0) as [name0|e]; [|discriminate]. cbn [bind].
    discriminate. }
  cbn [List.length Classifier.results_loop].
  destruct (getitem catid 0) as [c0|e]; [|discriminate]. cbn [bind].
  destruct (getitem cats c0) as [name0|e]; [|discriminate]. cbn [bind].
  change (getitem (p0 :: probs) 0) with (Ok p0). cbn [bind].
  destruct (Classifier.results_loop cats (p0 :: probs) catid 1
              (List.length probs)) as [rest|e]; [|discriminate].
  cbn [bind]. intros E. injection E as <-.
  exists rest. reflexivity.
Qed.

End SecondPipeline.

(** X15.  The two pipelines prepare the same tensor: for bytes PIL
    decodes (an RGB image carrying no palette), [process_image] of
    [ImageClassifier.predict] and [ImageProcessor.process_from_bytes]
    return the same result. *)
Theorem pipelines_prepare_same_tensor :
  forall (lib : PIL.Lib) (image_bytes : list byte) (img : PIL.image),
    PIL.Image_open image_bytes = Ok img ->
    (PIL.im_mode img = PIL.M_RGB -> PIL.palette img = []) ->
    Classifier.process_image image_bytes
    = ImageProcessor.process_from_bytes ImageProcessor.image_processor
        image_bytes.
Proof.
  intros lib image_bytes img Hopen Hpal.
  rewrite (process_image_preprocess image_bytes img Hopen).
  unfold ImageProcessor.process_from_bytes.
  rewrite (load_image_from_bytes_ok _ _ _ Hopen). cbn [bind].
  now rewrite (convert_RGB_to_RGB img Hpal).
Qed.

Lemma pipelines_prepare_same_tensor_witness :
  Classifier.process_image (lib := Demo.lib) Demo.red_bytes
  = ImageProcessor.process_from_bytes (lib := Demo.lib)
      ImageProcessor.image_processor Demo.red_bytes.
Proof.
  apply (pipelines_prepare_same_tensor Demo.lib Demo.red_bytes Demo.red_224);
    reflexivity.
Defined.

(** X16.  Whenever [ImageClassifier.predict] returns, [top_prediction]
    is the first entry of [predictions], class and confidence alike, and
    the network has been evaluated once more. *)
Theorem classifier_top_is_first :
  forall (lib : PIL.Lib) (net : ModelLoader.Net) (g : Classifier.state)
         (image_bytes : list byte) (r : Classifier.predictions),
    snd (Classifier.predict g image_bytes) = Ok r ->
    (exists rest,
       Classifier.predictions_list r = Classifier.top_prediction r :: rest) /\
    exists x,
      Classifier.process_image image_bytes = Ok x /\
      Classifier.evaluated (fst (Classifier.predict g image_bytes))
      = x :: Classifier.evaluated g.
Proof.
  intros lib net g image_bytes r Hr.
  split; [exact (classifier_predict_head g image_bytes r Hr)|].
  revert Hr. unfold Classifier.predict.
  destruct (Classifier.process_image image_bytes) as [x|e]; [|discriminate].
  intros _. exists x. split; reflexivity.
Qed.

Section SecondPipelineContract.
Import PIL Torch Prob.
Context {lib : PIL.Lib} {net : ModelLoader.Net}.
Hypothesis ok : ModelLoader.NetOK net.

Lemma classifier_predict_ok (g : Classifier.state) (image_bytes : list byte)
      (img : image) (cats : list string) :
  ModelLoader.imagenet_classes_txt = Ok cats ->
  (1000 <= List.length cats)%nat ->
  Image_open image_bytes = Ok img -> 0 < width img -> 0 < height img ->
  exists row values indices,
    List.length row = 1000%nat /\
    topk_spec (softmax row) 5 values indices /\
    snd (Classifier.predict g image_bytes)
    = Ok {| Classifier.predictions_list :=
              map (fun j => (nth (nth j indices 0%nat) cats "",
                             nth j values 0%R)) (seq 0 5);
            Classifier.top_prediction :=
              (nth (nth 0 indices 0%nat) cats "", nth 0 values 0%R) |}.
Proof.
  intros Hcats Hlen Hopen Hw Hh.
  assert (Hx : exists x, Classifier.process_image image_bytes = Ok x /\
                         ImageProcessor.normalized x).
  { rewrite (process_image_preprocess image_bytes img Hopen).
    apply preprocess_image_normalized; assumption || reflexivity. }
  destruct Hx as (x & Hx & Hd & Hs & _).
  destruct (ModelLoader.forward_row net ok (List.length (Classifier.evaluated g))
              x Hd Hs) as (row & Hf & Hl).
  assert (Hk : 0 <= 5 <= Z.of_nat (List.length (softmax row)))
    by (rewrite softmax_length, Hl; lia).
  destruct (ModelLoader.topk_ok net ok (softmax row) 5 Hk)
    as (values & indices & Ht & Hspec).
  change (Z.to_nat 5) with 5%nat in Hspec.
  exists row, values, indices. split; [exact Hl|]. split; [exact Hspec|].
  destruct Hspec as [Hvl Hil _ Hrange _ _ _].
  assert (Hr : forall c, In c indices -> (c < List.length cats)%nat).
  { intros c Hc. apply Hrange in Hc. rewrite softmax_length, Hl in Hc. lia. }
  unfold Classifier.predict. rewrite Hx. cbn [snd].
  rewrite Hf. cbn [bind getitem nth_error]. rewrite Hcats. cbn [bind].
  rewrite Ht. cbn [bind].
  rewrite (classifier_results_loop_ok cats values indices (List.length values) 0)
    by (try lia; assumption).
  cbn [bind]. rewrite Hvl.
  rewrite (getitem_nth indices 0 0%nat) by lia. cbn [bind].
  rewrite (getitem_nth cats (nth 0 indices 0%nat) "")
    by (apply Hr, nth_In; lia).
  cbn [bind].
  rewrite (getitem_nth values 0 0%R) by lia. reflexivity.
Qed.

End SecondPipelineContract.

Lemma classifier_top_is_first_witness :
  exists r,
    snd (Classifier.predict (lib := Demo.lib) (net := Demo.net)
           Classifier.init Demo.red_bytes) = Ok r /\
    (exists rest,
       Classifier.predictions_list r = Classifier.top_prediction r :: rest) /\
    exists x,
      Classifier.process_image (lib := Demo.lib) Demo.red_bytes = Ok x /\
      Classifier.evaluated
        (fst (Classifier.predict (lib := Demo.lib) (net := Demo.net)
                Classifier.init Demo.red_bytes)) = [x].
Proof.
  destruct (classifier_predict_ok (lib := Demo.lib) (net := Demo.net) net_ok
              Classifier.init Demo.red_bytes Demo.red_224 Demo.labels
              eq_refl) as (row & values & indices & _ & _ & Hr);
    [unfold Demo.labels; rewrite repeat_length; lia | reflexivity | reflexivity | reflexivity |].
  eexists. split; [exact Hr|].
  exact (classifier_top_is_first Demo.lib Demo.net Classifier.init
           Demo.red_bytes _ Hr).
Defined.

(** X17.  On a network that meets its contract, with a category file of
    at least 1000 lines, [ImageClassifier.predict] on a decodable image
    of positive size returns exactly 5 predictions with confidences in
    [0, 1] that do not increase, the first being at least 1/1000. *)
Theorem classifier_predict_ranked :
  forall (lib : PIL.Lib) (net : ModelLoader.Net) (g : Classifier.state)
         (image_bytes : list byte) (img : PIL.image) (cats : list string),
    ModelLoader.NetOK net ->
    ModelLoader.imagenet_classes_txt = Ok cats ->
    (1000 <= List.length cats)%nat ->
    PIL.Image_open image_bytes = Ok img ->
    0 < PIL.width img -> 0 < PIL.height img ->
    exists r,
      snd (Classifier.predict g image_bytes) = Ok r /\
      List.length (Classifier.predictions_list r) = 5%nat /\
      (forall p, In p (Classifier.predictions_list r) ->
                 (0 <= snd p <= 1)%R) /\
      (forall n m d, (n <= m < 5)%nat ->
         (snd (nth m (Classifier.predictions_list r) d)
          <= snd (nth n (Classifier.predictions_list r) d))%R) /\
      (1 / 1000 <= snd (Classifier.top_prediction r))%R.
Proof.
  intros lib net g image_bytes img cats Hok Hcats Hlen Hopen Hw Hh.
  destruct (classifier_predict_ok Hok g image_bytes img cats Hcats Hlen
              Hopen Hw Hh) as (row & values & indices & Hl & Hspec & Hr).
  eexists. split; [exact Hr|]. cbn [Classifier.predictions_list
                                     Classifier.top_prediction snd].
  set (f := fun j : nat => (nth (nth j indices 0%nat) cats "", nth j values 0%R)).
  assert (Hnth : forall m d, (m < 5)%nat ->
             snd (nth m (map f (seq 0 5)) d) = nth m values 0%R).
  { intros m d Hm.
    rewrite (nth_indep (map f (seq 0 5)) d (f 0%nat))
      by (now rewrite length_map, length_seq).
    rewrite (map_nth f), seq_nth by exact Hm. reflexivity. }
  split; [now rewrite length_map, length_seq|]. split; [|split].
  - intros p Hp. destruct (In_nth _ _ p Hp) as (j & Hj & <-).
    rewrite length_map, length_seq in Hj. rewrite Hnth by exact Hj.
    pose proof (softmax_range row _ (topk_value_in _ _ _ _ j Hspec Hj)).
    lra.
  - intros n m d Hnm. rewrite !Hnth by lia.
    now apply (Prob.topk_sorted _ _ _ _ Hspec).
  - apply (topk_head_bounds row values indices 5 Hl Hspec). lia.
Qed.

Lemma classifier_predict_ranked_witness :
  exists r,
    snd (Classifier.predict (lib := Demo.lib) (net := Demo.net)
           Classifier.init Demo.red_bytes) = Ok r /\
    List.length (Classifier.predictions_list r) = 5%nat /\
    (forall p, In p (Classifier.predictions_list r) -> (0 <= snd p <= 1)%R) /\
    (forall n m d, (n <= m < 5)%nat ->
       (snd (nth m (Classifier.predictions_list r) d)
        <= snd (nth n (Classifier.predictions_list r) d))%R) /\
    (1 / 1000 <= snd (Classifier.top_prediction r))%R.
Proof.
  apply (classifier_predict_ranked Demo.lib Demo.net Classifier.init
           Demo.red_bytes Demo.red_224 Demo.labels net_ok eq_refl);
    [unfold Demo.labels; rewrite repeat_length; lia | reflexivity | reflexivity | reflexivity].
Defined.

(* ================================================================== *)
(** * Further properties: the shape of accepted filenames *)

Section AcceptedNames.

Lemma rfind_from_bound (c : ascii) (s : string) (i last : Z) :
  Str.rfind_from c s i last = last \/ i <= Str.rfind_from c s i last.
Proof.
  revert i last. induction s as [|a s IH]; intros i last; simpl; [now left|].
  destruct (IH (i + 1) (if Ascii.eqb a c then i else last)) as [E|E].
  - rewrite E. destruct (Ascii.eqb a c); [right; lia | now left].
  - right. lia.
Qed.

Lemma rfind_lower_bound (c : ascii) (s : string) : -1 <= Str.rfind c s.
Proof.
  unfold Str.rfind. destruct (rfind_from_bound c s 0 (-1)); lia.
Qed.

(** A non-empty extension is split off a non-empty root. *)
Lemma splitext_loop_root (n : nat) (p : string) (i d : Z) :
  0 <= i -> d = i + Z.of_nat n ->
  snd (Str.splitext_loop p i d n) <> "" ->
  fst (Str.splitext_loop p i d n) <> "".
Proof.
  revert i. induction n as [|n IH]; intros i Hi Hd; simpl.
  - intros H. now contradict H.
  - destruct (negb _).
    + cbn [fst snd]. unfold Str.slice_to, Str.slice_from.
      assert (Hk : exists k, Z.to_nat d = S k)
        by (exists (Z.to_nat d - 1)%nat; lia).
      destruct Hk as (k & ->).
      destruct p as [|a p]; [intros H; now contradict H|].
      intros _. simpl. discriminate.
    + apply IH; lia.
Qed.

Lemma splitext_root (p : string) :
  snd (Str.splitext p) <> "" -> fst (Str.splitext p) <> "".
Proof.
  unfold Str.splitext.
  pose proof (rfind_lower_bound "/"%char p) as Hsep.
  destruct (Z.ltb _ _) eqn:E.
  - apply Z.ltb_lt in E. apply splitext_loop_root; lia.
  - cbn [snd]. intros H. now contradict H.
Qed.

(** [s.endswith(suffix)] holds exactly of the strings that are something
    followed by [suffix]. *)
Lemma endswith_iff (s suffix : string) :
  Str.endswith s suffix = true <-> exists pre, s = pre ++ suffix.
Proof.
  split.
  - unfold Str.endswith. intros H. apply andb_true_iff in H.
    destruct H as [Hle Heq]. apply Nat.leb_le in Hle.
    apply String.eqb_eq in Heq.
    exists (substring 0 (String.length s - String.length suffix) s).
    pose proof (slice_glue s
                  (Z.of_nat (String.length s - String.length suffix))) as Hg.
    unfold Str.slice_to, Str.slice_from in Hg. rewrite Nat2Z.id in Hg.
    replace (String.length s - (String.length s - String.length suffix))%nat
      with (String.length suffix) in Hg by lia.
    rewrite Heq in Hg. now symmetry.
  - intros (pre & ->). apply endswith_app.
Qed.

End AcceptedNames.

(** X18.  A filename [POST /classify] accepts is a non-empty root
    followed by one of the six extensions in some letter case, root and
    extension being what [os.path.splitext] returns.  [POST /predict]
    accepts exactly the filenames whose lower-casing is anything, the
    empty string included, followed by one of the six. *)
Theorem accepted_filenames :
  forall name : string,
    (Upload.classify_accepts name = true ->
     exists root ext,
       Str.splitext name = (root, ext) /\
       name = root ++ ext /\
       root <> "" /\
       In (Str.lower ext) Upload.allowed_extensions) /\
    (Upload.validate_file_type name = true <->
     exists pre ext,
       In ext Upload.allowed_extensions /\ Str.lower name = pre ++ ext).
Proof.
  intros name. split.
  - intros Hacc. unfold Upload.classify_accepts, Upload.file_ext in Hacc.
    apply mem_In in Hacc.
    exists (fst (Str.splitext name)), (snd (Str.splitext name)).
    split; [now destruct (Str.splitext name)|].
    split; [symmetry; apply splitext_glue|]. split; [|exact Hacc].
    apply splitext_root. intros Hempty. rewrite Hempty in Hacc.
    simpl in Hacc. repeat (destruct Hacc as [Hacc|Hacc]; [discriminate|]).
    exact Hacc.
  - unfold Upload.validate_file_type. rewrite existsb_exists. split.
    + intros (ext & Hin & He). apply endswith_iff in He.
      destruct He as (pre & He). now exists pre, ext.
    + intros (pre & ext & Hin & He). exists ext. split; [exact Hin|].
      apply endswith_iff. now exists pre.
Qed.
